(** * Payroll summary and department invoice (app.py)

    A shallow embedding of the computational core of [app.py]: the header
    normalisation used by [sum_norm] and [match_cost_center_column], the
    resigned-staff filter, the numeric conversion and payroll summary, and
    the invoice lines with their SST totals.

    Conventions of the embedding.
    - A Python [str] is the list of its Unicode code points ([pystr]); the
      two-decimal amounts of the invoice, which are pure ASCII, are ordinary
      [string]s.
    - A number is the rational it stands for ([Qc]).  The arithmetic the
      script does on the numbers of the invoice, [+], [-] and [*] on
      Python floats, rounds to the nearest double ([float_add],
      [float_sub], [float_mul]).  What pandas computes on whole columns
      (the row sums of the payroll summary and the column sums of the
      invoice, whose order of summation belongs to the library) and the
      amounts read back from their two-decimal text are kept exact.
      Infinities and the sign of zero are outside the model.
    - A [DataFrame] is the ordered list of its labelled columns.  Frames are
      read with unique labels and with columns of one common length.
    - A raised exception is the [Raise] case of [result]. *)

From Stdlib Require Import List ZArith NArith QArith Qround Qcanon String Ascii Bool Lia.
From Stdlib Require Import Qabs Qpower DecimalString DecimalN Lqa.
Import ListNotations.

(* ================================================================= *)
(** ** Python strings *)

Local Open Scope N_scope.

Definition pystr := list N.

Definition pystr_eq_dec : forall a b : pystr, {a = b} + {a <> b} :=
  list_eq_dec N.eq_dec.

Definition pystr_eqb (a b : pystr) : bool :=
  if pystr_eq_dec a b then true else false.

(** Code points of an ASCII literal. *)
Definition cps (s : string) : pystr :=
  map N_of_ascii (list_ascii_of_string s).

(** [str.lower()] on one code point.  Only the code points whose lowercase
    form contains a letter of a-z are spelled out: A-Z, U+0130 (capital I
    with dot above, which lowers to "i" followed by U+0307) and U+212A
    (the Kelvin sign, which lowers to "k").  Every other code point lowers
    to something outside a-z and stands for its own lowercase form here. *)
Definition lower_cp (c : N) : pystr :=
  if (65 <=? c) && (c <=? 90) then [c + 32]
  else if c =? 304 then [105; 775]
  else if c =? 8490 then [107]
  else [c].

Definition lower (s : pystr) : pystr := flat_map lower_cp s.

Definition is_az (c : N) : bool := (97 <=? c) && (c <=? 122).

(** [re.sub(r"[^a-z]", "", s)] *)
Definition re_sub_non_az (s : pystr) : pystr := filter is_az s.

(** [re.sub(r"[^a-z]", "", s.lower())], the key both helpers compare. *)
Definition norm_key (s : pystr) : pystr := re_sub_non_az (lower s).

(** The normalisation in the words of the specification: drop every
    character that is not an ASCII letter, lowercase what is left. *)
Definition is_ascii_letter (c : N) : bool :=
  ((65 <=? c) && (c <=? 90)) || is_az c.

Definition ascii_lower (c : N) : N :=
  if (65 <=? c) && (c <=? 90) then c + 32 else c.

Definition letters_lowercased (s : pystr) : pystr :=
  map ascii_lower (filter is_ascii_letter s).

(** Code points on which [str.lower] leaves ASCII by itself. *)
Definition plain_cp (c : N) : bool := negb ((c =? 304) || (c =? 8490)).

Local Close Scope N_scope.

(* ================================================================= *)
(** ** Exceptions *)

Inductive PyError : Type :=
| KeyError (label : pystr)
| AttributeError
| TypeError
| ValueError.

Inductive result (A : Type) : Type :=
| Ok (a : A)
| Raise (e : PyError).

Arguments Ok {A} a.
Arguments Raise {A} e.

Definition bind {A B} (r : result A) (k : A -> result B) : result B :=
  match r with
  | Ok a => k a
  | Raise e => Raise e
  end.

Declare Scope py_scope.
Delimit Scope py_scope with py.
Notation "x <- c1 ;; c2" := (bind c1 (fun x => c2))
  (at level 61, c1 at next level, right associativity) : py_scope.
Open Scope py_scope.

(* ================================================================= *)
(** ** Cells, series and frames *)

(** What a cell can hold: a number, a piece of text, a timestamp, or the
    missing value (NaN, NaT, an empty spreadsheet cell). *)
Inductive Cell : Type :=
| CNum (q : Qc)
| CStr (s : pystr)
| CDate (t : Z)
| CNaN.

Definition Series := list Cell.

Definition DataFrame := list (pystr * Series).

Definition columns (df : DataFrame) : list pystr := map fst df.

(** [len(df)]: the length of the index, which every column shares. *)
Definition nrows (df : DataFrame) : nat :=
  match df with
  | [] => 0%nat
  | (_, s) :: _ => List.length s
  end.

(** [df[label]] *)
Fixpoint getitem (label : pystr) (df : DataFrame) : result Series :=
  match df with
  | [] => Raise (KeyError label)
  | (c, s) :: rest => if pystr_eqb c label then Ok s else getitem label rest
  end.

(** What [df.get(label, 0)] hands back: the column, or the default. *)
Inductive Operand : Type :=
| Scalar (q : Qc)
| Column (s : Series).

Definition get (label : pystr) (df : DataFrame) (default : Qc) : Operand :=
  match getitem label df with
  | Ok s => Column s
  | Raise _ => Scalar default
  end.

Definition has_column (label : pystr) (df : DataFrame) : bool :=
  existsb (pystr_eqb label) (columns df).

(** [Series.sum()]: missing values are skipped; text cannot be added to
    the numeric start value. *)
Fixpoint series_sum (s : Series) : result Qc :=
  match s with
  | [] => Ok 0%Qc
  | CNum q :: rest => v <- series_sum rest ;; Ok (q + v)%Qc
  | CNaN :: rest => series_sum rest
  | _ :: _ => Raise TypeError
  end.

(* ================================================================= *)
(** ** Column matcher *)

(** The inner loop of [sum_norm]: the first label of [cols] with key
    [tgt_key]. *)
Definition first_with_key (tgt_key : pystr) (cols : list pystr) : option pystr :=
  find (fun col => pystr_eqb (norm_key col) tgt_key) cols.

Fixpoint sum_norm (df : DataFrame) (target_names : list pystr) : result Qc :=
  match target_names with
  | [] => Ok 0%Qc
  | target :: rest =>
      let tgt_key := norm_key target in
      match first_with_key tgt_key (columns df) with
      | Some col => s <- getitem col df ;; series_sum s
      | None => sum_norm df rest
      end
  end.

(** The reading "first column, in sheet order, whose key is the key of
    some target", for comparison with [sum_norm]. *)
Definition first_column_of_any_target
    (df : DataFrame) (target_names : list pystr) : option pystr :=
  find (fun col => existsb (fun t => pystr_eqb (norm_key col) (norm_key t))
                           target_names)
       (columns df).

(* ================================================================= *)
(** ** Cost-center column *)

Definition acceptable : list pystr :=
  [cps "C/Center"; cps "Cost Center"; cps "Center"; cps "C Center";
   cps "C-Center"].

(** A [dict] keeps the position of a key's first insertion. *)
Fixpoint dict_set {V} (k : pystr) (v : V) (d : list (pystr * V))
  : list (pystr * V) :=
  match d with
  | [] => [(k, v)]
  | (k', v') :: rest =>
      if pystr_eqb k' k then (k', v) :: rest else (k', v') :: dict_set k v rest
  end.

(** [{col: re.sub(r"[^a-z]", "", col.lower()) for col in columns}] *)
Definition norm_map (cols : list pystr) : list (pystr * pystr) :=
  fold_left (fun d col => dict_set col (norm_key col) d) cols [].

Definition first_orig_with_norm (t_norm : pystr) (d : list (pystr * pystr))
  : option pystr :=
  option_map fst (find (fun kv => pystr_eqb (snd kv) t_norm) d).

Fixpoint match_in (d : list (pystr * pystr)) (targets : list pystr)
  : option pystr :=
  match targets with
  | [] => None
  | tgt :: rest =>
      match first_orig_with_norm (norm_key tgt) d with
      | Some orig => Some orig
      | None => match_in d rest
      end
  end.

Definition match_cost_center_column (cols : list pystr) : option pystr :=
  match_in (norm_map cols) acceptable.

(** What the script does next: go on with the column, or show the error
    and [st.stop()]. *)
Inductive Session (A : Type) : Type :=
| Continue (a : A)
| Stopped (msg : string).

Arguments Continue {A} a.
Arguments Stopped {A} msg.

(** [not cost_col]: [None] and the empty string are falsy. *)
Definition falsy (o : option pystr) : bool :=
  match o with
  | None => true
  | Some [] => true
  | Some (_ :: _) => false
  end.

Definition find_cost_center (cols : list pystr) : Session pystr :=
  let cost_col := match_cost_center_column cols in
  if falsy cost_col then Stopped "❌ Cost Center column not found."
  else match cost_col with
       | Some c => Continue c
       | None => Stopped "❌ Cost Center column not found."
       end.

(** The resolver in the words of the specification: the spellings in
    the order of the list, a header matching a spelling when the two are
    equal once everything but ASCII letters is dropped and the rest
    lowercased ([letters_lowercased]). *)
Fixpoint first_header_by_letters (cols targets : list pystr)
  : option pystr :=
  match targets with
  | [] => None
  | tgt :: rest =>
      match find (fun c => pystr_eqb (letters_lowercased c)
                                     (letters_lowercased tgt)) cols with
      | Some h => Some h
      | None => first_header_by_letters cols rest
      end
  end.

(** The header "Center" followed by the Kelvin sign U+212A. *)
Definition center_kelvin : pystr := cps "Center" ++ [8490%N].

(* ================================================================= *)
(** ** Row filter, numeric conversion and payroll summary *)

Definition isna (c : Cell) : bool :=
  match c with
  | CNaN => true
  | _ => false
  end.

(** [df[label] = values]: an existing column is replaced where it stands,
    a new one goes last. *)
Definition setitem (label : pystr) (s : Series) (df : DataFrame) : DataFrame :=
  dict_set label s df.

(** Selection by a boolean mask, on one column and on the frame. *)
Fixpoint select (mask : list bool) (s : Series) : Series :=
  match mask, s with
  | m :: ms, c :: cs => if m then c :: select ms cs else select ms cs
  | _, _ => []
  end.

Definition loc_mask (mask : list bool) (df : DataFrame) : DataFrame :=
  map (fun cs => (fst cs, select mask (snd cs))) df.

(** Arithmetic of two cells: numbers combine, a missing value absorbs,
    text and timestamps do not take part. *)
Definition cell_arith (f : Qc -> Qc -> Qc) (a b : Cell) : result Cell :=
  match a, b with
  | CNum x, CNum y => Ok (CNum (f x y))
  | CNum _, CNaN => Ok CNaN
  | CNaN, CNum _ => Ok CNaN
  | CNaN, CNaN => Ok CNaN
  | _, _ => Raise TypeError
  end.

Fixpoint map_r {A B} (f : A -> result B) (l : list A) : result (list B) :=
  match l with
  | [] => Ok []
  | x :: rest => y <- f x ;; ys <- map_r f rest ;; Ok (y :: ys)
  end.

Fixpoint zip_r {A B C} (f : A -> B -> result C) (l : list A) (m : list B)
  : result (list C) :=
  match l, m with
  | x :: l', y :: m' => z <- f x y ;; zs <- zip_r f l' m' ;; Ok (z :: zs)
  | _, _ => Ok []
  end.

(** [a + b] and [a - b] where each side is a column or a plain number. *)
Definition op_arith (f : Qc -> Qc -> Qc) (a b : Operand) : result Operand :=
  match a, b with
  | Scalar x, Scalar y => Ok (Scalar (f x y))
  | Scalar x, Column t =>
      r <- map_r (fun c => cell_arith f (CNum x) c) t ;; Ok (Column r)
  | Column s, Scalar y =>
      r <- map_r (fun c => cell_arith f c (CNum y)) s ;; Ok (Column r)
  | Column s, Column t =>
      r <- zip_r (cell_arith f) s t ;; Ok (Column r)
  end.

Definition op_add : Operand -> Operand -> result Operand := op_arith Qcplus.

(** [df[label] = value]: a plain number fills the whole column. *)
Definition assign (label : pystr) (v : Operand) (df : DataFrame) : DataFrame :=
  match v with
  | Scalar q => setitem label (repeat (CNum q) (nrows df)) df
  | Column s => setitem label s df
  end.

(** One step of [DataFrame.sum(axis=1)]: the running row totals take in
    one more column, missing values skipped. *)
Definition nansum_cell (acc : Qc) (c : Cell) : result Qc :=
  match c with
  | CNum q => Ok (acc + q)%Qc
  | CNaN => Ok acc
  | _ => Raise TypeError
  end.

Fixpoint sum_axis1 (acc : list Qc) (cols : list Series) : result (list Qc) :=
  match cols with
  | [] => Ok acc
  | s :: rest => acc' <- zip_r nansum_cell acc s ;; sum_axis1 acc' rest
  end.

Definition M_Basic : pystr := cps "M/Basic".
(** "OT Amt 1½": the last character is U+00BD. *)
Definition OT_Amt : pystr := cps "OT Amt 1" ++ [189%N].
Definition BOT : pystr := cps "BOT".
Definition Gross_Pay : pystr := cps "Gross Pay".
Definition Total_Deduction : pystr := cps "Total Deduction".
Definition Net_Pay : pystr := cps "Net Pay".
Definition EPF : pystr := cps "EPF".
Definition Socso : pystr := cps "Socso".
Definition EIS : pystr := cps "EIS".
Definition PCB : pystr := cps "PCB".
Definition HRDF : pystr := cps "HRDF".
Definition Joined : pystr := cps "Joined".
Definition Resign : pystr := cps "Resign".

(** The columns added up into Gross Pay, in the order of the source. *)
Definition earning_columns : list pystr :=
  [M_Basic; OT_Amt; cps "MEC"; cps "ALL"; cps "OVT"; cps "MS"; cps "NS";
   cps "ICP"; cps "BAC"; cps "BSC"; cps "BBB"; cps "BAL"; BOT; cps "CSN"].

Definition deduction_columns : list pystr := [EPF; Socso; EIS; PCB].

Definition ignore (cost_col : pystr) : list pystr :=
  [cps "Name"; cps "Emp No"; cost_col; Joined; Resign].

Definition fillna0 (c : Cell) : Cell :=
  match c with
  | CNaN => CNum 0%Qc
  | _ => c
  end.

Section Pipeline.

(** What pandas makes of the values it has to convert.  The parsers
    belong to the library: the script only relies on
    [errors="coerce"], which turns every failure into a missing value.

    [pd.to_datetime] does not read a column of text cell by cell: it
    settles on one date format for the column and reads every cell by
    it, so that a text which is a date by itself can still come out
    missing.  The date parsers therefore take the column that is being
    converted next to the value. *)
Variable datetime_of_str : Series -> pystr -> option Z.
Variable datetime_of_num : Series -> Qc -> option Z.
Variable numeric_of_str : pystr -> option Qc.
Variable numeric_of_date : Z -> option Qc.

(** What [pd.to_datetime(col, errors="coerce")] makes of one cell of
    [col]: a timestamp stays, a missing value stays missing. *)
Definition to_datetime_cell (col : Series) (c : Cell) : Cell :=
  match c with
  | CDate t => CDate t
  | CNaN => CNaN
  | CStr s => match datetime_of_str col s with
              | Some t => CDate t
              | None => CNaN
              end
  | CNum q => match datetime_of_num col q with
              | Some t => CDate t
              | None => CNaN
              end
  end.

(** [pd.to_datetime(col, errors="coerce")] *)
Definition to_datetime (col : Series) : Series :=
  map (to_datetime_cell col) col.

(** Lines 110-112: drop resigned staff. *)
Definition drop_resigned (df : DataFrame) : result DataFrame :=
  joined <- getitem Joined df ;;
  let df1 := setitem Joined (to_datetime joined) df in
  resign <- getitem Resign df1 ;;
  let df2 := setitem Resign (to_datetime resign) df1 in
  resign' <- getitem Resign df2 ;;
  Ok (loc_mask (map isna resign') df2).

(** [pd.to_numeric(..., errors="coerce")] on one cell *)
Definition to_numeric (c : Cell) : Cell :=
  match c with
  | CNum q => CNum q
  | CNaN => CNaN
  | CStr s => match numeric_of_str s with
              | Some q => CNum q
              | None => CNaN
              end
  | CDate t => match numeric_of_date t with
               | Some q => CNum q
               | None => CNaN
               end
  end.

(** Lines 115-117: every column outside [ignore] becomes numeric. *)
Definition numeric_conversion (cost_col : pystr) (df : DataFrame) : DataFrame :=
  map (fun cs =>
         if existsb (pystr_eqb (fst cs)) (ignore cost_col) then cs
         else (fst cs, map (fun c => fillna0 (to_numeric c)) (snd cs)))
      df.

End Pipeline.

(** The sum of lines 121-128, left to right. *)
Definition gross_pay (df : DataFrame) : result Operand :=
  fold_left (fun acc label => a <- acc ;; op_add a (get label df 0%Qc))
            (tl earning_columns)
            (Ok (get M_Basic df 0%Qc)).

(** Lines 130-133: [df[c] = df.get(c, 0)] for each deduction column. *)
Definition default_deductions (df : DataFrame) : DataFrame :=
  fold_left (fun d label => assign label (get label d 0%Qc) d)
            deduction_columns df.

(** Lines 120-135. *)
Definition payroll_summary (df : DataFrame) : result DataFrame :=
  gp <- gross_pay df ;;
  let df1 := assign Gross_Pay gp df in
  let df2 := default_deductions df1 in
  cols <- map_r (fun label => getitem label df2) deduction_columns ;;
  td <- sum_axis1 (repeat 0%Qc (nrows df2)) cols ;;
  let df3 := setitem Total_Deduction (map CNum td) df2 in
  g <- getitem Gross_Pay df3 ;;
  t <- getitem Total_Deduction df3 ;;
  np <- zip_r (cell_arith Qcminus) g t ;;
  Ok (setitem Net_Pay np df3).

(** Lines 114-135: the payroll aggregator. *)
Definition aggregate (numeric_of_str : pystr -> option Qc)
    (numeric_of_date : Z -> option Qc) (cost_col : pystr) (df : DataFrame)
  : result DataFrame :=
  payroll_summary (numeric_conversion numeric_of_str numeric_of_date cost_col df).

(* ================================================================= *)
(** ** Money as text: [f"{x:,.2f}"] and [float(x.replace(",", ""))] *)

(** Rounding to the nearest integer, ties to the even neighbour. *)
Definition round_half_even (q : Q) : Z :=
  let f := Qfloor q in
  match Qcompare (q - inject_Z f) (1 # 2) with
  | Lt => f
  | Gt => (f + 1)%Z
  | Eq => if Z.even f then f else (f + 1)%Z
  end.

(** The amount in hundredths, as the two-decimal format rounds it. *)
Definition cents (q : Qc) : Z := round_half_even (q * 100).

Definition digits (n : N) : string := NilEmpty.string_of_uint (N.to_uint n).

(** The thousands separator of the [","] format option. *)
Fixpoint group3 (s : string) : string :=
  match s with
  | EmptyString => EmptyString
  | String c rest =>
      String c
        (if (0 <? String.length rest)%nat
            && (String.length rest mod 3 =? 0)%nat
         then String "," (group3 rest)
         else group3 rest)
  end.

Definition digit_char (n : N) : ascii := ascii_of_N (48 + n).

Definition two_digits (n : N) : string :=
  String (digit_char (n / 10)) (String (digit_char (n mod 10)) EmptyString).

Definition is_negative (q : Qc) : bool := negb (Qle_bool 0 q).

(** [f"{q:,.2f}"] *)
Definition format_money (q : Qc) : string :=
  let c := Z.abs_N (cents q) in
  ((if is_negative q then "-" else "")
   ++ group3 (digits (c / 100)) ++ "." ++ two_digits (c mod 100))%string.

(** [x.replace(",", "")] *)
Fixpoint replace_comma (s : string) : string :=
  match s with
  | EmptyString => EmptyString
  | String c rest =>
      if Ascii.eqb c "," then replace_comma rest
      else String c (replace_comma rest)
  end.

Fixpoint split_dot (s : string) : string * option string :=
  match s with
  | EmptyString => (EmptyString, None)
  | String c rest =>
      if Ascii.eqb c "." then (EmptyString, Some rest)
      else let (a, b) := split_dot rest in (String c a, b)
  end.

Definition N_of_digits (s : string) : option N :=
  option_map N.of_uint (NilEmpty.uint_of_string s).

Definition is_empty (s : string) : bool :=
  match s with
  | EmptyString => true
  | _ => false
  end.

Definition Qc_of_N (n : N) : Qc := Q2Qc (inject_Z (Z.of_N n)).

Definition unsigned_float (s : string) : option Qc :=
  match split_dot s with
  | (ip, None) =>
      if is_empty ip then None else option_map Qc_of_N (N_of_digits ip)
  | (ip, Some fp) =>
      if is_empty ip && is_empty fp then None
      else match N_of_digits ip, N_of_digits fp with
           | Some i, Some f =>
               Some (Qc_of_N i
                     + Qc_of_N f
                       / Q2Qc (inject_Z (10 ^ Z.of_nat (String.length fp))))%Qc
           | _, _ => None
           end
  end.

(** [float(s)] on plain decimal notation: an optional minus sign, digits,
    an optional point and more digits.  That is all the two-decimal format
    produces; exponents, signs other than minus, blanks, underscores,
    "inf" and "nan" are left out and read as a failure here. *)
Definition py_float (s : string) : option Qc :=
  match s with
  | String c rest =>
      if Ascii.eqb c "-" then option_map Qcopp (unsigned_float rest)
      else unsigned_float s
  | EmptyString => unsigned_float s
  end.

(* ================================================================= *)
(** ** Floating-point arithmetic

    A Python float is an IEEE 754 double: a number with 53 significant
    bits and a binary exponent no smaller than that of the subnormal
    numbers.  [x + y], [x - y] and [x * y] give the double nearest to the
    exact result, a tie going to the even significand; on whole numbers
    below 2^53 they are exact.  A result beyond the largest double would
    be infinite; that is left out here. *)

Definition pow2 (k : Z) : Q := (2 ^ k)%Q.

(** The integer part of the binary logarithm of a positive rational. *)
Definition ilog2 (x : Q) : Z :=
  let k := (Z.log2 (Qnum x) - Z.log2 (Zpos (Qden x)))%Z in
  if Qle_bool (pow2 k) x then k else (k - 1)%Z.

(** The exponent of the last bit of the doubles next to [x]. *)
Definition float_exponent (x : Q) : Z := Z.max (ilog2 x - 52) (-1074).

Definition float_round_pos (x : Q) : Q :=
  let e := float_exponent x in
  inject_Z (round_half_even (x / pow2 e)) * pow2 e.

(** The double nearest to [x]. *)
Definition float_round (x : Q) : Q :=
  match Qcompare x 0 with
  | Eq => 0
  | Gt => float_round_pos x
  | Lt => - float_round_pos (- x)
  end.

Definition nearest_double (q : Qc) : Qc := Q2Qc (float_round q).

Definition float_add (a b : Qc) : Qc := nearest_double (a + b).
Definition float_sub (a b : Qc) : Qc := nearest_double (a - b).
Definition float_mul (a b : Qc) : Qc := nearest_double (a * b).

(* ================================================================= *)
(** ** Invoice *)

Record InvoiceLine : Type := mkLine {
  No : Z;
  Description : string;
  Qty : Z;
  U_Price : string;
  Amount : string
}.

Record Invoice : Type := mkInvoice {
  n : nat;
  gross_sum : Qc;
  overtime_total : Qc;
  epf_er : Qc;
  eis_er : Qc;
  socso_er : Qc;
  emp_stat : Qc;
  hrdf_amt : Qc;
  wages : Qc;
  mgmt_base : Qc;
  mgmt_fee : Qc;
  items : list InvoiceLine;
  total_excl_sst : Qc;
  sst_amount : Qc;
  total_incl_sst : Qc
}.

Definition epf_er_names : list pystr :=
  [cps "EPF ER"; cps "EPF'ER"; cps "EPFER"].

Definition eis_er_names : list pystr :=
  [cps "EIS ER"; cps "EIS'ER"; cps "EISER"].

Definition socso_er_names : list pystr :=
  [cps "Socso ER"; cps "SOC ER"; cps "SOC'ER"; cps "SOCSOER"; cps "Soc 'EE"].

Definition insurance_fee : Qc := Q2Qc 50.

(** The literals [0.15] and [0.08]: the doubles nearest to 15/100 and to
    8/100. *)
Definition mgmt_rate : Qc := nearest_double (Q2Qc (15 # 100)).
Definition sst_rate : Qc := nearest_double (Q2Qc (8 # 100)).

(** Lines 202-205: the tax and the total with tax. *)
Definition sst_totals (total_excl_sst : Qc) : Qc * Qc :=
  let sst_amount := float_mul total_excl_sst sst_rate in
  let total_incl_sst := float_add total_excl_sst sst_amount in
  (sst_amount, total_incl_sst).

(** [o.sum()] where [o] came from [df.get(label, 0)]: the default [0] is
    an [int] and has no [sum]. *)
Definition operand_sum (o : Operand) : result Qc :=
  match o with
  | Column s => series_sum s
  | Scalar _ => Raise AttributeError
  end.

(** Lines 186-194. *)
Definition build_items (n : nat) (wages overtime_total emp_stat hrdf_amt
                                  mgmt_fee : Qc) : list InvoiceLine :=
  [ mkLine 1 "Wages" 1 (format_money wages) (format_money wages);
    mkLine 2 "Overtime" 1 (format_money overtime_total)
           (format_money overtime_total);
    mkLine 3 "Employer Statutory (EPF+Socso+EIS)" 1 (format_money emp_stat)
           (format_money emp_stat);
    mkLine 4 "HRDF" 1 (format_money hrdf_amt) (format_money hrdf_amt);
    mkLine 5 "Medical Fee (Excl. Mgmt Fee)" 1 "" "";
    mkLine 6 "Insurance Claim (Excl. Mgmt Fee)" (Z.of_nat n)
           (format_money insurance_fee)
           (format_money (insurance_fee * Qc_of_N (N.of_nat n)));
    mkLine 7 "15% Management Fee" 1 (format_money mgmt_fee)
           (format_money mgmt_fee) ].

(** [sum(float(x.replace(",", "")) for x in inv_df["Amount"] if x)] *)
Fixpoint sum_amounts (amounts : list string) : result Qc :=
  match amounts with
  | [] => Ok 0%Qc
  | x :: rest =>
      if is_empty x then sum_amounts rest
      else match py_float (replace_comma x) with
           | Some v => t <- sum_amounts rest ;; Ok (v + t)%Qc
           | None => Raise ValueError
           end
  end.

(** Lines 156-205, the body of the [try]. *)
Definition invoice (df : DataFrame) : result Invoice :=
  let n := nrows df in
  gp <- getitem Gross_Pay df ;;
  gross_sum <- series_sum gp ;;
  ot <- getitem OT_Amt df ;;
  ot_sum <- series_sum ot ;;
  bot <- getitem BOT df ;;
  bot_sum <- series_sum bot ;;
  let overtime_total := float_add ot_sum bot_sum in
  epf_er <- sum_norm df epf_er_names ;;
  eis_er <- sum_norm df eis_er_names ;;
  socso_er <- sum_norm df socso_er_names ;;
  let emp_stat := float_add (float_add epf_er socso_er) eis_er in
  hrdf_amt <- operand_sum (get HRDF df 0%Qc) ;;
  let wages := float_sub gross_sum overtime_total in
  let mgmt_base :=
    float_add (float_add (float_add wages overtime_total) emp_stat)
              hrdf_amt in
  let mgmt_fee := float_mul mgmt_rate mgmt_base in
  let items := build_items n wages overtime_total emp_stat hrdf_amt mgmt_fee in
  total_excl_sst <- sum_amounts (map Amount items) ;;
  let (sst_amount, total_incl_sst) := sst_totals total_excl_sst in
  Ok (mkInvoice n gross_sum overtime_total epf_er eis_er socso_er emp_stat
                hrdf_amt wages mgmt_base mgmt_fee items total_excl_sst
                sst_amount total_incl_sst).

(** The [try]/[except] around it: the invoice is shown, or the
    exception is reported and the session goes on. *)
Inductive InvoiceOutcome : Type :=
| Shown (inv : Invoice)
| SomethingWentWrong (e : PyError).

Definition generate_invoice (df : DataFrame) : InvoiceOutcome :=
  match invoice df with
  | Ok inv => Shown inv
  | Raise e => SomethingWentWrong e
  end.

(* ================================================================= *)
(** ** Notions used in the statements *)

(** A character that is no letter at all for the matcher: punctuation,
    digits, blanks, quotes and apostrophes of any style. *)
Definition separator (c : N) : bool :=
  negb (is_ascii_letter c) && plain_cp c.

(** Two headers that differ only by the case of their letters and by
    separators. *)
Inductive same_spelling : pystr -> pystr -> Prop :=
| same_nil : same_spelling [] []
| same_letter c d a b :
    is_ascii_letter c = true -> is_ascii_letter d = true ->
    ascii_lower c = ascii_lower d ->
    same_spelling a b -> same_spelling (c :: a) (d :: b)
| same_skip_l c a b :
    separator c = true -> same_spelling a b -> same_spelling (c :: a) b
| same_skip_r c a b :
    separator c = true -> same_spelling a b -> same_spelling a (c :: b).

(** The column a key leads to: the first one whose label has that key. *)
Fixpoint lookup_key (k : pystr) (df : DataFrame) : option Series :=
  match df with
  | [] => None
  | (c, s) :: rest =>
      if pystr_eqb (norm_key c) k then Some s else lookup_key k rest
  end.

(** Every value of the dictionary is the key of its header. *)
Definition keyed (d : list (pystr * pystr)) : Prop :=
  Forall (fun kv => snd kv = norm_key (fst kv)) d.

(** A sheet with two employer-Socso columns under different spellings. *)
Definition two_socso_columns : DataFrame :=
  [ (cps "SOC ER", [CNum (Q2Qc 1)]);
    (cps "Socso ER", [CNum (Q2Qc 2)]) ].

(** Every column has the length of the index. *)
Definition regular (df : DataFrame) : bool :=
  forallb (fun cs => Nat.eqb (List.length (snd cs)) (nrows df)) df.

(** The positions a boolean mask keeps, in order. *)
Fixpoint kept_from (i : nat) (mask : list bool) : list nat :=
  match mask with
  | [] => []
  | m :: ms => if m then i :: kept_from (S i) ms else kept_from (S i) ms
  end.

Definition kept (mask : list bool) : list nat := kept_from 0 mask.

(** *** Stand-ins for the library's parsers, for the examples

    The statements below hold for whatever pandas parses.  Where an
    example needs actual parsers, these are used: dates in the form
    YYYY-MM-DD or MM/DD/YYYY, read by the format of the first value of
    the column when that is a text in one of the two forms; numbers in
    plain decimal notation; a number as a count since the epoch; and no
    number made out of a timestamp. *)

Definition digit_value (c : N) : option Z :=
  if (48 <=? c)%N && (c <=? 57)%N then Some (Z.of_N (c - 48)) else None.

Definition two_digit_value (a b : N) : option Z :=
  match digit_value a, digit_value b with
  | Some x, Some y => Some (10 * x + y)%Z
  | _, _ => None
  end.

Definition iso_date (s : pystr) : option Z :=
  match s with
  | [ya; yb; yc; yd; 45%N; ma; mb; 45%N; da; db] =>
      match two_digit_value ya yb, two_digit_value yc yd,
            two_digit_value ma mb, two_digit_value da db with
      | Some c, Some y, Some m, Some d =>
          if ((1 <=? m) && (m <=? 12) && (1 <=? d) && (d <=? 31))%Z
          then Some (((100 * c + y) * 100 + m) * 100 + d)%Z
          else None
      | _, _, _, _ => None
      end
  | _ => None
  end.

Definition string_of_pystr (s : pystr) : string :=
  string_of_list_ascii (map ascii_of_N s).

Definition plain_number (s : pystr) : option Qc :=
  if forallb (fun c => (c <? 128)%N) s then py_float (string_of_pystr s)
  else None.

Definition slash_date (s : pystr) : option Z :=
  match s with
  | [ma; mb; 47%N; da; db; 47%N; ya; yb; yc; yd] =>
      match two_digit_value ya yb, two_digit_value yc yd,
            two_digit_value ma mb, two_digit_value da db with
      | Some c, Some y, Some m, Some d =>
          if ((1 <=? m) && (m <=? 12) && (1 <=? d) && (d <=? 31))%Z
          then Some (((100 * c + y) * 100 + m) * 100 + d)%Z
          else None
      | _, _, _, _ => None
      end
  | _ => None
  end.

Inductive DateFormat : Type :=
| YearFirst
| MonthFirst.

(** The format taken from the first value of the column that is not
    missing, when it is a text in one of the two forms. *)
Fixpoint guess_format (col : Series) : option DateFormat :=
  match col with
  | [] => None
  | CNaN :: rest => guess_format rest
  | CStr s :: _ =>
      match iso_date s, slash_date s with
      | Some _, _ => Some YearFirst
      | None, Some _ => Some MonthFirst
      | None, None => None
      end
  | _ :: _ => None
  end.

(** A text of the column is read by the format of the column; with no
    format to go by, every text is read by whichever form it has. *)
Definition inferred_date (col : Series) (s : pystr) : option Z :=
  match guess_format col with
  | Some YearFirst => iso_date s
  | Some MonthFirst => slash_date s
  | None => match iso_date s with
            | Some t => Some t
            | None => slash_date s
            end
  end.

Definition epoch_count (col : Series) (q : Qc) : option Z := Some (Qfloor q).

Definition no_number (t : Z) : option Qc := None.

(** Three employees of one department: one still employed, one with a
    resignation date, one whose Resign cell holds text that is no date. *)
Definition three_staff : DataFrame :=
  [ (cps "Name", [CStr (cps "Ali"); CStr (cps "Bala"); CStr (cps "Chen")]);
    (cps "C/Center", [CStr (cps "HQ"); CStr (cps "HQ"); CStr (cps "HQ")]);
    (Joined, [CStr (cps "2020-03-01"); CStr (cps "2019-07-15");
              CStr (cps "2021-01-04")]);
    (Resign, [CNaN; CStr (cps "2024-01-01"); CStr (cps "unknown")]);
    (M_Basic, [CNum (Q2Qc 3000); CNum (Q2Qc 2500); CNum (Q2Qc 2800)]) ].

(** Two employees whose resignation dates are written in different
    forms. *)
Definition two_date_forms : DataFrame :=
  [ (cps "Name", [CStr (cps "Devi"); CStr (cps "Eng")]);
    (cps "C/Center", [CStr (cps "HQ"); CStr (cps "HQ")]);
    (Joined, [CStr (cps "2018-05-02"); CStr (cps "2017-11-20")]);
    (Resign, [CStr (cps "01/02/2024"); CStr (cps "2024-01-01")]) ].

(** What a converted date column holds: timestamps and missing values. *)
Definition is_date_or_missing (c : Cell) : bool :=
  match c with
  | CDate _ | CNaN => true
  | _ => false
  end.

(** *** Row values *)

Definition is_num (c : Cell) : bool :=
  match c with
  | CNum _ => true
  | _ => false
  end.

Definition cell_value (c : Cell) : Qc :=
  match c with
  | CNum q => q
  | _ => 0%Qc
  end.

(** The cell of column [label] in row [i], if there is one. *)
Definition cell_at (df : DataFrame) (label : pystr) (i : nat) : option Cell :=
  match getitem label df with
  | Ok s => nth_error s i
  | Raise _ => None
  end.

(** The number column [label] holds in row [i]; zero when the frame has
    no such column. *)
Definition num_at (df : DataFrame) (label : pystr) (i : nat) : Qc :=
  match cell_at df label i with
  | Some c => cell_value c
  | None => 0%Qc
  end.


Definition Qc_sum (l : list Qc) : Qc := fold_right Qcplus 0%Qc l.

(** The column with value [v i] in row [i]. *)
Definition col_of (n : nat) (v : nat -> Qc) : Series :=
  map (fun i => CNum (v i)) (seq 0 n).

(** An operand that stands for the row values [v]. *)
Definition represents (n : nat) (o : Operand) (v : nat -> Qc) : Prop :=
  match o with
  | Scalar q => forall i, (i < n)%nat -> v i = q
  | Column s => s = col_of n v
  end.

Definition numeric_or_absent (label : pystr) (df : DataFrame) : Prop :=
  forall s, getitem label df = Ok s -> forallb is_num s = true.

(** A label that the cost-center resolver can return. *)
Definition is_cost_center_label (c : pystr) : bool :=
  existsb (pystr_eqb (norm_key c)) (map norm_key acceptable).

(** The frame the payroll summary arrives at, column by column. *)
Definition summary_frame (df : DataFrame) : DataFrame :=
  let n := nrows df in
  let gross i := Qc_sum (map (fun label => num_at df label i) earning_columns) in
  let ded i := Qc_sum (map (fun label => num_at df label i) deduction_columns) in
  setitem Net_Pay (col_of n (fun i => gross i - ded i)%Qc)
    (setitem Total_Deduction (col_of n ded)
       (setitem PCB (col_of n (num_at df PCB))
          (setitem EIS (col_of n (num_at df EIS))
             (setitem Socso (col_of n (num_at df Socso))
                (setitem EPF (col_of n (num_at df EPF))
                   (setitem Gross_Pay (col_of n gross) df)))))).

(** The labels the payroll summary writes. *)
Definition summary_columns : list pystr :=
  [Gross_Pay; EPF; Socso; EIS; PCB; Total_Deduction; Net_Pay].

(** A sheet of department HQ with two active employees.  The first row
    is the scenario of the specification; the second has a text cell
    that is no number and an empty cell. *)
Definition hq_sheet : DataFrame :=
  [ (cps "Name", [CStr (cps "Ali"); CStr (cps "Chen")]);
    (cps "Emp No", [CNum (Q2Qc 101); CNum (Q2Qc 102)]);
    (cps "C/Center", [CStr (cps "HQ"); CStr (cps "HQ")]);
    (Joined, [CDate 20200301; CDate 20210104]);
    (Resign, [CNaN; CNaN]);
    (M_Basic, [CNum (Q2Qc 3000); CStr (cps "2800.40")]);
    (OT_Amt, [CNum (Q2Qc 200); CStr (cps "n/a")]);
    (BOT, [CNum (Q2Qc 0); CNum (Q2Qc 120)]);
    (EPF, [CNum (Q2Qc 300); CNum (Q2Qc 280)]);
    (Socso, [CNum (Q2Qc 50); CNum (Q2Qc 45)]);
    (EIS, [CNum (Q2Qc 10); CNaN]);
    (PCB, [CNum (Q2Qc 0); CNum (Q2Qc 35)]);
    (HRDF, [CNum (Q2Qc 30); CNum (Q2Qc 28)]);
    (cps "EPF'ER", [CNum (Q2Qc 390); CNum (Q2Qc 364)]);
    (cps "SOC ER", [CNum (Q2Qc 55); CNum (Q2Qc 50)]);
    (cps "EIS ER", [CNum (Q2Qc 10); CNum (Q2Qc 9)]) ].

(** *** Amounts *)

(** The amount a two-decimal text stands for: [q] rounded to hundredths. *)
Definition money_value (q : Qc) : Qc := Q2Qc (inject_Z (cents q) / 100).

(** What a line adds to the total: the number its Amount reads as, and
    nothing for an empty Amount. *)
Definition line_amount (l : InvoiceLine) : Qc :=
  if is_empty (Amount l) then 0%Qc
  else match py_float (replace_comma (Amount l)) with
       | Some v => v
       | None => 0%Qc
       end.

Definition is_placeholder (l : InvoiceLine) : bool := is_empty (Amount l).

Definition Qc_of_Z (z : Z) : Qc := Q2Qc (inject_Z z).

Definition no_comma (s : string) : bool :=
  forallb (fun c => negb (Ascii.eqb c ",")) (list_ascii_of_string s).

Definition no_dot (s : string) : bool :=
  forallb (fun c => negb (Ascii.eqb c ".")) (list_ascii_of_string s).

(** A sheet as it is when it has no column [label]. *)
Definition without_column (label : pystr) (df : DataFrame) : DataFrame :=
  filter (fun cs => negb (pystr_eqb (fst cs) label)) df.

(** The spellings of the three employer-statutory groups. *)
Definition employer_names : list pystr :=
  epf_er_names ++ eis_er_names ++ socso_er_names.

(* ================================================================= *)
(** ** Loading the sheet and choosing the department *)

(** Position of the first element that passes a test. *)
Fixpoint first_index {A : Type} (p : A -> bool) (l : list A) : option nat :=
  match l with
  | [] => None
  | x :: rest => if p x then Some 0%nat else option_map S (first_index p rest)
  end.

(** [cell == "No."], as [DataFrame.eq] compares one cell. *)
Definition cell_is (s : pystr) (c : Cell) : bool :=
  match c with
  | CStr t => pystr_eqb t s
  | _ => false
  end.

(** Line 67 either finds the header row or fails on [.index[0]]. *)
Inductive HeaderRow : Type :=
| HeaderAt (i : nat)
| IndexError.

(** [preview[preview.eq("No.").any(axis=1)].index[0]], the sheet being
    given row by row. *)
Definition hdr_row (preview : list (list Cell)) : HeaderRow :=
  match first_index (existsb (cell_is (cps "No."))) preview with
  | Some i => HeaderAt i
  | None => IndexError
  end.

(** [s.replace(x, "")] for a one-character [x]. *)
Definition remove_char (x : N) (s : pystr) : pystr :=
  filter (fun c => negb (c =? x)%N) s.

(** The characters [str.strip()] takes off. *)
Definition is_space (c : N) : bool :=
  ((9 <=? c) && (c <=? 13) || (28 <=? c) && (c <=? 32) || (c =? 133)
   || (c =? 160) || (c =? 5760) || (8192 <=? c) && (c <=? 8202)
   || (c =? 8232) || (c =? 8233) || (c =? 8239) || (c =? 8287)
   || (c =? 12288))%N.

Fixpoint lstrip (s : pystr) : pystr :=
  match s with
  | [] => []
  | c :: rest => if is_space c then lstrip rest else s
  end.

Definition rstrip (s : pystr) : pystr := rev (lstrip (rev s)).

Definition strip (s : pystr) : pystr := rstrip (lstrip s).

(** Lines 71-77: back-ticks (U+0060) and the typographic quotes U+2019
    and U+2018 are dropped, then the blanks at both ends. *)
Definition clean_column (s : pystr) : pystr :=
  strip (remove_char 8216 (remove_char 8217 (remove_char 96 s))).

(** Line 80: the three employee-side labels are renamed. *)
Definition rename_columns : list (pystr * pystr) :=
  [ (cps "EPFEE", EPF); (cps "SocEE", Socso); (cps "EISEE", EIS) ].

Definition rename (c : pystr) : pystr :=
  match find (fun kv => pystr_eqb (fst kv) c) rename_columns with
  | Some kv => snd kv
  | None => c
  end.

(** [Index.duplicated()]: every occurrence but the first is marked. *)
Fixpoint duplicated_from (seen cols : list pystr) : list bool :=
  match cols with
  | [] => []
  | c :: rest =>
      existsb (pystr_eqb c) seen :: duplicated_from (c :: seen) rest
  end.

Definition duplicated (cols : list pystr) : list bool :=
  duplicated_from [] cols.

(** [.loc[:, mask]]: the columns at the positions the mask keeps. *)
Fixpoint loc_columns (mask : list bool) (df : DataFrame) : DataFrame :=
  match mask, df with
  | m :: ms, cs :: rest =>
      if m then cs :: loc_columns ms rest else loc_columns ms rest
  | _, _ => []
  end.

(** Lines 78-83.  The mask is taken from the labels as they are before
    the renaming, because [df_raw] still names the frame that was read. *)
Definition tidy (df_raw : DataFrame) : DataFrame :=
  loc_columns (map negb (duplicated (columns df_raw)))
              (map (fun cs => (rename (fst cs), snd cs)) df_raw).

(** [a == b] on two cells: a missing value equals nothing. *)
Definition cell_eqb (a b : Cell) : bool :=
  match a, b with
  | CNum x, CNum y => Qeq_bool x y
  | CStr s, CStr t => pystr_eqb s t
  | CDate s, CDate t => Z.eqb s t
  | _, _ => false
  end.

(** [Series.unique()]: the values in the order of their first
    occurrence. *)
Fixpoint unique_from (seen : list Cell) (s : Series) : Series :=
  match s with
  | [] => []
  | c :: rest =>
      if existsb (cell_eqb c) seen then unique_from seen rest
      else c :: unique_from (c :: seen) rest
  end.

Definition unique (s : Series) : Series := unique_from [] s.

Definition dropna (s : Series) : Series := filter (fun c => negb (isna c)) s.

(** Line 105. *)
Definition depts (cost_col : pystr) (df_raw : DataFrame) : result Series :=
  col <- getitem cost_col df_raw ;; Ok (unique (dropna col)).

(** Line 107. *)
Definition select_department (cost_col : pystr) (sel_dept : Cell)
    (df_raw : DataFrame) : result DataFrame :=
  col <- getitem cost_col df_raw ;;
  Ok (loc_mask (map (fun c => cell_eqb c sel_dept) col) df_raw).

(** Lines 107-135 in one piece: the table shown for a department. *)
Definition department_table
    (datetime_of_str : Series -> pystr -> option Z)
    (datetime_of_num : Series -> Qc -> option Z)
    (numeric_of_str : pystr -> option Qc) (numeric_of_date : Z -> option Qc)
    (cost_col : pystr) (sel_dept : Cell) (df_raw : DataFrame)
  : result DataFrame :=
  df <- select_department cost_col sel_dept df_raw ;;
  df' <- drop_resigned datetime_of_str datetime_of_num df ;;
  aggregate numeric_of_str numeric_of_date cost_col df'.

(** How many positions a mask keeps. *)
Definition count_true (mask : list bool) : nat :=
  List.length (filter (fun b => b) mask).

(** A sheet with staff of two departments. *)
Definition two_depts_sheet : DataFrame :=
  [ (cps "Name", [CStr (cps "Ali"); CStr (cps "Bala"); CStr (cps "Chen");
                  CStr (cps "Devi")]);
    (cps "C/Center", [CStr (cps "HQ"); CStr (cps "KL"); CStr (cps "HQ");
                      CNaN]);
    (Joined, [CStr (cps "2020-03-01"); CStr (cps "2019-07-15");
              CStr (cps "2021-01-04"); CStr (cps "2022-02-02")]);
    (Resign, [CNaN; CNaN; CStr (cps "2024-01-01"); CNaN]);
    (M_Basic, [CNum (Q2Qc 3000); CNum (Q2Qc 2500); CNum (Q2Qc 2800);
               CNum (Q2Qc 2000)]);
    (OT_Amt, [CNum (Q2Qc 200); CNum (Q2Qc 0); CNum (Q2Qc 50);
              CNum (Q2Qc 0)]);
    (BOT, [CNum (Q2Qc 0); CNum (Q2Qc 10); CNum (Q2Qc 0); CNum (Q2Qc 0)]);
    (HRDF, [CNum (Q2Qc 30); CNum (Q2Qc 25); CNum (Q2Qc 28);
            CNum (Q2Qc 20)]) ].

(** A text with no blank at either end. *)
Definition stripped (t : pystr) : Prop :=
  (forall c, hd_error t = Some c -> is_space c = false)
  /\ (forall c, hd_error (rev t) = Some c -> is_space c = false).

(** The labels in the order of their first occurrence. *)
Fixpoint firsts_from (seen cols : list pystr) : list pystr :=
  match cols with
  | [] => []
  | c :: rest =>
      if existsb (pystr_eqb c) seen then firsts_from (c :: seen) rest
      else c :: firsts_from (c :: seen) rest
  end.

Definition firsts (cols : list pystr) : list pystr := firsts_from [] cols.

(* ================================================================= *)
(** ** Login *)

Definition VALID_USERS : list (pystr * pystr) :=
  [ (cps "alice", cps "wonderland123"); (cps "bob", cps "builder456") ].

(** [d.get(k)]: the value under [k], or [None]. *)
Definition dict_get (k : pystr) (d : list (pystr * pystr)) : option pystr :=
  option_map snd (find (fun kv => pystr_eqb (fst kv) k) d).

(** [VALID_USERS.get(username) == password]; [None] equals no text. *)
Definition login_ok (username password : pystr) : bool :=
  match dict_get username VALID_USERS with
  | Some p => pystr_eqb p password
  | None => false
  end.

(* ================================================================= *)
(** * Properties *)

(** ** Strings and lookups *)

Lemma pystr_eqb_eq (a b : pystr) : pystr_eqb a b = true <-> a = b.
Proof.
  unfold pystr_eqb. destruct (pystr_eq_dec a b); split; congruence.
Qed.

Lemma pystr_eqb_refl (a : pystr) : pystr_eqb a a = true.
Proof. now apply pystr_eqb_eq. Qed.

Lemma pystr_eqb_neq (a b : pystr) : pystr_eqb a b = false <-> a <> b.
Proof.
  unfold pystr_eqb. destruct (pystr_eq_dec a b); split; congruence.
Qed.

Lemma pystr_eqb_sym (a b : pystr) : pystr_eqb a b = pystr_eqb b a.
Proof.
  destruct (pystr_eqb b a) eqn:E.
  - apply pystr_eqb_eq in E. subst. apply pystr_eqb_refl.
  - apply pystr_eqb_neq in E. apply pystr_eqb_neq. congruence.
Qed.

(** [find] returns the first element that passes the test. *)
Lemma find_first {A} (f : A -> bool) (l : list A) (x : A) :
  find f l = Some x <->
  exists l1 l2, l = l1 ++ x :: l2 /\ f x = true
                /\ forall y, In y l1 -> f y = false.
Proof.
  split.
  - induction l as [|a l IH]; simpl; [discriminate|].
    destruct (f a) eqn:Fa; intros H.
    + injection H as ->. exists [], l. simpl. intuition.
    + destruct (IH H) as (l1 & l2 & -> & Fx & Hl1).
      exists (a :: l1), l2. simpl. intuition. now subst.
  - intros (l1 & l2 & -> & Fx & Hl1).
    induction l1 as [|a l1 IH]; simpl.
    + now rewrite Fx.
    + rewrite (Hl1 a (or_introl eq_refl)). apply IH.
      intros y Hy. apply Hl1. now right.
Qed.

Lemma find_nothing {A} (f : A -> bool) (l : list A) :
  find f l = None <-> forall y, In y l -> f y = false.
Proof.
  split.
  - intros H y Hy. exact (find_none f l H y Hy).
  - induction l as [|a l IH]; simpl; intros H; [reflexivity|].
    rewrite (H a (or_introl eq_refl)). apply IH. intros y Hy. apply H. now right.
Qed.

(** ** The cost-center resolver *)

Lemma dict_set_keyed (c : pystr) (d : list (pystr * pystr)) :
  keyed d -> keyed (dict_set c (norm_key c) d).
Proof.
  unfold keyed. induction d as [|[k v] d IH]; simpl; intros H.
  - repeat constructor.
  - inversion H as [|? ? Hk Hd]; subst. simpl in Hk.
    destruct (pystr_eqb k c) eqn:E.
    + apply pystr_eqb_eq in E. subst. constructor; [reflexivity|assumption].
    + constructor; [assumption|]. now apply IH.
Qed.

Lemma first_orig_dict_set (k c : pystr) (d : list (pystr * pystr)) :
  keyed d ->
  first_orig_with_norm k (dict_set c (norm_key c) d) =
  match first_orig_with_norm k d with
  | Some h => Some h
  | None => if pystr_eqb (norm_key c) k then Some c else None
  end.
Proof.
  unfold first_orig_with_norm, keyed.
  induction d as [|[k' v'] d IH]; simpl; intros H.
  - now destruct (pystr_eqb (norm_key c) k).
  - inversion H as [|? ? Hk Hd]; subst. simpl in Hk. subst v'.
    destruct (pystr_eqb k' c) eqn:E; simpl.
    + apply pystr_eqb_eq in E. subst k'.
      destruct (pystr_eqb (norm_key c) k) eqn:E'; simpl; [reflexivity|].
      destruct (find _ d); simpl; reflexivity.
    + destruct (pystr_eqb (norm_key k') k); simpl; [reflexivity|].
      now apply IH.
Qed.

Lemma first_orig_fold (k : pystr) (cols : list pystr) :
  forall d, keyed d ->
  first_orig_with_norm k
    (fold_left (fun d col => dict_set col (norm_key col) d) cols d) =
  match first_orig_with_norm k d with
  | Some h => Some h
  | None => first_with_key k cols
  end.
Proof.
  induction cols as [|c cols IH]; simpl; intros d Hd.
  - now destruct (first_orig_with_norm k d).
  - rewrite IH by now apply dict_set_keyed.
    rewrite first_orig_dict_set by assumption.
    destruct (first_orig_with_norm k d); [reflexivity|].
    unfold first_with_key. now destruct (pystr_eqb (norm_key c) k).
Qed.

(** Going through the dictionary finds the same header as going through
    the headers themselves. *)
Lemma first_orig_norm_map (k : pystr) (cols : list pystr) :
  first_orig_with_norm k (norm_map cols) = first_with_key k cols.
Proof.
  unfold norm_map. rewrite first_orig_fold; [reflexivity|constructor].
Qed.

Lemma first_with_key_first (k : pystr) (cols : list pystr) (h : pystr) :
  first_with_key k cols = Some h <->
  exists l1 l2, cols = l1 ++ h :: l2 /\ norm_key h = k
                /\ forall c, In c l1 -> norm_key c <> k.
Proof.
  unfold first_with_key. rewrite find_first. split.
  - intros (l1 & l2 & -> & Hx & Hl1). exists l1, l2.
    split; [reflexivity|]. split; [now apply pystr_eqb_eq|].
    intros c Hc. apply pystr_eqb_neq. now apply Hl1.
  - intros (l1 & l2 & -> & Hx & Hl1). exists l1, l2.
    split; [reflexivity|]. split; [now apply pystr_eqb_eq|].
    intros c Hc. apply pystr_eqb_neq. now apply Hl1.
Qed.

Lemma first_with_key_none (k : pystr) (cols : list pystr) :
  first_with_key k cols = None <-> forall c, In c cols -> norm_key c <> k.
Proof.
  unfold first_with_key. rewrite find_nothing. split.
  - intros H c Hc. apply pystr_eqb_neq. now apply H.
  - intros H c Hc. apply pystr_eqb_neq. now apply H.
Qed.

Lemma match_in_some (cols targets : list pystr) (h : pystr) :
  match_in (norm_map cols) targets = Some h <->
  exists pre t post,
    targets = pre ++ t :: post
    /\ (forall t', In t' pre -> first_with_key (norm_key t') cols = None)
    /\ first_with_key (norm_key t) cols = Some h.
Proof.
  induction targets as [|t0 targets IH]; simpl.
  - split; [discriminate|]. intros (pre & t & post & E & _).
    destruct pre; discriminate.
  - rewrite first_orig_norm_map.
    destruct (first_with_key (norm_key t0) cols) as [h0|] eqn:E0.
    + split.
      * intros [= <-]. exists [], t0, targets. simpl. intuition.
      * intros (pre & t & post & E & Hpre & Ht).
        destruct pre as [|p pre]; simpl in E; injection E as E1 E2; subst.
        -- congruence.
        -- rewrite (Hpre p (or_introl eq_refl)) in E0. discriminate.
    + rewrite IH. split.
      * intros (pre & t & post & -> & Hpre & Ht).
        exists (t0 :: pre), t, post. simpl. split; [reflexivity|].
        split; [|assumption]. intros t' [<-|Ht']; auto.
      * intros (pre & t & post & E & Hpre & Ht).
        destruct pre as [|p pre]; simpl in E; injection E as E1 E2; subst.
        -- congruence.
        -- exists pre, t, post. split; [reflexivity|].
           split; [|assumption]. intros t' Ht'. apply Hpre. now right.
Qed.

Lemma match_in_none (cols targets : list pystr) :
  match_in (norm_map cols) targets = None <->
  forall t, In t targets -> first_with_key (norm_key t) cols = None.
Proof.
  induction targets as [|t0 targets IH]; simpl.
  - split; [intros _ t []|reflexivity].
  - rewrite first_orig_norm_map.
    destruct (first_with_key (norm_key t0) cols) as [h0|] eqn:E0.
    + split; [discriminate|]. intros H.
      rewrite (H t0 (or_introl eq_refl)) in E0. discriminate.
    + rewrite IH. split.
      * intros H t [<-|Ht]; auto.
      * intros H t Ht. apply H. now right.
Qed.

(** A header that matches one of the spellings has a letter in it, so the
    truth test on the resolver's answer only ever rejects [None]. *)
Lemma first_with_key_nonempty (t h : pystr) (cols : list pystr) :
  norm_key t <> [] -> first_with_key (norm_key t) cols = Some h -> h <> [].
Proof.
  intros Ht H. apply first_with_key_first in H.
  destruct H as (_ & _ & _ & Hh & _). intros ->. now apply Ht.
Qed.

Lemma acceptable_keys_nonempty (t : pystr) :
  In t acceptable -> norm_key t <> [].
Proof.
  unfold acceptable. simpl.
  intros [<-|[<-|[<-|[<-|[<-|[]]]]]]; vm_compute; discriminate.
Qed.

(** ** The column matcher *)

Lemma norm_key_cons (c : N) (s : pystr) :
  norm_key (c :: s) = filter is_az (lower_cp c) ++ norm_key s.
Proof.
  unfold norm_key, re_sub_non_az, lower. simpl. apply filter_app.
Qed.

Lemma norm_key_letter (c : N) :
  is_ascii_letter c = true -> filter is_az (lower_cp c) = [ascii_lower c].
Proof.
  unfold is_ascii_letter, is_az, lower_cp, ascii_lower. intros H.
  destruct ((65 <=? c)%N && (c <=? 90)%N) eqn:Up.
  - apply andb_true_iff in Up. destruct Up as [U1 U2].
    apply N.leb_le in U1, U2. simpl.
    replace (97 <=? c + 32)%N with true by (symmetry; apply N.leb_le; lia).
    replace (c + 32 <=? 122)%N with true by (symmetry; apply N.leb_le; lia).
    reflexivity.
  - simpl in H. apply andb_true_iff in H. destruct H as [L1 L2].
    pose proof L1 as L1'. pose proof L2 as L2'.
    apply N.leb_le in L1', L2'.
    replace (c =? 304)%N with false by (symmetry; apply N.eqb_neq; lia).
    replace (c =? 8490)%N with false by (symmetry; apply N.eqb_neq; lia).
    simpl. now rewrite L1, L2.
Qed.

Lemma norm_key_other (c : N) :
  is_ascii_letter c = false -> plain_cp c = true ->
  filter is_az (lower_cp c) = [].
Proof.
  unfold is_ascii_letter, plain_cp, lower_cp. intros H P.
  apply orb_false_iff in H. destruct H as [Up Lo]. rewrite Up.
  apply negb_true_iff, orb_false_iff in P. destruct P as [P1 P2].
  rewrite P1, P2. simpl. now rewrite Lo.
Qed.

(** Away from U+0130 and U+212A the key is what the specification
    describes: the ASCII letters of the text, lowercased. *)
Lemma norm_key_plain (s : pystr) :
  forallb plain_cp s = true -> norm_key s = letters_lowercased s.
Proof.
  induction s as [|c s IH]; [reflexivity|]. simpl. intros H.
  apply andb_true_iff in H. destruct H as [Pc Ps].
  rewrite norm_key_cons, (IH Ps). unfold letters_lowercased. simpl.
  destruct (is_ascii_letter c) eqn:L.
  - now rewrite norm_key_letter.
  - now rewrite norm_key_other.
Qed.

Lemma same_spelling_key (a b : pystr) :
  same_spelling a b -> norm_key a = norm_key b.
Proof.
  induction 1 as [|c d a b Lc Ld E _ IH|c a b S _ IH|c a b S _ IH].
  - reflexivity.
  - rewrite !norm_key_cons, !norm_key_letter by assumption. now rewrite E, IH.
  - unfold separator in S. apply andb_true_iff in S. destruct S as [S1 S2].
    apply negb_true_iff in S1. now rewrite norm_key_cons, norm_key_other.
  - unfold separator in S. apply andb_true_iff in S. destruct S as [S1 S2].
    apply negb_true_iff in S1. now rewrite norm_key_cons, norm_key_other.
Qed.

(** The header the inner loop stops at leads [df[col]] to the very
    column found: an earlier column under the same label would have the
    same key. *)
Lemma getitem_first_with_key (k : pystr) (df : DataFrame) :
  match first_with_key k (columns df) with
  | Some col => exists s, lookup_key k df = Some s /\ getitem col df = Ok s
  | None => lookup_key k df = None
  end.
Proof.
  unfold first_with_key, columns.
  induction df as [|[c s] df IH]; simpl; [reflexivity|].
  destruct (pystr_eqb (norm_key c) k) eqn:E.
  - exists s. now rewrite pystr_eqb_refl.
  - destruct (find _ (map fst df)) as [col|] eqn:F; [|assumption].
    destruct IH as (s' & L & G). exists s'. split; [assumption|].
    destruct (pystr_eqb c col) eqn:E'; [|assumption].
    apply pystr_eqb_eq in E'. subst col.
    apply find_some in F. destruct F as [_ F]. congruence.
Qed.

Lemma sum_norm_lookup (df : DataFrame) (t : pystr) (rest : list pystr) :
  sum_norm df (t :: rest) =
  match lookup_key (norm_key t) df with
  | Some s => series_sum s
  | None => sum_norm df rest
  end.
Proof.
  simpl. pose proof (getitem_first_with_key (norm_key t) df) as H.
  destruct (first_with_key (norm_key t) (columns df)) as [col|].
  - destruct H as (s & -> & ->). reflexivity.
  - now rewrite H.
Qed.

Lemma lookup_key_first (k : pystr) (d1 d2 : DataFrame) (h : pystr) (s : Series) :
  norm_key h = k ->
  (forall c, In c (columns d1) -> norm_key c <> k) ->
  lookup_key k (d1 ++ (h, s) :: d2) = Some s.
Proof.
  intros Hh. induction d1 as [|[c x] d1 IH]; simpl; intros H.
  - subst k. now rewrite pystr_eqb_refl.
  - replace (pystr_eqb (norm_key c) k) with false.
    + apply IH. intros c' Hc'. apply H. now right.
    + symmetry. apply pystr_eqb_neq. apply H. now left.
Qed.

Lemma lookup_key_none (k : pystr) (df : DataFrame) :
  (forall c, In c (columns df) -> norm_key c <> k) -> lookup_key k df = None.
Proof.
  induction df as [|[c x] df IH]; simpl; intros H; [reflexivity|].
  replace (pystr_eqb (norm_key c) k) with false.
  - apply IH. intros c' Hc'. apply H. now right.
  - symmetry. apply pystr_eqb_neq. apply H. now left.
Qed.

Lemma lookup_key_renamed (k : pystr) (df1 df2 : DataFrame) :
  Forall2 (fun x y => norm_key (fst x) = norm_key (fst y) /\ snd x = snd y)
          df1 df2 ->
  lookup_key k df1 = lookup_key k df2.
Proof.
  induction 1 as [|[c1 s1] [c2 s2] d1 d2 [Hk Hs] _ IH]; [reflexivity|].
  simpl in *. subst s2. rewrite Hk, IH. reflexivity.
Qed.

Lemma sum_norm_renamed (df1 df2 : DataFrame) (ts1 ts2 : list pystr) :
  Forall2 (fun x y => norm_key (fst x) = norm_key (fst y) /\ snd x = snd y)
          df1 df2 ->
  Forall2 (fun a b => norm_key a = norm_key b) ts1 ts2 ->
  sum_norm df1 ts1 = sum_norm df2 ts2.
Proof.
  intros Hdf. induction 1 as [|t1 t2 r1 r2 Ht _ IH]; [reflexivity|].
  rewrite !sum_norm_lookup, Ht, (@lookup_key_renamed (norm_key t2) _ _ Hdf), IH.
  reflexivity.
Qed.

Lemma sum_norm_no_match (df : DataFrame) (targets : list pystr) :
  (forall t c, In t targets -> In c (columns df) -> norm_key c <> norm_key t) ->
  sum_norm df targets = Ok 0%Qc.
Proof.
  induction targets as [|t rest IH]; intros H; [reflexivity|].
  rewrite sum_norm_lookup, lookup_key_none.
  - apply IH. intros t' c Ht' Hc. apply H; [now right|assumption].
  - intros c Hc. apply H; [now left|assumption].
Qed.

(** C2, as the code has it.  The key of a text is its lowercase form
    with everything outside a-z removed, which away from U+0130 and
    U+212A is the text with everything but ASCII letters removed and the
    rest lowercased.  [sum_norm] takes the targets in the order given
    and, at the first target that any column matches, returns the sum of
    the first column matching that target; it returns zero when no column
    matches any target.  Headers, and targets, that differ only by case
    and by separators (punctuation, digits, blanks, apostrophes of any
    style) give the same result. *)
Theorem sum_norm_first_match :
  (forall s, forallb plain_cp s = true -> norm_key s = letters_lowercased s)
  /\ (forall df pre t post d1 h s d2,
         (forall t' c, In t' pre -> In c (columns df) ->
                       norm_key c <> norm_key t') ->
         df = d1 ++ (h, s) :: d2 ->
         norm_key h = norm_key t ->
         (forall c, In c (columns d1) -> norm_key c <> norm_key t) ->
         sum_norm df (pre ++ t :: post) = series_sum s)
  /\ (forall df targets,
         (forall t c, In t targets -> In c (columns df) ->
                      norm_key c <> norm_key t) ->
         sum_norm df targets = Ok 0%Qc)
  /\ (forall a b, same_spelling a b -> norm_key a = norm_key b)
  /\ (forall df1 df2 ts1 ts2,
         Forall2 (fun x y => same_spelling (fst x) (fst y) /\ snd x = snd y)
                 df1 df2 ->
         Forall2 same_spelling ts1 ts2 ->
         sum_norm df1 ts1 = sum_norm df2 ts2).
Proof.
  split; [exact norm_key_plain|].
  split.
  { intros df pre t post d1 h s d2 Hpre -> Hh Hd1.
    induction pre as [|p pre IH].
    - simpl app. rewrite sum_norm_lookup,
        (@lookup_key_first (norm_key t) d1 d2 h s Hh Hd1).
      reflexivity.
    - simpl app. rewrite sum_norm_lookup, lookup_key_none.
      + apply IH. intros t' c Ht' Hc. apply Hpre; [now right|assumption].
      + intros c Hc. apply Hpre; [now left|assumption]. }
  split; [exact sum_norm_no_match|].
  split; [exact same_spelling_key|].
  intros df1 df2 ts1 ts2 Hdf Hts. apply sum_norm_renamed.
  - eapply Forall2_impl; [|exact Hdf]. intros x y [Hs He].
    split; [now apply same_spelling_key|assumption].
  - eapply Forall2_impl; [|exact Hts]. intros a b. apply same_spelling_key.
Qed.

(** C2 as stated fails twice.  With the columns "SOC ER" and "Socso ER"
    in this order, the first column whose key is the key of some Socso
    target is "SOC ER", with sum 1, but [sum_norm] returns 2, the sum of
    "Socso ER", because the target "Socso ER" is listed first.  And the
    Kelvin sign U+212A, which is not an ASCII letter, is not removed: its
    key is "k". *)
Lemma sum_norm_not_first_column_of_sheet :
  first_column_of_any_target two_socso_columns socso_er_names
  = Some (cps "SOC ER")
  /\ (s <- getitem (cps "SOC ER") two_socso_columns ;; series_sum s)
     = Ok (Q2Qc 1)
  /\ sum_norm two_socso_columns socso_er_names = Ok (Q2Qc 2)
  /\ Q2Qc 1 <> Q2Qc 2
  /\ norm_key [8490%N] = cps "k"
  /\ letters_lowercased [8490%N] = [].
Proof.
  repeat split; try reflexivity.
  intros H. apply (f_equal this) in H. discriminate.
Qed.

(** ** The resolver and the normalisation *)

Lemma find_ext_in {A : Type} (f g : A -> bool) (l : list A) :
  (forall x, In x l -> f x = g x) -> find f l = find g l.
Proof.
  induction l as [|x l IH]; intros H; simpl; [reflexivity|].
  rewrite (H x (or_introl eq_refl)).
  destruct (g x); [reflexivity|]. apply IH. intros y Hy. apply H. now right.
Qed.

Lemma match_in_by_letters (cols targets : list pystr) :
  forallb (forallb plain_cp) cols = true ->
  forallb (forallb plain_cp) targets = true ->
  match_in (norm_map cols) targets = first_header_by_letters cols targets.
Proof.
  intros Hc. rewrite forallb_forall in Hc.
  induction targets as [|t targets IH]; intros Ht; [reflexivity|].
  simpl in Ht. apply andb_true_iff in Ht. destruct Ht as [Pt Ht].
  simpl. rewrite first_orig_norm_map. unfold first_with_key.
  rewrite (find_ext_in
             (fun col => pystr_eqb (norm_key col) (norm_key t))
             (fun c => pystr_eqb (letters_lowercased c)
                                 (letters_lowercased t)) cols).
  - destruct (find _ cols); [reflexivity|now apply IH].
  - intros c Hin. now rewrite (norm_key_plain c (Hc c Hin)), (norm_key_plain t Pt).
Qed.

(** C7, as the code has it.  The resolver compares keys, the lowercase
    form of a text with everything outside a-z removed; for text free of
    U+0130 and U+212A that is the letter-only lowercase normalisation,
    and on such headers the resolver is the resolver of the
    specification.  It goes through the five spellings in the order of
    the list and, for the first spelling that any header matches by its
    key, returns the first such header; it answers [None] exactly when
    no header matches any spelling by its key, and then the session
    stops with the error message, whereas with a header found it goes on
    with that header. *)
Theorem match_cost_center_column_priority :
  (forall s, forallb plain_cp s = true -> norm_key s = letters_lowercased s)
  /\ (forall cols,
         forallb (forallb plain_cp) cols = true ->
         match_cost_center_column cols
         = first_header_by_letters cols acceptable)
  /\ (forall cols h,
         match_cost_center_column cols = Some h <->
         exists pre t post l1 l2,
           acceptable = pre ++ t :: post
           /\ (forall t' c, In t' pre -> In c cols ->
                            norm_key c <> norm_key t')
           /\ cols = l1 ++ h :: l2
           /\ norm_key h = norm_key t
           /\ (forall c, In c l1 -> norm_key c <> norm_key t))
  /\ (forall cols,
         match_cost_center_column cols = None <->
         forall t c, In t acceptable -> In c cols -> norm_key c <> norm_key t)
  /\ (forall cols h,
         match_cost_center_column cols = Some h ->
         find_cost_center cols = Continue h)
  /\ (forall cols,
         match_cost_center_column cols = None ->
         find_cost_center cols = Stopped "❌ Cost Center column not found.").
Proof.
  split; [exact norm_key_plain|].
  split; [intros cols Hc; now apply match_in_by_letters|].
  unfold match_cost_center_column. repeat split.
  - intros H. apply match_in_some in H.
    destruct H as (pre & t & post & E & Hpre & Ht).
    apply first_with_key_first in Ht. destruct Ht as (l1 & l2 & Ec & Hh & Hl1).
    exists pre, t, post, l1, l2. repeat split; auto.
    intros t' c Ht' Hc. specialize (Hpre t' Ht').
    rewrite first_with_key_none in Hpre. now apply Hpre.
  - intros (pre & t & post & l1 & l2 & E & Hpre & Ec & Hh & Hl1).
    apply match_in_some. exists pre, t, post. repeat split; auto.
    + intros t' Ht'. apply first_with_key_none. intros c Hc. now apply Hpre.
    + apply first_with_key_first. now exists l1, l2.
  - intros H t c Ht Hc. rewrite match_in_none in H.
    specialize (H t Ht). rewrite first_with_key_none in H. now apply H.
  - intros H. apply match_in_none. intros t Ht.
    apply first_with_key_none. intros c Hc. now apply H.
  - intros cols h H. unfold find_cost_center, match_cost_center_column.
    rewrite H. apply match_in_some in H.
    destruct H as (pre & t & post & E & _ & Ht).
    assert (Hne : h <> []).
    { apply (first_with_key_nonempty t h cols); [|assumption].
      apply acceptable_keys_nonempty. rewrite E. apply in_elt. }
    destruct h; [congruence|reflexivity].
  - intros cols H. unfold find_cost_center, match_cost_center_column.
    now rewrite H.
Qed.

(** C7 as stated fails on a sheet whose cost-center header is "Center"
    followed by the Kelvin sign U+212A.  The sign is no ASCII letter, so
    under the letter-only lowercase normalisation the header is the
    spelling "Center" and the resolver of the specification returns it;
    but [str.lower] turns the sign into "k", the key is "centerk", no
    spelling matches and the session stops. *)
Lemma kelvin_header_not_resolved :
  letters_lowercased center_kelvin = letters_lowercased (cps "Center")
  /\ In (cps "Center") acceptable
  /\ first_header_by_letters [center_kelvin] acceptable = Some center_kelvin
  /\ norm_key center_kelvin = cps "centerk"
  /\ match_cost_center_column [center_kelvin] = None
  /\ find_cost_center [center_kelvin]
     = Stopped "❌ Cost Center column not found.".
Proof.
  repeat split; try reflexivity. unfold acceptable. simpl. tauto.
Qed.

(** ** Frames *)

Lemma getitem_setitem_same (label : pystr) (s : Series) (df : DataFrame) :
  getitem label (setitem label s df) = Ok s.
Proof.
  unfold setitem. induction df as [|[c x] df IH]; simpl.
  - now rewrite pystr_eqb_refl.
  - destruct (pystr_eqb c label) eqn:E; simpl; now rewrite E.
Qed.

Lemma getitem_setitem_other (label other : pystr) (s : Series) (df : DataFrame) :
  label <> other ->
  getitem label (setitem other s df) = getitem label df.
Proof.
  unfold setitem. intros N. induction df as [|[c x] df IH]; simpl.
  - replace (pystr_eqb other label) with false; [reflexivity|].
    symmetry. apply pystr_eqb_neq. congruence.
  - destruct (pystr_eqb c other) eqn:E; simpl.
    + apply pystr_eqb_eq in E. subst c.
      replace (pystr_eqb other label) with false; [reflexivity|].
      symmetry. apply pystr_eqb_neq. congruence.
    + now rewrite IH.
Qed.

(** Writing back what a column already holds changes nothing. *)
Lemma setitem_getitem (label : pystr) (s : Series) (df : DataFrame) :
  getitem label df = Ok s -> setitem label s df = df.
Proof.
  unfold setitem. induction df as [|[c x] df IH]; simpl; [discriminate|].
  destruct (pystr_eqb c label) eqn:E.
  - now intros [= ->].
  - intros H. now rewrite IH.
Qed.

Lemma getitem_absent (label : pystr) (df : DataFrame) :
  has_column label df = false <-> getitem label df = Raise (KeyError label).
Proof.
  unfold has_column, columns. induction df as [|[c x] df IH]; simpl.
  - intuition.
  - rewrite (pystr_eqb_sym label c).
    destruct (pystr_eqb c label); simpl; [|exact IH].
    split; discriminate.
Qed.

Lemma getitem_present (label : pystr) (df : DataFrame) :
  has_column label df = true <-> exists s, getitem label df = Ok s.
Proof.
  unfold has_column, columns. induction df as [|[c x] df IH]; simpl.
  - split; [discriminate|]. intros [s H]. discriminate.
  - rewrite (pystr_eqb_sym label c).
    destruct (pystr_eqb c label); simpl; [|exact IH].
    split; [now exists x|reflexivity].
Qed.

Lemma getitem_In (label : pystr) (df : DataFrame) (s : Series) :
  getitem label df = Ok s -> In (label, s) df.
Proof.
  induction df as [|[c x] df IH]; simpl; [discriminate|].
  destruct (pystr_eqb c label) eqn:E.
  - apply pystr_eqb_eq in E. subst c. intros [= ->]. now left.
  - intros H. right. now apply IH.
Qed.

Lemma setitem_In (label : pystr) (s : Series) (df : DataFrame) (c : pystr)
    (x : Series) :
  In (c, x) (setitem label s df) -> In (c, x) df \/ (c = label /\ x = s).
Proof.
  unfold setitem. induction df as [|[c' x'] df IH]; simpl.
  - intros [[= <- <-]|[]]. now right.
  - destruct (pystr_eqb c' label) eqn:E; simpl.
    + apply pystr_eqb_eq in E. subst c'.
      intros [[= <- <-]|H]; [now right|now left; right].
    + intros [H|H]; [now left; left|].
      destruct (IH H) as [H'|H']; [now left; right|now right].
Qed.

Lemma regular_In (df : DataFrame) (c : pystr) (s : Series) :
  regular df = true -> In (c, s) df -> List.length s = nrows df.
Proof.
  unfold regular. rewrite forallb_forall. intros H Hin.
  apply Nat.eqb_eq. exact (H (c, s) Hin).
Qed.

(** Labels none of which [Index.duplicated] marks are pairwise
    different. *)
Lemma duplicated_from_NoDup (cols : list pystr) :
  forall seen,
    forallb negb (duplicated_from seen cols) = true ->
    NoDup cols /\ forall c, In c cols -> ~ In c seen.
Proof.
  induction cols as [|c cols IH]; intros seen H.
  - split; [constructor|intros c []].
  - simpl in H. apply andb_true_iff in H. destruct H as [Hc H].
    apply negb_true_iff in Hc.
    destruct (IH (c :: seen) H) as [Hnd Hout]. split.
    + constructor; [|exact Hnd]. intros Hin.
      apply (Hout c Hin). now left.
    + intros x [<-|Hx] Hseen.
      * assert (E : existsb (pystr_eqb c) seen = true)
          by (apply existsb_exists; exists c; split;
              [exact Hseen|apply pystr_eqb_refl]).
        congruence.
      * apply (Hout x Hx). now right.
Qed.

Lemma duplicated_NoDup (cols : list pystr) :
  forallb negb (duplicated cols) = true -> NoDup cols.
Proof.
  intros H. exact (proj1 (duplicated_from_NoDup cols [] H)).
Qed.

(** ** The row filter *)

Lemma kept_from_select (mask : list bool) :
  forall (s : Series) (i0 j i : nat),
    List.length s = List.length mask ->
    nth_error (kept_from i0 mask) j = Some i ->
    (i0 <= i)%nat /\ nth_error (select mask s) j = nth_error s (i - i0).
Proof.
  induction mask as [|m mask IH]; intros s i0 j i Hlen Hj.
  - destruct j; discriminate.
  - destruct s as [|c s]; [discriminate|]. simpl in Hlen.
    injection Hlen as Hlen. simpl in Hj. destruct m.
    + destruct j as [|j]; simpl in Hj.
      * injection Hj as <-. rewrite Nat.sub_diag. split; [lia|reflexivity].
      * destruct (IH s (S i0) j i Hlen Hj) as [Hle Hn]. split; [lia|].
        simpl. rewrite Hn. replace (i - i0)%nat with (S (i - S i0)) by lia.
        reflexivity.
    + destruct (IH s (S i0) j i Hlen Hj) as [Hle Hn]. split; [lia|].
      simpl. rewrite Hn. replace (i - i0)%nat with (S (i - S i0)) by lia.
      reflexivity.
Qed.

Lemma kept_from_In (mask : list bool) :
  forall i0 i, In i (kept_from i0 mask) <->
               (i0 <= i)%nat /\ nth_error mask (i - i0) = Some true.
Proof.
  induction mask as [|m mask IH]; intros i0 i; simpl.
  - split; [intros []|]. intros [_ H]. destruct (i - i0)%nat; discriminate.
  - assert (Step : ((S i0 <= i)%nat /\ nth_error mask (i - S i0) = Some true)
                   <-> ((i0 < i)%nat /\ nth_error (m :: mask) (i - i0) = Some true)).
    { split; intros [H1 H2]; (split; [lia|]).
      - replace (i - i0)%nat with (S (i - S i0)) by lia. exact H2.
      - replace (i - i0)%nat with (S (i - S i0)) in H2 by lia. exact H2. }
    destruct m; simpl.
    + rewrite IH, Step. split.
      * intros [<-|[H1 H2]]; [|split; [lia|exact H2]].
        rewrite Nat.sub_diag. split; [lia|reflexivity].
      * intros [H1 H2]. destruct (Nat.eq_dec i0 i) as [E|E]; [now left|].
        right. split; [lia|exact H2].
    + rewrite IH, Step. split.
      * intros [H1 H2]. split; [lia|exact H2].
      * intros [H1 H2]. destruct (Nat.eq_dec i0 i) as [E|E].
        -- subst. rewrite Nat.sub_diag in H2. discriminate.
        -- split; [lia|exact H2].
Qed.

Lemma Joined_not_Resign : Resign <> Joined.
Proof. discriminate. Qed.




(** A date can be retained as well.  In [two_date_forms] the column is
    read by the form of its first value, month first; the second value
    is a date written year first, comes out missing, and its row
    stays. *)
Lemma date_in_another_form_is_retained :
  iso_date (cps "2024-01-01") = Some 20240101%Z
  /\ (df <- drop_resigned inferred_date epoch_count two_date_forms ;;
      getitem (cps "Name") df)
     = Ok [CStr (cps "Eng")].
Proof.
  split; reflexivity.
Qed.

(** ** Columns as row values *)

Lemma map_r_map {A B C} (f : B -> result C) (g : A -> B) (h : A -> C)
    (l : list A) :
  (forall x, In x l -> f (g x) = Ok (h x)) ->
  map_r f (map g l) = Ok (map h l).
Proof.
  induction l as [|a l IH]; simpl; intros H; [reflexivity|].
  rewrite (H a (or_introl eq_refl)). simpl. rewrite IH; [reflexivity|].
  intros x Hx. apply H. now right.
Qed.

Lemma zip_r_map {A B C D} (f : B -> C -> result D) (g1 : A -> B)
    (g2 : A -> C) (h : A -> D) (l : list A) :
  (forall x, In x l -> f (g1 x) (g2 x) = Ok (h x)) ->
  zip_r f (map g1 l) (map g2 l) = Ok (map h l).
Proof.
  induction l as [|a l IH]; simpl; intros H; [reflexivity|].
  rewrite (H a (or_introl eq_refl)). simpl. rewrite IH; [reflexivity|].
  intros x Hx. apply H. now right.
Qed.

Lemma col_of_ext (n : nat) (v w : nat -> Qc) :
  (forall i, (i < n)%nat -> v i = w i) -> col_of n v = col_of n w.
Proof.
  intros H. unfold col_of. apply map_ext_in. intros i Hi.
  apply in_seq in Hi. rewrite H; [reflexivity|lia].
Qed.

Lemma col_of_length (n : nat) (v : nat -> Qc) : List.length (col_of n v) = n.
Proof. unfold col_of. now rewrite length_map, length_seq. Qed.

Lemma col_of_nth (n : nat) (v : nat -> Qc) (i : nat) :
  (i < n)%nat -> nth_error (col_of n v) i = Some (CNum (v i)).
Proof.
  intros H. unfold col_of. rewrite nth_error_map.
  rewrite (nth_error_nth' (seq 0 n) 0%nat) by (now rewrite length_seq).
  now rewrite seq_nth.
Qed.

Lemma col_of_is_num (n : nat) (v : nat -> Qc) :
  forallb is_num (col_of n v) = true.
Proof.
  unfold col_of. apply forallb_forall. intros c Hc.
  apply in_map_iff in Hc. destruct Hc as (i & <- & _). reflexivity.
Qed.

Lemma col_of_const (n : nat) (v : nat -> Qc) (q : Qc) :
  (forall i, (i < n)%nat -> v i = q) -> col_of n v = repeat (CNum q) n.
Proof.
  intros H. rewrite (col_of_ext n v (fun _ => q) H).
  unfold col_of. rewrite map_const. now rewrite length_seq.
Qed.

(** A column of numbers is the column of its row values. *)
Lemma numeric_column (s : Series) :
  forallb is_num s = true ->
  s = col_of (List.length s)
        (fun i => match nth_error s i with
                  | Some c => cell_value c
                  | None => 0%Qc
                  end).
Proof.
  unfold col_of. induction s as [|c s IH]; simpl; intros H; [reflexivity|].
  apply andb_true_iff in H. destruct H as [Hc Hs].
  destruct c; try discriminate. f_equal.
  rewrite <- seq_shift, map_map. exact (IH Hs).
Qed.

Lemma represents_ext (n : nat) (o : Operand) (v w : nat -> Qc) :
  (forall i, (i < n)%nat -> v i = w i) -> represents n o v -> represents n o w.
Proof.
  intros H. destruct o as [q|s]; simpl.
  - intros Hv i Hi. rewrite <- H by assumption. now apply Hv.
  - intros ->. now apply col_of_ext.
Qed.

Lemma get_represents (df : DataFrame) (label : pystr) :
  regular df = true -> numeric_or_absent label df ->
  represents (nrows df) (get label df 0%Qc) (num_at df label).
Proof.
  intros Hreg Hnum. unfold get, num_at, cell_at.
  destruct (getitem label df) as [s|e] eqn:G; simpl; [|reflexivity].
  rewrite <- (regular_In _ _ _ Hreg (getitem_In _ _ _ G)).
  apply numeric_column. now apply Hnum.
Qed.

Lemma op_arith_represents (f : Qc -> Qc -> Qc) (n : nat) (a b : Operand)
    (v w : nat -> Qc) :
  represents n a v -> represents n b w ->
  exists c, op_arith f a b = Ok c /\ represents n c (fun i => f (v i) (w i)).
Proof.
  destruct a as [x|s], b as [y|t]; simpl; intros Ha Hb.
  - eexists. split; [reflexivity|]. simpl. intros i Hi.
    now rewrite Ha, Hb.
  - subst t. unfold col_of.
    rewrite (map_r_map _ _ (fun i => CNum (f x (w i)))) by reflexivity.
    eexists. split; [reflexivity|]. simpl. apply col_of_ext.
    intros i Hi. now rewrite Ha.
  - subst s. unfold col_of.
    rewrite (map_r_map _ _ (fun i => CNum (f (v i) y))) by reflexivity.
    eexists. split; [reflexivity|]. simpl. apply col_of_ext.
    intros i Hi. now rewrite Hb.
  - subst s t. unfold col_of.
    rewrite (zip_r_map _ _ _ (fun i => CNum (f (v i) (w i)))) by reflexivity.
    eexists. split; reflexivity.
Qed.

Lemma assign_represents (label : pystr) (o : Operand) (df : DataFrame)
    (v : nat -> Qc) :
  represents (nrows df) o v ->
  assign label o df = setitem label (col_of (nrows df) v) df.
Proof.
  destruct o as [q|s]; simpl.
  - intros H. now rewrite (col_of_const _ _ _ H).
  - now intros ->.
Qed.

Lemma setitem_regular (label : pystr) (s : Series) (df : DataFrame) :
  regular df = true -> List.length s = nrows df ->
  regular (setitem label s df) = true
  /\ nrows (setitem label s df) = nrows df.
Proof.
  unfold setitem. intros Hreg Hlen.
  assert (Hn : nrows (dict_set label s df) = nrows df).
  { destruct df as [|[c x] df]; simpl; [exact Hlen|].
    destruct (pystr_eqb c label); simpl; [exact Hlen|reflexivity]. }
  split; [|exact Hn].
  unfold regular. rewrite Hn. apply forallb_forall. intros [c x] Hin.
  apply Nat.eqb_eq. simpl.
  destruct (setitem_In _ _ _ _ _ Hin) as [H|[_ ->]]; [|exact Hlen].
  exact (regular_In _ _ _ Hreg H).
Qed.

Lemma fold_left_Qcplus (l : list Qc) (a : Qc) :
  fold_left Qcplus l a = (a + Qc_sum l)%Qc.
Proof.
  revert a. induction l as [|x l IH]; intros a; simpl.
  - ring.
  - rewrite IH. ring.
Qed.

(** ** The payroll summary *)

Ltac labels_differ :=
  let H := fresh "H" in intros H; vm_compute in H; discriminate H.

Lemma cell_at_setitem_other (label other : pystr) (s : Series) (df : DataFrame)
    (i : nat) :
  label <> other -> cell_at (setitem other s df) label i = cell_at df label i.
Proof.
  intros N. unfold cell_at. now rewrite getitem_setitem_other.
Qed.

Lemma num_at_setitem_other (label other : pystr) (s : Series) (df : DataFrame)
    (i : nat) :
  label <> other -> num_at (setitem other s df) label i = num_at df label i.
Proof.
  intros N. unfold num_at. now rewrite cell_at_setitem_other.
Qed.

Lemma num_at_setitem_same (label : pystr) (n : nat) (v : nat -> Qc)
    (df : DataFrame) (i : nat) :
  (i < n)%nat -> num_at (setitem label (col_of n v) df) label i = v i.
Proof.
  intros H. unfold num_at, cell_at.
  now rewrite getitem_setitem_same, col_of_nth.
Qed.

Lemma numeric_or_absent_setitem_other (label other : pystr) (s : Series)
    (df : DataFrame) :
  label <> other -> numeric_or_absent label df ->
  numeric_or_absent label (setitem other s df).
Proof.
  intros N H x. rewrite getitem_setitem_other by assumption. apply H.
Qed.

Lemma numeric_or_absent_setitem_same (label : pystr) (n : nat)
    (v : nat -> Qc) (df : DataFrame) :
  numeric_or_absent label (setitem label (col_of n v) df).
Proof.
  intros x. rewrite getitem_setitem_same. intros [= <-]. apply col_of_is_num.
Qed.

Lemma fold_op_add_represents (df : DataFrame) (labels : list pystr) :
  regular df = true ->
  (forall label, In label labels -> numeric_or_absent label df) ->
  forall (acc : Operand) (v : nat -> Qc),
    represents (nrows df) acc v ->
    exists gp,
      fold_left (fun acc label => a <- acc ;; op_add a (get label df 0%Qc))
                labels (Ok acc) = Ok gp
      /\ represents (nrows df) gp
           (fun i => fold_left Qcplus
                       (map (fun label => num_at df label i) labels) (v i)).
Proof.
  intros Hreg. induction labels as [|label labels IH]; intros Hnum acc v Hacc.
  - exists acc. split; [reflexivity|exact Hacc].
  - simpl.
    destruct (op_arith_represents Qcplus (nrows df) acc (get label df 0%Qc)
                v (num_at df label) Hacc) as (c & Hc & Rc).
    { apply get_represents; [exact Hreg|]. apply Hnum. now left. }
    unfold op_add. rewrite Hc.
    apply (IH (fun l Hl => Hnum l (or_intror Hl)) c _ Rc).
Qed.

Lemma gross_pay_represents (df : DataFrame) :
  regular df = true ->
  (forall label, In label earning_columns -> numeric_or_absent label df) ->
  exists gp,
    gross_pay df = Ok gp
    /\ represents (nrows df) gp
         (fun i => Qc_sum (map (fun label => num_at df label i)
                               earning_columns)).
Proof.
  intros Hreg Hnum. unfold gross_pay.
  destruct (fold_op_add_represents df (tl earning_columns) Hreg
              (fun l Hl => Hnum l (or_intror Hl))
              (get M_Basic df 0%Qc) (num_at df M_Basic)) as (gp & Hgp & Rgp).
  { apply get_represents; [exact Hreg|]. apply Hnum. now left. }
  exists gp. split; [exact Hgp|].
  eapply represents_ext; [|exact Rgp].
  intros i _. cbv beta. rewrite fold_left_Qcplus. reflexivity.
Qed.

Lemma assign_default (df : DataFrame) (label : pystr) :
  regular df = true -> numeric_or_absent label df ->
  assign label (get label df 0%Qc) df
  = setitem label (col_of (nrows df) (num_at df label)) df.
Proof.
  intros Hreg Hnum. apply assign_represents. now apply get_represents.
Qed.

Lemma zip_nansum (n : nat) (a v : nat -> Qc) :
  zip_r nansum_cell (map a (seq 0 n)) (col_of n v)
  = Ok (map (fun i => (a i + v i)%Qc) (seq 0 n)).
Proof.
  unfold col_of. now apply zip_r_map.
Qed.

Lemma repeat_zero (n : nat) :
  repeat 0%Qc n = map (fun _ => 0%Qc) (seq 0 n).
Proof. now rewrite map_const, length_seq. Qed.

Lemma default_step (df d : DataFrame) (label : pystr) :
  regular d = true -> nrows d = nrows df ->
  numeric_or_absent label d ->
  (forall i, num_at d label i = num_at df label i) ->
  assign label (get label d 0%Qc) d
  = setitem label (col_of (nrows df) (num_at df label)) d
  /\ regular (setitem label (col_of (nrows df) (num_at df label)) d) = true
  /\ nrows (setitem label (col_of (nrows df) (num_at df label)) d) = nrows df.
Proof.
  intros Hreg Hn Hnum Hval.
  assert (E : assign label (get label d 0%Qc) d
              = setitem label (col_of (nrows df) (num_at df label)) d).
  { rewrite (assign_default d label Hreg Hnum), Hn.
    f_equal. apply col_of_ext. intros i _. apply Hval. }
  split; [exact E|].
  destruct (setitem_regular label (col_of (nrows df) (num_at df label)) d Hreg)
    as [R N].
  - now rewrite col_of_length.
  - split; [exact R|]. now rewrite N.
Qed.

Lemma sum_axis1_deductions (n : nat) (f s e p : nat -> Qc) :
  sum_axis1 (repeat 0%Qc n) [col_of n f; col_of n s; col_of n e; col_of n p]
  = Ok (map (fun i => (f i + (s i + (e i + (p i + 0))))%Qc) (seq 0 n)).
Proof.
  rewrite repeat_zero. cbn [sum_axis1].
  rewrite zip_nansum. cbn [bind].
  rewrite zip_nansum. cbn [bind].
  rewrite zip_nansum. cbn [bind].
  rewrite zip_nansum. cbn [bind].
  f_equal. apply map_ext. intros i. ring.
Qed.

(** On a regular frame whose pay components are numeric where present,
    the payroll summary succeeds and yields [summary_frame]. *)
Lemma payroll_summary_frame (df : DataFrame) :
  regular df = true ->
  (forall label, In label (earning_columns ++ deduction_columns) ->
                 numeric_or_absent label df) ->
  payroll_summary df = Ok (summary_frame df).
Proof.
  intros Hreg Hnum.
  assert (Hearn : forall l, In l earning_columns -> numeric_or_absent l df).
  { intros l Hl. apply Hnum, in_or_app. now left. }
  assert (Hded : forall l, In l deduction_columns -> numeric_or_absent l df).
  { intros l Hl. apply Hnum, in_or_app. now right. }
  destruct (gross_pay_represents df Hreg Hearn) as (gp & Hgp & Rgp).
  unfold payroll_summary, summary_frame. rewrite Hgp. cbn [bind].
  rewrite (assign_represents Gross_Pay gp df _ Rgp).
  set (gross := fun i => Qc_sum (map (fun label => num_at df label i)
                                     earning_columns)).
  set (G := col_of (nrows df) gross).
  destruct (setitem_regular Gross_Pay G df Hreg (col_of_length _ _))
    as [R1 N1].
  unfold default_deductions. cbn [fold_left deduction_columns].
  (* the four deduction columns, one after the other *)
  destruct (default_step df (setitem Gross_Pay G df) EPF R1 N1) as (E2 & R2 & N2).
  { apply numeric_or_absent_setitem_other; [labels_differ|].
    apply Hded. simpl. auto. }
  { intros i. apply num_at_setitem_other. labels_differ. }
  rewrite E2. clear E2.
  set (d2 := setitem EPF (col_of (nrows df) (num_at df EPF))
               (setitem Gross_Pay G df)) in *.
  destruct (default_step df d2 Socso R2 N2) as (E3 & R3 & N3).
  { unfold d2. repeat (apply numeric_or_absent_setitem_other; [labels_differ|]).
    apply Hded. simpl. auto. }
  { intros i. unfold d2.
    rewrite !num_at_setitem_other by labels_differ. reflexivity. }
  rewrite E3. clear E3.
  set (d3 := setitem Socso (col_of (nrows df) (num_at df Socso)) d2) in *.
  destruct (default_step df d3 EIS R3 N3) as (E4 & R4 & N4).
  { unfold d3, d2.
    repeat (apply numeric_or_absent_setitem_other; [labels_differ|]).
    apply Hded. simpl. auto. }
  { intros i. unfold d3, d2.
    rewrite !num_at_setitem_other by labels_differ. reflexivity. }
  rewrite E4. clear E4.
  set (d4 := setitem EIS (col_of (nrows df) (num_at df EIS)) d3) in *.
  destruct (default_step df d4 PCB R4 N4) as (E5 & R5 & N5).
  { unfold d4, d3, d2.
    repeat (apply numeric_or_absent_setitem_other; [labels_differ|]).
    apply Hded. simpl. auto. }
  { intros i. unfold d4, d3, d2.
    rewrite !num_at_setitem_other by labels_differ. reflexivity. }
  rewrite E5. clear E5.
  set (d5 := setitem PCB (col_of (nrows df) (num_at df PCB)) d4) in *.
  (* the four columns read back *)
  assert (Hcols : map_r (fun label => getitem label d5) deduction_columns
                  = Ok [col_of (nrows df) (num_at df EPF);
                        col_of (nrows df) (num_at df Socso);
                        col_of (nrows df) (num_at df EIS);
                        col_of (nrows df) (num_at df PCB)]).
  { unfold deduction_columns, d5, d4, d3, d2. cbn [map_r].
    rewrite !(getitem_setitem_other EPF) by labels_differ.
    rewrite !(getitem_setitem_other Socso) by labels_differ.
    rewrite !(getitem_setitem_other EIS) by labels_differ.
    rewrite !getitem_setitem_same. reflexivity. }
  rewrite Hcols. cbn [bind]. rewrite N5, sum_axis1_deductions. cbn [bind].
  rewrite map_map.
  change (map (fun i => CNum (num_at df EPF i
                                + (num_at df Socso i
                                   + (num_at df EIS i
                                      + (num_at df PCB i + 0))))%Qc)
              (seq 0 (nrows df)))
    with (col_of (nrows df)
            (fun i => Qc_sum (map (fun label => num_at df label i)
                                  deduction_columns))).
  set (ded := fun i => Qc_sum (map (fun label => num_at df label i)
                                   deduction_columns)).
  set (T := col_of (nrows df) ded).
  assert (Hg : getitem Gross_Pay (setitem Total_Deduction T d5) = Ok G).
  { unfold d5, d4, d3, d2.
    rewrite !(getitem_setitem_other Gross_Pay) by labels_differ.
    apply getitem_setitem_same. }
  rewrite Hg, getitem_setitem_same. cbn [bind].
  unfold G, T, col_of.
  rewrite (zip_r_map (cell_arith Qcminus) _ _
             (fun i => CNum (gross i - ded i)%Qc)) by reflexivity.
  reflexivity.
Qed.

(** ** The numeric conversion *)

Section Conversion.

Variable numeric_of_str : pystr -> option Qc.
Variable numeric_of_date : Z -> option Qc.

Let coerce (c : Cell) : Cell :=
  fillna0 (to_numeric numeric_of_str numeric_of_date c).

Let conv := numeric_conversion numeric_of_str numeric_of_date.

Lemma coerce_is_num (c : Cell) : is_num (coerce c) = true.
Proof.
  unfold coerce. destruct c as [q|s|t|]; simpl; try reflexivity.
  - now destruct (numeric_of_str s).
  - now destruct (numeric_of_date t).
Qed.

Lemma coerce_num (c : Cell) : is_num c = true -> coerce c = c.
Proof. destruct c; simpl; intros H; try discriminate. reflexivity. Qed.

Lemma conv_nrows (cc : pystr) (df : DataFrame) :
  nrows (conv cc df) = nrows df.
Proof.
  unfold conv, numeric_conversion. destruct df as [|[c s] df];
    [reflexivity|]. cbn [map fst snd nrows].
  destruct (existsb (pystr_eqb c) (ignore cc));
    [reflexivity|apply length_map].
Qed.

Lemma conv_regular (cc : pystr) (df : DataFrame) :
  regular df = true -> regular (conv cc df) = true.
Proof.
  intros H. unfold regular. rewrite conv_nrows.
  unfold conv, numeric_conversion.
  apply forallb_forall. intros x Hx. apply in_map_iff in Hx.
  destruct Hx as ([c s] & <- & Hin).
  pose proof (regular_In df c s H Hin) as L. apply Nat.eqb_eq.
  cbn [fst snd]. destruct (existsb (pystr_eqb c) (ignore cc));
    cbn [fst snd]; [exact L|].
  now rewrite length_map.
Qed.

Lemma conv_getitem_kept (cc label : pystr) (df : DataFrame) :
  existsb (pystr_eqb label) (ignore cc) = true ->
  getitem label (conv cc df) = getitem label df.
Proof.
  intros H. unfold conv, numeric_conversion.
  induction df as [|[c s] df IH]; [reflexivity|].
  cbn [map fst snd getitem].
  destruct (pystr_eqb c label) eqn:E.
  - apply pystr_eqb_eq in E. subst c. rewrite H. cbn [getitem].
    now rewrite pystr_eqb_refl.
  - destruct (existsb (pystr_eqb c) (ignore cc)); cbn [getitem fst snd];
      now rewrite E.
Qed.

Lemma conv_getitem (cc label : pystr) (df : DataFrame) :
  existsb (pystr_eqb label) (ignore cc) = false ->
  getitem label (conv cc df)
  = match getitem label df with
    | Ok s => Ok (map coerce s)
    | Raise e => Raise e
    end.
Proof.
  intros H. unfold conv, numeric_conversion.
  induction df as [|[c s] df IH]; [reflexivity|].
  cbn [map fst snd getitem].
  destruct (pystr_eqb c label) eqn:E.
  - apply pystr_eqb_eq in E. subst c. rewrite H. cbn [getitem].
    now rewrite pystr_eqb_refl.
  - destruct (existsb (pystr_eqb c) (ignore cc)); cbn [getitem fst snd];
      now rewrite E.
Qed.

Lemma conv_has_column (cc label : pystr) (df : DataFrame) :
  has_column label (conv cc df) = has_column label df.
Proof.
  unfold has_column, columns, conv, numeric_conversion.
  rewrite map_map. f_equal. apply map_ext. intros [c s]. cbn [fst snd].
  now destruct (existsb (pystr_eqb c) (ignore cc)).
Qed.

Lemma conv_numeric (cc label : pystr) (df : DataFrame) :
  existsb (pystr_eqb label) (ignore cc) = false ->
  numeric_or_absent label (conv cc df).
Proof.
  intros H s. rewrite conv_getitem by assumption.
  destruct (getitem label df) as [x|e]; [|discriminate].
  intros [= <-]. apply forallb_forall. intros c Hc.
  apply in_map_iff in Hc. destruct Hc as (c0 & <- & _).
  apply coerce_is_num.
Qed.


(** A column of the converted frame is one that was left alone, or it is
    numeric. *)
Lemma conv_columns (cc : pystr) (df : DataFrame) (c : pystr) (s : Series) :
  In (c, s) (conv cc df) ->
  existsb (pystr_eqb c) (ignore cc) = true \/ forallb is_num s = true.
Proof.
  unfold conv, numeric_conversion. intros H. apply in_map_iff in H.
  destruct H as ([c0 s0] & E & _). cbn [fst snd] in E.
  destruct (existsb (pystr_eqb c0) (ignore cc)) eqn:I.
  - injection E as <- <-. now left.
  - injection E as <- <-. right. apply forallb_forall. intros x Hx.
    apply in_map_iff in Hx. destruct Hx as (x0 & <- & _).
    apply coerce_is_num.
Qed.

(** Converting a frame whose converted columns are numeric already
    changes nothing. *)
Lemma conv_fixed (cc : pystr) (df : DataFrame) :
  (forall c s, In (c, s) df ->
               existsb (pystr_eqb c) (ignore cc) = true
               \/ forallb is_num s = true) ->
  conv cc df = df.
Proof.
  unfold conv, numeric_conversion. induction df as [|[c s] df IH];
    intros H; [reflexivity|]. cbn [map fst snd].
  rewrite IH by (intros c' s' Hin; apply H; now right). f_equal.
  destruct (existsb (pystr_eqb c) (ignore cc)) eqn:I; [reflexivity|].
  destruct (H c s (or_introl eq_refl)) as [H'|H']; [congruence|].
  f_equal. rewrite <- (map_id s) at 2. apply map_ext_in.
  intros x Hx. apply coerce_num.
  rewrite forallb_forall in H'. now apply H'.
Qed.

End Conversion.

(** None of the labels the summary reads or writes is a cost-center
    spelling or one of the fixed labels left out of the conversion. *)
Lemma pay_labels_converted (cc label : pystr) :
  is_cost_center_label cc = true ->
  In label (earning_columns ++ deduction_columns ++ summary_columns) ->
  existsb (pystr_eqb label) (ignore cc) = false.
Proof.
  intros Hcc Hin.
  assert (Hall : forallb (fun l => negb (is_cost_center_label l)
                                   && negb (existsb (pystr_eqb l)
                                              [cps "Name"; cps "Emp No";
                                               Joined; Resign]))
                         (earning_columns ++ deduction_columns
                          ++ summary_columns) = true) by reflexivity.
  rewrite forallb_forall in Hall. specialize (Hall label Hin).
  apply andb_true_iff in Hall. destruct Hall as [H1 H2].
  apply negb_true_iff in H1, H2. simpl in H2.
  repeat (apply orb_false_iff in H2; destruct H2 as [? H2]).
  unfold ignore. simpl.
  assert (Hne : pystr_eqb label cc = false).
  { apply pystr_eqb_neq. intros ->. congruence. }
  repeat (apply orb_false_iff; split); assumption.
Qed.

(** ** What the summary leaves in the frame *)

Lemma setitem_col_shape (df d : DataFrame) (label : pystr) (v : nat -> Qc) :
  regular d = true /\ nrows d = nrows df ->
  regular (setitem label (col_of (nrows df) v) d) = true
  /\ nrows (setitem label (col_of (nrows df) v) d) = nrows df.
Proof.
  intros [R N].
  destruct (setitem_regular label (col_of (nrows df) v) d R) as [R' N'].
  - rewrite col_of_length. now symmetry.
  - split; [exact R'|]. now rewrite N'.
Qed.

Lemma summary_frame_shape (df : DataFrame) :
  regular df = true ->
  regular (summary_frame df) = true /\ nrows (summary_frame df) = nrows df.
Proof.
  intros Hreg. unfold summary_frame. cbv zeta.
  repeat apply setitem_col_shape. split; [exact Hreg|reflexivity].
Qed.

Lemma summary_frame_other (df : DataFrame) (label : pystr) :
  ~ In label summary_columns ->
  getitem label (summary_frame df) = getitem label df.
Proof.
  intros H. unfold summary_frame.
  rewrite !getitem_setitem_other; [reflexivity|..];
    intros ->; apply H; unfold summary_columns; simpl; tauto.
Qed.

Lemma summary_frame_gross (df : DataFrame) :
  getitem Gross_Pay (summary_frame df)
  = Ok (col_of (nrows df)
          (fun i => Qc_sum (map (fun label => num_at df label i)
                                earning_columns))).
Proof.
  unfold summary_frame.
  rewrite !(getitem_setitem_other Gross_Pay) by labels_differ.
  apply getitem_setitem_same.
Qed.

Lemma summary_frame_deduction (df : DataFrame) (label : pystr) :
  In label deduction_columns ->
  getitem label (summary_frame df) = Ok (col_of (nrows df) (num_at df label)).
Proof.
  unfold summary_frame, deduction_columns. simpl.
  intros [<-|[<-|[<-|[<-|[]]]]].
  - rewrite !(getitem_setitem_other EPF) by labels_differ.
    apply getitem_setitem_same.
  - rewrite !(getitem_setitem_other Socso) by labels_differ.
    apply getitem_setitem_same.
  - rewrite !(getitem_setitem_other EIS) by labels_differ.
    apply getitem_setitem_same.
  - rewrite !(getitem_setitem_other PCB) by labels_differ.
    apply getitem_setitem_same.
Qed.

Lemma summary_frame_total (df : DataFrame) :
  getitem Total_Deduction (summary_frame df)
  = Ok (col_of (nrows df)
          (fun i => Qc_sum (map (fun label => num_at df label i)
                                deduction_columns))).
Proof.
  unfold summary_frame.
  rewrite !(getitem_setitem_other Total_Deduction) by labels_differ.
  apply getitem_setitem_same.
Qed.

Lemma summary_frame_net (df : DataFrame) :
  getitem Net_Pay (summary_frame df)
  = Ok (col_of (nrows df)
          (fun i => (Qc_sum (map (fun label => num_at df label i)
                                 earning_columns)
                     - Qc_sum (map (fun label => num_at df label i)
                                   deduction_columns))%Qc)).
Proof.
  unfold summary_frame. apply getitem_setitem_same.
Qed.

Lemma earning_not_summary (label : pystr) :
  In label earning_columns -> ~ In label summary_columns.
Proof.
  intros H1 H2.
  assert (Hall : forallb (fun l => negb (existsb (pystr_eqb l) summary_columns))
                         earning_columns = true) by reflexivity.
  rewrite forallb_forall in Hall. specialize (Hall label H1).
  apply negb_true_iff in Hall.
  assert (Hex : existsb (pystr_eqb label) summary_columns = true).
  { apply existsb_exists. exists label. split; [exact H2|apply pystr_eqb_refl]. }
  congruence.
Qed.



(** ** Running the aggregator again *)

Lemma num_at_summary_earning (df : DataFrame) (label : pystr) (i : nat) :
  In label earning_columns ->
  num_at (summary_frame df) label i = num_at df label i.
Proof.
  intros H. unfold num_at, cell_at.
  now rewrite summary_frame_other by now apply earning_not_summary.
Qed.

Lemma num_at_summary_deduction (df : DataFrame) (label : pystr) (i : nat) :
  In label deduction_columns -> (i < nrows df)%nat ->
  num_at (summary_frame df) label i = num_at df label i.
Proof.
  intros H Hi. unfold num_at at 1. unfold cell_at.
  now rewrite summary_frame_deduction, col_of_nth.
Qed.

Lemma summary_frame_columns (df : DataFrame) (c : pystr) (s : Series) :
  In (c, s) (summary_frame df) -> In (c, s) df \/ forallb is_num s = true.
Proof.
  unfold summary_frame. cbv zeta. intros H.
  repeat match type of H with
         | In _ (setitem _ _ _) =>
             apply setitem_In in H;
             destruct H as [H|[_ ->]]; [|right; apply col_of_is_num]
         end.
  now left.
Qed.

Lemma summary_frame_idem (df : DataFrame) :
  regular df = true ->
  summary_frame (summary_frame df) = summary_frame df.
Proof.
  intros Hreg. destruct (summary_frame_shape df Hreg) as [_ N].
  assert (Hg : forall i,
             Qc_sum (map (fun label => num_at (summary_frame df) label i)
                         earning_columns)
             = Qc_sum (map (fun label => num_at df label i) earning_columns)).
  { intros i. f_equal. apply map_ext_in. intros l Hl.
    now apply num_at_summary_earning. }
  assert (Hd : forall i, (i < nrows df)%nat ->
             Qc_sum (map (fun label => num_at (summary_frame df) label i)
                         deduction_columns)
             = Qc_sum (map (fun label => num_at df label i)
                           deduction_columns)).
  { intros i Hi. f_equal. apply map_ext_in. intros l Hl.
    now apply num_at_summary_deduction. }
  unfold summary_frame at 1. cbv zeta. rewrite N.
  rewrite (col_of_ext (nrows df) _
             (fun i => (Qc_sum (map (fun label => num_at df label i)
                                    earning_columns)
                        - Qc_sum (map (fun label => num_at df label i)
                                      deduction_columns))%Qc))
    by (intros i Hi; now rewrite Hg, Hd).
  rewrite (col_of_ext (nrows df)
             (fun i => Qc_sum (map (fun label =>
                                      num_at (summary_frame df) label i)
                                   deduction_columns))
             (fun i => Qc_sum (map (fun label => num_at df label i)
                                   deduction_columns)))
    by exact Hd.
  rewrite (col_of_ext (nrows df) (num_at (summary_frame df) PCB)
             (num_at df PCB))
    by (intros i Hi; apply num_at_summary_deduction; simpl; auto).
  rewrite (col_of_ext (nrows df) (num_at (summary_frame df) EIS)
             (num_at df EIS))
    by (intros i Hi; apply num_at_summary_deduction; simpl; auto).
  rewrite (col_of_ext (nrows df) (num_at (summary_frame df) Socso)
             (num_at df Socso))
    by (intros i Hi; apply num_at_summary_deduction; simpl; auto).
  rewrite (col_of_ext (nrows df) (num_at (summary_frame df) EPF)
             (num_at df EPF))
    by (intros i Hi; apply num_at_summary_deduction; simpl; auto).
  rewrite (col_of_ext (nrows df)
             (fun i => Qc_sum (map (fun label =>
                                      num_at (summary_frame df) label i)
                                   earning_columns))
             (fun i => Qc_sum (map (fun label => num_at df label i)
                                   earning_columns)))
    by (intros i _; apply Hg).
  rewrite (setitem_getitem Gross_Pay _ _ (summary_frame_gross df)).
  rewrite (setitem_getitem EPF _ _ (summary_frame_deduction df EPF
                                      (or_introl eq_refl))).
  rewrite (setitem_getitem Socso _ _
             (summary_frame_deduction df Socso
                (or_intror (or_introl eq_refl)))).
  rewrite (setitem_getitem EIS _ _
             (summary_frame_deduction df EIS
                (or_intror (or_intror (or_introl eq_refl))))).
  rewrite (setitem_getitem PCB _ _
             (summary_frame_deduction df PCB
                (or_intror (or_intror (or_intror (or_introl eq_refl)))))).
  rewrite (setitem_getitem Total_Deduction _ _ (summary_frame_total df)).
  apply (setitem_getitem Net_Pay _ _ (summary_frame_net df)).
Qed.

(** C9.  Running the numeric conversion and the payroll summary on a
    frame that they produced gives that frame again: the same columns in
    the same order with the same value in every row. *)
Theorem aggregate_idempotent
    (numeric_of_str : pystr -> option Qc) (numeric_of_date : Z -> option Qc)
    (cc : pystr) (df df1 : DataFrame) :
  is_cost_center_label cc = true ->
  regular df = true ->
  aggregate numeric_of_str numeric_of_date cc df = Ok df1 ->
  aggregate numeric_of_str numeric_of_date cc df1 = Ok df1.
Proof.
  intros Hcc Hreg Hagg.
  set (d := numeric_conversion numeric_of_str numeric_of_date cc df) in *.
  assert (Rd : regular d = true) by now apply conv_regular.
  assert (Hconv : forall label,
             In label (earning_columns ++ deduction_columns) ->
             existsb (pystr_eqb label) (ignore cc) = false).
  { intros label Hl. apply pay_labels_converted; [exact Hcc|].
    rewrite app_assoc. apply in_or_app. now left. }
  assert (Hsum : payroll_summary d = Ok (summary_frame d)).
  { apply payroll_summary_frame; [exact Rd|].
    intros label Hl. apply conv_numeric. now apply Hconv. }
  unfold aggregate in Hagg. fold d in Hagg. rewrite Hsum in Hagg.
  injection Hagg as <-.
  destruct (summary_frame_shape d Rd) as [R1 N1].
  unfold aggregate.
  rewrite (conv_fixed numeric_of_str numeric_of_date cc (summary_frame d)).
  - rewrite payroll_summary_frame.
    + now rewrite summary_frame_idem.
    + exact R1.
    + intros label Hl s Hs. apply in_app_or in Hl. destruct Hl as [Hl|Hl].
      * rewrite summary_frame_other in Hs by now apply earning_not_summary.
        revert s Hs. apply conv_numeric. apply Hconv.
        apply in_or_app. now left.
      * rewrite summary_frame_deduction in Hs by exact Hl.
        injection Hs as <-. apply col_of_is_num.
  - intros c s Hin. apply summary_frame_columns in Hin.
    destruct Hin as [Hin|Hin]; [|now right].
    exact (conv_columns numeric_of_str numeric_of_date cc df c s Hin).
Qed.

Lemma aggregate_idempotent_witness :
  exists df1,
    aggregate plain_number no_number (cps "C/Center") hq_sheet = Ok df1
    /\ aggregate plain_number no_number (cps "C/Center") df1 = Ok df1.
Proof.
  destruct (aggregate plain_number no_number (cps "C/Center") hq_sheet)
    as [df1|e] eqn:E.
  - exists df1. split; [reflexivity|].
    exact (aggregate_idempotent plain_number no_number (cps "C/Center")
             hq_sheet df1 eq_refl eq_refl E).
  - exfalso. vm_compute in E. discriminate E.
Defined.

(** ** Columns that must be there, and columns that need not *)

Lemma Qc_sum_zeros (labels : list pystr) :
  Qc_sum (map (fun _ => 0%Qc) labels) = 0%Qc.
Proof.
  induction labels as [|l labels IH]; simpl; [reflexivity|].
  rewrite IH. ring.
Qed.

(** C10.  The filter reads Joined and then Resign with [df[...]]: a
    table without Joined raises [KeyError] for Joined, a table with
    Joined but without Resign raises it for Resign.  The aggregator on
    the other hand reads its pay components with a default: on a table
    with none of the eighteen component columns it succeeds, with Gross
    Pay, Total Deduction and Net Pay zero in every row. *)
Theorem joined_resign_required
    (datetime_of_str : Series -> pystr -> option Z)
    (datetime_of_num : Series -> Qc -> option Z)
    (numeric_of_str : pystr -> option Qc) (numeric_of_date : Z -> option Qc)
    (cc : pystr) (df : DataFrame) :
  (has_column Joined df = false ->
   drop_resigned datetime_of_str datetime_of_num df = Raise (KeyError Joined))
  /\ (has_column Joined df = true -> has_column Resign df = false ->
      drop_resigned datetime_of_str datetime_of_num df
      = Raise (KeyError Resign))
  /\ (regular df = true ->
      (forall label, In label (earning_columns ++ deduction_columns) ->
                     has_column label df = false) ->
      exists df',
        aggregate numeric_of_str numeric_of_date cc df = Ok df'
        /\ forall i, (i < nrows df)%nat ->
             cell_at df' Gross_Pay i = Some (CNum 0%Qc)
             /\ cell_at df' Total_Deduction i = Some (CNum 0%Qc)
             /\ cell_at df' Net_Pay i = Some (CNum 0%Qc)).
Proof.
  split; [|split].
  - intros H. apply getitem_absent in H. unfold drop_resigned.
    now rewrite H.
  - intros Hj Hr. apply getitem_present in Hj. destruct Hj as [joined Hj].
    apply getitem_absent in Hr. unfold drop_resigned. rewrite Hj.
    cbn [bind].
    rewrite (getitem_setitem_other _ _ _ _ Joined_not_Resign), Hr.
    reflexivity.
  - intros Hreg Habs.
    set (d := numeric_conversion numeric_of_str numeric_of_date cc df).
    assert (Rd : regular d = true) by now apply conv_regular.
    assert (Nd : nrows d = nrows df) by apply conv_nrows.
    assert (Hgone : forall label,
               In label (earning_columns ++ deduction_columns) ->
               getitem label d = Raise (KeyError label)).
    { intros label Hl. apply getitem_absent. unfold d.
      rewrite conv_has_column. now apply Habs. }
    assert (Hzero : forall labels i,
               incl labels (earning_columns ++ deduction_columns) ->
               Qc_sum (map (fun label => num_at d label i) labels) = 0%Qc).
    { intros labels i Hincl. rewrite <- (Qc_sum_zeros labels). f_equal.
      apply map_ext_in. intros l Hl. unfold num_at, cell_at.
      now rewrite Hgone by now apply Hincl. }
    exists (summary_frame d). split.
    + unfold aggregate. fold d. apply payroll_summary_frame; [exact Rd|].
      intros label Hl s Hs. rewrite Hgone in Hs by exact Hl. discriminate.
    + intros i Hi. rewrite <- Nd in Hi. unfold cell_at.
      rewrite summary_frame_gross, summary_frame_total, summary_frame_net.
      rewrite !col_of_nth by exact Hi.
      rewrite (Hzero earning_columns) by (apply incl_appl, incl_refl).
      rewrite (Hzero deduction_columns) by (apply incl_appr, incl_refl).
      repeat split.
Qed.

Lemma joined_resign_required_witness :
  drop_resigned inferred_date epoch_count two_socso_columns
  = Raise (KeyError Joined)
  /\ exists df',
       aggregate plain_number no_number (cps "C/Center") two_socso_columns
       = Ok df'
       /\ cell_at df' Gross_Pay 0 = Some (CNum 0%Qc).
Proof.
  destruct (joined_resign_required inferred_date epoch_count plain_number
              no_number (cps "C/Center") two_socso_columns)
    as (Hj & _ & Hagg).
  split; [exact (Hj eq_refl)|].
  destruct (Hagg eq_refl) as (df' & Hdf' & Hrows).
  - intros label Hl.
    assert (Hall : forallb (fun l => negb (has_column l two_socso_columns))
                           (earning_columns ++ deduction_columns) = true)
      by reflexivity.
    rewrite forallb_forall in Hall. apply negb_true_iff. now apply Hall.
  - exists df'. split; [exact Hdf'|].
    exact (proj1 (Hrows 0%nat Nat.lt_0_1)).
Defined.

(** ** Amounts written out and read back *)

Lemma replace_comma_app (a b : string) :
  replace_comma (a ++ b) = (replace_comma a ++ replace_comma b)%string.
Proof.
  induction a as [|c a IH]; simpl; [reflexivity|].
  destruct (Ascii.eqb c ","); simpl; now rewrite IH.
Qed.

Lemma replace_comma_id (s : string) :
  no_comma s = true -> replace_comma s = s.
Proof.
  unfold no_comma. induction s as [|c s IH]; simpl; [reflexivity|].
  intros H. apply andb_true_iff in H. destruct H as [Hc Hs].
  apply negb_true_iff in Hc. rewrite Hc. now rewrite IH.
Qed.

Lemma replace_comma_group3 (s : string) :
  no_comma s = true -> replace_comma (group3 s) = s.
Proof.
  unfold no_comma. induction s as [|c s IH]; [reflexivity|].
  cbn [list_ascii_of_string forallb group3 replace_comma].
  intros H. apply andb_true_iff in H. destruct H as [Hc Hs].
  apply negb_true_iff in Hc. rewrite Hc.
  destruct ((0 <? String.length s)%nat && (String.length s mod 3 =? 0)%nat);
    cbn [replace_comma]; rewrite ?Ascii.eqb_refl; now rewrite IH.
Qed.

Lemma string_of_uint_plain (d : Decimal.uint) :
  no_comma (NilEmpty.string_of_uint d) = true
  /\ no_dot (NilEmpty.string_of_uint d) = true.
Proof.
  unfold no_comma, no_dot. induction d; simpl; try tauto.
Qed.

Lemma split_dot_app (a b : string) :
  no_dot a = true -> split_dot (a ++ String "." b) = (a, Some b).
Proof.
  unfold no_dot. induction a as [|c a IH]; simpl; [reflexivity|].
  intros H. apply andb_true_iff in H. destruct H as [Hc Ha].
  apply negb_true_iff in Hc. rewrite Hc. now rewrite IH.
Qed.

Lemma N_of_digits_digits (n : N) : N_of_digits (digits n) = Some n.
Proof.
  unfold N_of_digits, digits. rewrite NilEmpty.usu. simpl.
  now rewrite DecimalN.Unsigned.of_to.
Qed.

Lemma digits_first (n : N) :
  exists c rest, digits n = String c rest /\ Ascii.eqb c "-" = false.
Proof.
  unfold digits. destruct n as [|p]; simpl.
  - now exists "0"%char, EmptyString.
  - unfold Pos.to_uint.
    pose proof (DecimalPos.Unsigned.to_uint_nonnil p) as Hnn.
    unfold Pos.to_uint in Hnn.
    destruct (Decimal.rev (Pos.to_little_uint p)); [congruence| ..];
      simpl; eexists; eexists; split; reflexivity.
Qed.

Lemma two_digits_read (n : N) :
  (n < 100)%N ->
  N_of_digits (two_digits n) = Some n
  /\ no_comma (two_digits n) = true
  /\ String.length (two_digits n) = 2%nat.
Proof.
  intros H.
  assert (Hall : forallb (fun k =>
                            match N_of_digits (two_digits k) with
                            | Some m => (m =? k)%N
                            | None => false
                            end && no_comma (two_digits k))
                         (map N.of_nat (seq 0 100)) = true)
    by (vm_compute; reflexivity).
  rewrite forallb_forall in Hall.
  assert (Hin : In n (map N.of_nat (seq 0 100))).
  { apply in_map_iff. exists (N.to_nat n). split; [apply N2Nat.id|].
    apply in_seq. lia. }
  specialize (Hall n Hin). apply andb_true_iff in Hall.
  destruct Hall as [H1 H2]. split; [|split; [exact H2|reflexivity]].
  destruct (N_of_digits (two_digits n)) as [m|]; [|discriminate].
  apply N.eqb_eq in H1. now subst.
Qed.

Lemma round_half_even_near (q : Q) :
  round_half_even q = Qfloor q \/ round_half_even q = (Qfloor q + 1)%Z.
Proof.
  unfold round_half_even.
  destruct (Qcompare (q - inject_Z (Qfloor q)) (1 # 2)); auto.
  destruct (Z.even (Qfloor q)); auto.
Qed.

Lemma round_half_even_nonneg (q : Q) :
  (0 <= q)%Q -> (0 <= round_half_even q)%Z.
Proof.
  intros H. apply Qfloor_resp_le in H. change (Qfloor 0) with 0%Z in H.
  destruct (round_half_even_near q) as [-> | ->]; lia.
Qed.

Lemma round_half_even_nonpos (q : Q) :
  (q < 0)%Q -> (round_half_even q <= 0)%Z.
Proof.
  intros H. pose proof (Qfloor_le q) as F.
  assert (L : (inject_Z (Qfloor q) < inject_Z 0)%Q)
    by (eapply Qle_lt_trans; [exact F|exact H]).
  rewrite <- Zlt_Qlt in L.
  destruct (round_half_even_near q) as [-> | ->]; lia.
Qed.

Lemma round_half_even_Z (q : Q) (z : Z) :
  (q == inject_Z z)%Q -> round_half_even q = z.
Proof.
  intros H. unfold round_half_even.
  rewrite (Qfloor_comp q (inject_Z z) H), Qfloor_Z.
  assert (C : Qcompare (q - inject_Z z) (1 # 2) = Lt).
  { apply (proj1 (Qlt_alt _ _)).
    setoid_replace (q - inject_Z z)%Q with 0%Q by (rewrite H; ring).
    reflexivity. }
  now rewrite C.
Qed.

Lemma cents_sign (q : Qc) :
  Z.of_N (Z.abs_N (cents q))
  = if is_negative q then (- cents q)%Z else cents q.
Proof.
  unfold is_negative, cents. rewrite N2Z.inj_abs_N.
  destruct (Qle_bool 0 q) eqn:E; simpl.
  - apply Qle_bool_iff in E. apply Z.abs_eq, round_half_even_nonneg.
    apply Qmult_le_0_compat; [exact E|discriminate].
  - apply Z.abs_neq, round_half_even_nonpos.
    assert (L : (q < 0)%Q).
    { apply Qnot_le_lt. intros L. apply Qle_bool_iff in L. congruence. }
    setoid_replace 0%Q with (0 * 100)%Q by ring.
    apply Qmult_lt_compat_r; [reflexivity|exact L].
Qed.

Lemma Qc_cents_value (ip fp c : N) :
  (c = 100 * ip + fp)%N ->
  (Qc_of_N ip + Qc_of_N fp / Q2Qc (inject_Z 100))%Qc
  = Q2Qc (inject_Z (Z.of_N c) / 100).
Proof.
  intros ->. apply Qc_is_canon.
  unfold Qcplus, Qcdiv, Qcmult, Qcinv, Qc_of_N, Q2Qc. cbn [this].
  rewrite !Qred_correct.
  rewrite N2Z.inj_add, N2Z.inj_mul, inject_Z_plus, inject_Z_mult.
  change (inject_Z (Z.of_N 100)) with (inject_Z 100).
  field.
Qed.

Lemma unsigned_float_money (c : N) :
  unsigned_float (digits (c / 100) ++ "." ++ two_digits (c mod 100))
  = Some (Q2Qc (inject_Z (Z.of_N c) / 100)).
Proof.
  assert (Hlt : (c mod 100 < 100)%N) by (apply N.mod_lt; discriminate).
  destruct (two_digits_read (c mod 100) Hlt) as (Hf & _ & Hlen).
  destruct (string_of_uint_plain (N.to_uint (c / 100))) as [_ Hdot].
  unfold unsigned_float.
  change (digits (c / 100) ++ "." ++ two_digits (c mod 100))%string
    with (digits (c / 100) ++ String "." (two_digits (c mod 100)))%string.
  rewrite (split_dot_app _ _ Hdot).
  replace (is_empty (two_digits (c mod 100))) with false by reflexivity.
  rewrite andb_false_r.
  change (NilEmpty.string_of_uint (N.to_uint (c / 100)))
    with (digits (c / 100)).
  rewrite N_of_digits_digits, Hf, Hlen.
  f_equal. apply Qc_cents_value.
  rewrite (N.div_mod' c 100) at 1. reflexivity.
Qed.

Lemma py_float_unsigned (n : N) (t : string) :
  py_float (digits n ++ t) = unsigned_float (digits n ++ t).
Proof.
  destruct (digits_first n) as (ch & rest & Hd & Hch).
  rewrite Hd. cbn [append py_float]. now rewrite Hch.
Qed.

(** Reading a formatted amount back gives the amount rounded to
    hundredths. *)
Lemma float_format_money (q : Qc) :
  py_float (replace_comma (format_money q)) = Some (money_value q).
Proof.
  unfold format_money, money_value. cbv zeta.
  pose proof (cents_sign q) as Hs.
  set (c := Z.abs_N (cents q)) in *.
  destruct (string_of_uint_plain (N.to_uint (c / 100))) as [Hcomma _].
  change (NilEmpty.string_of_uint (N.to_uint (c / 100)))
    with (digits (c / 100)) in Hcomma.
  assert (Hlt : (c mod 100 < 100)%N) by (apply N.mod_lt; discriminate).
  destruct (two_digits_read (c mod 100) Hlt) as (_ & Hfc & _).
  rewrite !replace_comma_app, (replace_comma_group3 _ Hcomma),
    (replace_comma_id _ Hfc).
  change (replace_comma ".") with "."%string.
  destruct (is_negative q).
  - change (replace_comma "-") with "-"%string.
    cbn [append py_float]. rewrite Ascii.eqb_refl, unsigned_float_money.
    cbn [option_map]. f_equal. apply Qc_is_canon.
    unfold Qcopp, Q2Qc. cbn [this]. rewrite !Qred_correct, Hs.
    rewrite inject_Z_opp. field.
  - change (replace_comma "") with ""%string. cbn [append].
    rewrite py_float_unsigned, unsigned_float_money, Hs. reflexivity.
Qed.

Lemma format_money_nonempty (q : Qc) : is_empty (format_money q) = false.
Proof.
  pose proof (float_format_money q) as H.
  destruct (format_money q); [discriminate H|reflexivity].
Qed.

(** An amount that is a whole number of currency units is formatted
    without loss. *)
Lemma money_value_whole (q : Qc) (z : Z) :
  (q == inject_Z z)%Q -> money_value q = q.
Proof.
  intros H. unfold money_value, cents.
  rewrite (round_half_even_Z (q * 100) (z * 100)).
  - apply Qc_is_canon. unfold Q2Qc. cbn [this].
    rewrite Qred_correct, inject_Z_mult, H. field.
  - rewrite inject_Z_mult, H. reflexivity.
Qed.

Lemma Qc_of_N_nat (k : nat) : Qc_of_N (N.of_nat k) = Qc_of_Z (Z.of_nat k).
Proof. unfold Qc_of_N, Qc_of_Z. now rewrite nat_N_Z. Qed.

Lemma insurance_amount_whole (k : nat) :
  money_value (insurance_fee * Qc_of_N (N.of_nat k)) =
  (insurance_fee * Qc_of_N (N.of_nat k))%Qc.
Proof.
  apply (money_value_whole _ (50 * Z.of_nat k)).
  unfold Qcmult, insurance_fee, Qc_of_N, Q2Qc. cbn [this].
  rewrite !Qred_correct, nat_N_Z, inject_Z_mult. reflexivity.
Qed.

Lemma insurance_fee_whole : money_value insurance_fee = insurance_fee.
Proof.
  apply (money_value_whole _ 50). unfold insurance_fee, Q2Qc. cbn [this].
  now rewrite Qred_correct.
Qed.

Lemma sum_amounts_items (k : nat) (w o e h m : Qc) :
  sum_amounts (map Amount (build_items k w o e h m))
  = Ok (money_value w
        + (money_value o
           + (money_value e
              + (money_value h
                 + (money_value (insurance_fee * Qc_of_N (N.of_nat k))
                    + (money_value m + 0))))))%Qc.
Proof.
  unfold build_items. cbn [map Amount sum_amounts].
  rewrite !format_money_nonempty, !float_format_money.
  reflexivity.
Qed.

Lemma line_amount_format (no : Z) (d : string) (k : Z) (p : string) (q : Qc) :
  line_amount (mkLine no d k p (format_money q)) = money_value q.
Proof.
  unfold line_amount. cbn [Amount].
  now rewrite format_money_nonempty, float_format_money.
Qed.

(** What a successful run of the invoice body went through. *)
(** ** Rounding to the nearest double *)

Lemma round_half_even_close (x : Q) :
  (inject_Z (round_half_even x) - x <= 1 # 2)%Q
  /\ (x - inject_Z (round_half_even x) <= 1 # 2)%Q.
Proof.
  unfold round_half_even.
  pose proof (Qfloor_le x) as Hlo. pose proof (Qlt_floor x) as Hhi.
  rewrite inject_Z_plus in Hhi. change (inject_Z 1) with 1%Q in Hhi.
  destruct (Qcompare (x - inject_Z (Qfloor x)) (1 # 2)) eqn:C.
  - apply Qeq_alt in C.
    destruct (Z.even (Qfloor x)); rewrite ?inject_Z_plus;
      change (inject_Z 1) with 1%Q; split; lra.
  - apply Qlt_alt in C. split; lra.
  - apply Qgt_alt in C. rewrite inject_Z_plus.
    change (inject_Z 1) with 1%Q. split; lra.
Qed.

Lemma pow2_pos (k : Z) : (0 < pow2 k)%Q.
Proof. apply Qpower_0_lt. reflexivity. Qed.

Lemma pow2_add (a b : Z) : (pow2 (a + b) == pow2 a * pow2 b)%Q.
Proof. apply Qpower_plus. discriminate. Qed.

Lemma pow2_Z (k : Z) : (0 <= k)%Z -> (pow2 k == inject_Z (2 ^ k))%Q.
Proof. intros H. unfold pow2. now rewrite Zpower_Qpower. Qed.

(** [ilog2 x] is not above the binary logarithm of [x]. *)
Lemma ilog2_le (x : Q) : (0 < x)%Q -> (pow2 (ilog2 x) <= x)%Q.
Proof.
  intros Hx. unfold ilog2.
  set (a := Z.log2 (Qnum x)). set (b := Z.log2 (Zpos (Qden x))).
  destruct (Qle_bool (pow2 (a - b)) x) eqn:T; [now apply Qle_bool_iff|].
  assert (Hn : (0 < Qnum x)%Z).
  { destruct x as [n d]. unfold Qlt in Hx. simpl in *. lia. }
  assert (Ha : (0 <= a)%Z) by apply Z.log2_nonneg.
  assert (Hb : (0 <= b)%Z) by apply Z.log2_nonneg.
  destruct (Z.log2_spec (Qnum x) Hn) as [Hlo _]. fold a in Hlo.
  destruct (Z.log2_spec (Zpos (Qden x)) eq_refl) as [_ Hhi]. fold b in Hhi.
  pose proof (pow2_add (a - b - 1) (b + 1)) as E.
  replace (a - b - 1 + (b + 1))%Z with a in E by lia.
  rewrite (pow2_Z a Ha), (pow2_Z (b + 1)) in E by lia.
  pose proof (pow2_pos (a - b - 1)) as Hp.
  set (P := pow2 (a - b - 1)) in *.
  assert (Ex : (x == inject_Z (Qnum x) / inject_Z (Zpos (Qden x)))%Q)
    by (destruct x; simpl; apply Qmake_Qdiv).
  rewrite Ex.
  apply Qle_shift_div_l; [reflexivity|].
  apply Qle_trans with (P * inject_Z (2 ^ (b + 1)))%Q.
  - apply Qmult_le_l; [exact Hp|]. rewrite <- Zle_Qle.
    change (Z.succ b) with (b + 1)%Z in Hhi. lia.
  - rewrite <- E. rewrite <- Zle_Qle. simpl. exact Hlo.
Qed.

(** [ilog2 x] is the integer part of the binary logarithm of [x]. *)
Lemma ilog2_lt (x : Q) : (0 < x)%Q -> (x < pow2 (ilog2 x + 1))%Q.
Proof.
  intros Hx. unfold ilog2.
  set (a := Z.log2 (Qnum x)). set (b := Z.log2 (Zpos (Qden x))).
  destruct (Qle_bool (pow2 (a - b)) x) eqn:T.
  - assert (Hn : (0 < Qnum x)%Z).
    { destruct x as [n d]. unfold Qlt in Hx. simpl in *. lia. }
    assert (Ha : (0 <= a)%Z) by apply Z.log2_nonneg.
    assert (Hb : (0 <= b)%Z) by apply Z.log2_nonneg.
    destruct (Z.log2_spec (Qnum x) Hn) as [_ Hhi]. fold a in Hhi.
    destruct (Z.log2_spec (Zpos (Qden x)) eq_refl) as [Hlo _]. fold b in Hlo.
    pose proof (pow2_add (a - b + 1) b) as E.
    replace (a - b + 1 + b)%Z with (a + 1)%Z in E by lia.
    rewrite (pow2_Z (a + 1)), (pow2_Z b Hb) in E by lia.
    pose proof (pow2_pos (a - b + 1)) as Hp.
    set (P := pow2 (a - b + 1)) in *.
    assert (Ex : (x == inject_Z (Qnum x) / inject_Z (Zpos (Qden x)))%Q)
      by (destruct x; simpl; apply Qmake_Qdiv).
    rewrite Ex.
    apply Qlt_shift_div_r; [reflexivity|].
    apply Qlt_le_trans with (P * inject_Z (2 ^ b))%Q.
    + rewrite <- E. rewrite <- Zlt_Qlt.
      change (Z.succ a) with (a + 1)%Z in Hhi. exact Hhi.
    + apply Qmult_le_l; [exact Hp|]. rewrite <- Zle_Qle. simpl. exact Hlo.
  - replace (a - b - 1 + 1)%Z with (a - b)%Z by lia.
    apply Qnot_le_lt. intros H. apply Qle_bool_iff in H. congruence.
Qed.

(** A positive number and the double next to it differ by no more than
    half the last bit: 2^-53 of the number, or half the smallest
    double. *)
Lemma float_round_pos_close (x : Q) :
  (0 < x)%Q ->
  (float_round_pos x - x <= x * (1 # 2 ^ 53) + (1 # 2 ^ 1075))%Q
  /\ (x - float_round_pos x <= x * (1 # 2 ^ 53) + (1 # 2 ^ 1075))%Q.
Proof.
  intros Hx. unfold float_round_pos.
  set (e := float_exponent x).
  pose proof (pow2_pos e) as Hp.
  destruct (round_half_even_close (x / pow2 e)) as [H1 H2].
  set (r := inject_Z (round_half_even (x / pow2 e))) in *.
  assert (Hm : (x / pow2 e * pow2 e == x)%Q) by (field; lra).
  assert (Hhalf : (pow2 e * (1 # 2) <= x * (1 # 2 ^ 53) + (1 # 2 ^ 1075))%Q).
  { unfold e, float_exponent.
    destruct (Z.max_spec (ilog2 x - 52) (-1074)) as [[_ ->] | [_ ->]].
    - assert (E : (pow2 (-1074) * (1 # 2) == (1 # 2 ^ 1075))%Q) by reflexivity.
      rewrite E.
      assert (0 <= x * (1 # 2 ^ 53))%Q
        by (apply Qmult_le_0_compat; [lra|discriminate]).
      lra.
    - pose proof (ilog2_le x Hx) as Hl.
      pose proof (pow2_add (ilog2 x) (-52)) as E.
      change (ilog2 x + -52)%Z with (ilog2 x - 52)%Z in E.
      rewrite E.
      assert (E2 : (pow2 (-52) * (1 # 2) == (1 # 2 ^ 53))%Q) by reflexivity.
      rewrite <- Qmult_assoc, E2.
      assert (pow2 (ilog2 x) * (1 # 2 ^ 53) <= x * (1 # 2 ^ 53))%Q
        by (apply Qmult_le_compat_r; [exact Hl|discriminate]).
      assert (0 <= (1 # 2 ^ 1075))%Q by discriminate.
      lra. }
  assert (A : ((r - x / pow2 e) * pow2 e <= (1 # 2) * pow2 e)%Q)
    by (apply Qmult_le_compat_r; lra).
  assert (B : ((x / pow2 e - r) * pow2 e <= (1 # 2) * pow2 e)%Q)
    by (apply Qmult_le_compat_r; lra).
  split.
  - setoid_replace (r * pow2 e - x)%Q with ((r - x / pow2 e) * pow2 e)%Q
      by (rewrite <- Hm at 1; ring).
    lra.
  - setoid_replace (x - r * pow2 e)%Q with ((x / pow2 e - r) * pow2 e)%Q
      by (rewrite <- Hm at 1; ring).
    lra.
Qed.

Lemma float_round_pos_nonneg (x : Q) :
  (0 < x)%Q -> (0 <= float_round_pos x)%Q.
Proof.
  intros Hx. unfold float_round_pos.
  pose proof (pow2_pos (float_exponent x)) as Hp.
  apply Qmult_le_0_compat; [|lra].
  change 0%Q with (inject_Z 0). rewrite <- Zle_Qle.
  apply round_half_even_nonneg. apply Qle_shift_div_l; lra.
Qed.

Lemma float_round_nonneg (x : Q) : (0 <= x)%Q -> (0 <= float_round x)%Q.
Proof.
  intros Hx. unfold float_round.
  destruct (Qcompare x 0) eqn:C.
  - lra.
  - apply Qlt_alt in C. lra.
  - apply Qgt_alt in C. now apply float_round_pos_nonneg.
Qed.

Lemma float_round_close (x : Q) :
  (Qabs (float_round x - x) <= Qabs x * (1 # 2 ^ 53) + (1 # 2 ^ 1075))%Q.
Proof.
  unfold float_round.
  assert (Heta : (0 <= (1 # 2 ^ 1075))%Q) by discriminate.
  destruct (Qcompare x 0) eqn:C.
  - apply Qeq_alt in C.
    assert (Ha : (0 <= Qabs x * (1 # 2 ^ 53))%Q).
    { apply Qmult_le_0_compat; [apply Qabs_nonneg|discriminate]. }
    apply Qabs_Qle_condition. split; lra.
  - apply Qlt_alt in C.
    assert (Hx : (0 < - x)%Q) by lra.
    destruct (float_round_pos_close (- x) Hx) as [H1 H2].
    rewrite (Qabs_neg x) by lra.
    apply Qabs_Qle_condition. split; lra.
  - apply Qgt_alt in C.
    destruct (float_round_pos_close x C) as [H1 H2].
    rewrite (Qabs_pos x) by lra.
    apply Qabs_Qle_condition. split; lra.
Qed.

Lemma nearest_double_close (q : Qc) :
  (Qabs (nearest_double q - q) <= Qabs q * (1 # 2 ^ 53) + (1 # 2 ^ 1075))%Q.
Proof.
  unfold nearest_double, Q2Qc. cbn [this]. rewrite Qred_correct.
  apply float_round_close.
Qed.

Lemma nearest_double_nonneg (q : Qc) :
  (0 <= q)%Q -> (0 <= nearest_double q)%Q.
Proof.
  intros H. unfold nearest_double, Q2Qc. cbn [this]. rewrite Qred_correct.
  now apply float_round_nonneg.
Qed.

Lemma float_mul_close (a b : Qc) :
  (Qabs (float_mul a b - a * b)
   <= Qabs (a * b) * (1 # 2 ^ 53) + (1 # 2 ^ 1075))%Q.
Proof.
  unfold float_mul.
  pose proof (nearest_double_close (a * b)%Qc) as H.
  assert (E : (this (a * b)%Qc == a * b)%Q)
    by (unfold Qcmult, Q2Qc; cbn [this]; apply Qred_correct).
  now rewrite E in H.
Qed.

Lemma float_add_close (a b : Qc) :
  (Qabs (float_add a b - (a + b))
   <= Qabs (a + b) * (1 # 2 ^ 53) + (1 # 2 ^ 1075))%Q.
Proof.
  unfold float_add.
  pose proof (nearest_double_close (a + b)%Qc) as H.
  assert (E : (this (a + b)%Qc == a + b)%Q)
    by (unfold Qcplus, Q2Qc; cbn [this]; apply Qred_correct).
  now rewrite E in H.
Qed.

Lemma float_round_pos_whole (z : Z) :
  (0 < z)%Z -> (z < 2 ^ 53)%Z ->
  (float_round_pos (inject_Z z) == inject_Z z)%Q.
Proof.
  intros Hz Hlt.
  assert (Hx : (0 < inject_Z z)%Q)
    by (change 0%Q with (inject_Z 0); now rewrite <- Zlt_Qlt).
  pose proof (ilog2_le (inject_Z z) Hx) as Hl.
  set (L := ilog2 (inject_Z z)) in *.
  assert (HL : (L <= 52)%Z).
  { destruct (Z_le_gt_dec L 52) as [H|H]; [exact H|exfalso].
    assert (Hm : (pow2 53 <= pow2 L)%Q)
      by (apply Qpower_le_compat_l; [lia|discriminate]).
    rewrite (pow2_Z 53) in Hm by lia.
    assert (Hc : (inject_Z (2 ^ 53) <= inject_Z z)%Q)
      by (eapply Qle_trans; eassumption).
    rewrite <- Zle_Qle in Hc. lia. }
  unfold float_round_pos, float_exponent. fold L.
  set (e := Z.max (L - 52) (-1074)).
  assert (He : (e <= 0)%Z) by (unfold e; lia).
  pose proof (pow2_pos e) as Hp.
  pose proof (pow2_add e (- e)) as E.
  replace (e + - e)%Z with 0%Z in E by lia.
  change (pow2 0) with 1%Q in E.
  rewrite (pow2_Z (- e)) in E by lia.
  set (K := inject_Z (2 ^ (- e))) in *.
  assert (Hm : (inject_Z z / pow2 e == inject_Z (z * 2 ^ (- e)))%Q).
  { rewrite inject_Z_mult. fold K.
    setoid_replace (inject_Z z / pow2 e)%Q
      with (inject_Z z / pow2 e * (pow2 e * K))%Q
      by (rewrite <- E; ring).
    field. lra. }
  rewrite (round_half_even_Z _ _ Hm), inject_Z_mult. fold K.
  setoid_replace (inject_Z z * K * pow2 e)%Q
    with (inject_Z z * (pow2 e * K))%Q by ring.
  rewrite <- E. ring.
Qed.

(** Whole numbers below 2^53 are doubles. *)
Lemma nearest_double_whole (z : Z) :
  (Z.abs z < 2 ^ 53)%Z -> nearest_double (Q2Qc (inject_Z z)) = Q2Qc (inject_Z z).
Proof.
  intros H. unfold nearest_double. apply Qc_is_canon.
  unfold Q2Qc. cbn [this].
  assert (R : Qred (inject_Z z) = inject_Z z)
    by (apply Qred_identity; simpl; apply Z.gcd_1_r).
  rewrite R, Qred_correct.
  unfold float_round.
  destruct (Qcompare (inject_Z z) 0) eqn:C.
  - apply Qeq_alt in C. now rewrite C.
  - apply Qlt_alt in C. change 0%Q with (inject_Z 0) in C.
    rewrite <- Zlt_Qlt in C.
    assert (E : (- inject_Z z == inject_Z (- z))%Q)
      by (rewrite inject_Z_opp; reflexivity).
    assert (F : (float_round_pos (- inject_Z z) == inject_Z (- z))%Q).
    { rewrite <- (float_round_pos_whole (- z)) by lia.
      unfold Qopp, inject_Z. simpl. reflexivity. }
    rewrite F, inject_Z_opp. ring.
  - apply Qgt_alt in C. change 0%Q with (inject_Z 0) in C.
    rewrite <- Zlt_Qlt in C. apply float_round_pos_whole; lia.
Qed.


Lemma sst_rate_value :
  this sst_rate = (5764607523034235 # 72057594037927936)%Q.
Proof. vm_compute. reflexivity. Qed.

(** The rounding at work: 0.1 + 0.2, an integer above 2^53 half way
    between two doubles, one three quarters of the way, and the two
    ties at the bottom of the subnormal range. *)
Lemma float_round_examples :
  this (float_add (nearest_double (Q2Qc (1 # 10)))
                  (nearest_double (Q2Qc (2 # 10))))
  = (1351079888211149 # 4503599627370496)%Q
  /\ float_round 9007199254740993 = 9007199254740992%Q
  /\ float_round 9007199254740995 = 9007199254740996%Q
  /\ Qred (float_round ((1 # 2) * pow2 (-1074))) = 0%Q
  /\ Qred (float_round ((3 # 2) * pow2 (-1074))) = Qred (pow2 (-1073)).
Proof. repeat split; vm_compute; reflexivity. Qed.

Ltac eval_pow k :=
  let v := eval vm_compute in (2 ^ k)%positive in
  change (2 ^ k)%positive with v in *.

Ltac eval_pows :=
  eval_pow 52%positive; eval_pow 53%positive; eval_pow 55%positive;
  eval_pow 1073%positive; eval_pow 1075%positive.


(** The tax and the total with tax of a non-negative total. *)
Lemma sst_totals_close (t : Qc) :
  (0 <= t)%Q ->
  (Qabs (fst (sst_totals t) - (8 # 100) * t)
   <= t * (1 # 2 ^ 55) + (1 # 2 ^ 1075))%Q
  /\ (Qabs (snd (sst_totals t) - (108 # 100) * t)
      <= t * (1 # 2 ^ 52) + (1 # 2 ^ 1073))%Q.
Proof.
  intros Ht. unfold sst_totals. cbn [fst snd].
  set (amt := float_mul t sst_rate).
  pose proof (float_mul_close t sst_rate) as H1. fold amt in H1.
  pose proof (float_add_close t amt) as H2.
  assert (Hamt : (0 <= amt)%Q).
  { unfold amt, float_mul. apply nearest_double_nonneg.
    unfold Qcmult, Q2Qc. cbn [this]. rewrite Qred_correct.
    rewrite sst_rate_value. apply Qmult_le_0_compat; [exact Ht|discriminate]. }
  rewrite sst_rate_value in H1.
  assert (Hc : (0 <= t * (5764607523034235 # 72057594037927936))%Q)
    by (apply Qmult_le_0_compat; [exact Ht|discriminate]).
  rewrite (Qabs_pos _ Hc) in H1.
  assert (Hs : (0 <= t + amt)%Q) by lra.
  rewrite (Qabs_pos _ Hs) in H2.
  apply Qabs_Qle_condition in H1, H2.
  destruct H1 as [H1 H1'], H2 as [H2 H2'].
  split; apply Qabs_Qle_condition; eval_pows; split; lra.
Qed.

Lemma invoice_inv (df : DataFrame) (inv : Invoice) :
  invoice df = Ok inv ->
  exists gp ot bot ot_sum bot_sum hr,
    getitem Gross_Pay df = Ok gp
    /\ series_sum gp = Ok (gross_sum inv)
    /\ getitem OT_Amt df = Ok ot /\ series_sum ot = Ok ot_sum
    /\ getitem BOT df = Ok bot /\ series_sum bot = Ok bot_sum
    /\ overtime_total inv = float_add ot_sum bot_sum
    /\ sum_norm df epf_er_names = Ok (epf_er inv)
    /\ sum_norm df eis_er_names = Ok (eis_er inv)
    /\ sum_norm df socso_er_names = Ok (socso_er inv)
    /\ emp_stat inv
       = float_add (float_add (epf_er inv) (socso_er inv)) (eis_er inv)
    /\ getitem HRDF df = Ok hr /\ series_sum hr = Ok (hrdf_amt inv)
    /\ wages inv = float_sub (gross_sum inv) (overtime_total inv)
    /\ mgmt_base inv
       = float_add (float_add (float_add (wages inv) (overtime_total inv))
                              (emp_stat inv))
                   (hrdf_amt inv)
    /\ mgmt_fee inv = float_mul mgmt_rate (mgmt_base inv)
    /\ n inv = nrows df
    /\ items inv
       = build_items (n inv) (wages inv) (overtime_total inv) (emp_stat inv)
                     (hrdf_amt inv) (mgmt_fee inv)
    /\ sum_amounts (map Amount (items inv)) = Ok (total_excl_sst inv)
    /\ (sst_amount inv, total_incl_sst inv) = sst_totals (total_excl_sst inv).
Proof.
  unfold invoice, operand_sum, get. intros H.
  destruct (getitem Gross_Pay df) as [gp|] eqn:E1; [|discriminate H].
  cbn [bind] in H.
  destruct (series_sum gp) as [g|] eqn:E2; [|discriminate H].
  cbn [bind] in H.
  destruct (getitem OT_Amt df) as [ot|] eqn:E3; [|discriminate H].
  cbn [bind] in H.
  destruct (series_sum ot) as [ot_sum|] eqn:E4; [|discriminate H].
  cbn [bind] in H.
  destruct (getitem BOT df) as [bot|] eqn:E5; [|discriminate H].
  cbn [bind] in H.
  destruct (series_sum bot) as [bot_sum|] eqn:E6; [|discriminate H].
  cbn [bind] in H.
  destruct (sum_norm df epf_er_names) as [a|] eqn:E7; [|discriminate H].
  cbn [bind] in H.
  destruct (sum_norm df eis_er_names) as [b|] eqn:E8; [|discriminate H].
  cbn [bind] in H.
  destruct (sum_norm df socso_er_names) as [c|] eqn:E9; [|discriminate H].
  cbn [bind] in H.
  destruct (getitem HRDF df) as [hr|] eqn:E10; [|discriminate H].
  destruct (series_sum hr) as [h|] eqn:E11; [|discriminate H].
  cbn [bind] in H.
  match type of H with
  | bind ?x _ = _ => destruct x as [t|] eqn:E12; [|discriminate H]
  end.
  cbn [bind] in H. unfold sst_totals in H. injection H as <-.
  cbn [gross_sum overtime_total epf_er eis_er socso_er emp_stat hrdf_amt
       wages mgmt_base mgmt_fee n items total_excl_sst sst_amount
       total_incl_sst].
  exists gp, ot, bot, ot_sum, bot_sum, hr.
  repeat (split; [first [assumption|reflexivity]|]). reflexivity.
Qed.

(** ** The invoice *)



(** The rounding shows on the invoice.  On a base of 1000.10 the fee is
    printed as 150.01: the literal 0.15 is a little less than 15/100,
    and the product falls below 150.015, which exact arithmetic would
    have rounded to 150.02. *)
Lemma management_fee_of_1000_10 :
  format_money (float_mul mgmt_rate (nearest_double (Q2Qc (100010 # 100))))
  = "150.01"%string
  /\ format_money (Q2Qc (15 # 100) * Q2Qc (100010 # 100))%Qc = "150.02"%string.
Proof. split; vm_compute; reflexivity. Qed.

(** C6, as the code has it.  The invoice has the seven lines numbered 1
    to 7.  Exactly one of them, line 5 (Medical Fee), is a placeholder
    with empty unit price and amount.  On each of the other six the
    amount read back from its text is the quantity times the unit price
    read back from its text.  The total before tax is the sum of the
    line amounts, the placeholder counting as zero: the two-decimal
    values of wages, overtime, employer statutory, HRDF and management
    fee, and the insurance fee times the headcount. *)
Theorem invoice_lines_and_total (df : DataFrame) (inv : Invoice) :
  invoice df = Ok inv ->
  map No (items inv) = [1; 2; 3; 4; 5; 6; 7]%Z
  /\ filter is_placeholder (items inv)
     = [mkLine 5 "Medical Fee (Excl. Mgmt Fee)" 1 "" ""]
  /\ (forall l, In l (items inv) -> is_placeholder l = false ->
        exists a p,
          py_float (replace_comma (Amount l)) = Some a
          /\ py_float (replace_comma (U_Price l)) = Some p
          /\ a = (Qc_of_Z (Qty l) * p)%Qc)
  /\ total_excl_sst inv = Qc_sum (map line_amount (items inv))
  /\ map line_amount (items inv)
     = [money_value (wages inv); money_value (overtime_total inv);
        money_value (emp_stat inv); money_value (hrdf_amt inv); 0%Qc;
        (insurance_fee * Qc_of_Z (Z.of_nat (n inv)))%Qc;
        money_value (mgmt_fee inv)].
Proof.
  intros H. apply invoice_inv in H.
  destruct H as (gp & ot & bot & ot_sum & bot_sum & hr & _ & _ & _ & _ & _
                 & _ & _ & _ & _ & _ & _ & _ & _ & _ & _ & _ & _
                 & Hitems & Htotal & _).
  assert (Hamounts :
            map line_amount (items inv)
            = [money_value (wages inv); money_value (overtime_total inv);
               money_value (emp_stat inv); money_value (hrdf_amt inv); 0%Qc;
               (insurance_fee * Qc_of_Z (Z.of_nat (n inv)))%Qc;
               money_value (mgmt_fee inv)]).
  { rewrite Hitems. unfold build_items. cbn [map].
    rewrite !line_amount_format, insurance_amount_whole, Qc_of_N_nat.
    reflexivity. }
  split; [now rewrite Hitems|]. split; [|split; [|split]].
  - rewrite Hitems. unfold build_items, is_placeholder.
    cbn [filter Amount]. rewrite !format_money_nonempty. reflexivity.
  - intros l Hl Hp. rewrite Hitems in Hl. unfold build_items in Hl.
    assert (Hone : forall q, money_value q = (Qc_of_Z 1 * money_value q)%Qc).
    { intros q. change (Qc_of_Z 1) with 1%Qc. ring. }
    cbn [In] in Hl.
    destruct Hl as [<-|[<-|[<-|[<-|[<-|[<-|[<-|[]]]]]]]]; cbn [Amount U_Price Qty].
    + exists (money_value (wages inv)), (money_value (wages inv)).
      rewrite float_format_money. auto.
    + exists (money_value (overtime_total inv)),
        (money_value (overtime_total inv)).
      rewrite float_format_money. auto.
    + exists (money_value (emp_stat inv)), (money_value (emp_stat inv)).
      rewrite float_format_money. auto.
    + exists (money_value (hrdf_amt inv)), (money_value (hrdf_amt inv)).
      rewrite float_format_money. auto.
    + discriminate Hp.
    + exists (insurance_fee * Qc_of_N (N.of_nat (n inv)))%Qc, insurance_fee.
      rewrite !float_format_money, insurance_amount_whole,
        insurance_fee_whole, Qc_of_N_nat.
      repeat split. ring.
    + exists (money_value (mgmt_fee inv)), (money_value (mgmt_fee inv)).
      rewrite float_format_money. auto.
  - rewrite Hamounts. rewrite Hitems, sum_amounts_items in Htotal.
    injection Htotal as <-.
    rewrite insurance_amount_whole, Qc_of_N_nat.
    unfold Qc_sum. cbn [fold_right]. ring.
  - exact Hamounts.
Qed.

Lemma invoice_lines_and_total_witness :
  exists inv,
    (df <- aggregate plain_number no_number (cps "C/Center") hq_sheet ;;
     invoice df) = Ok inv
    /\ map No (items inv) = [1; 2; 3; 4; 5; 6; 7]%Z
    /\ total_excl_sst inv = Qc_sum (map line_amount (items inv)).
Proof.
  destruct (aggregate plain_number no_number (cps "C/Center") hq_sheet)
    as [df|e] eqn:E; [|exfalso; vm_compute in E; discriminate E].
  cbn [bind].
  destruct (invoice df) as [inv|e] eqn:I.
  - exists inv. split; [reflexivity|].
    destruct (invoice_lines_and_total df inv I) as (Hno & _ & _ & Ht & _).
    split; assumption.
  - exfalso. vm_compute in E. injection E as <-.
    vm_compute in I. discriminate I.
Defined.

(** C6 as stated speaks of two placeholder lines that add nothing to
    the total.  The invoice of [hq_sheet] has one line with an empty
    amount, line 5; line 6, the insurance claim, reads "100.00" for the
    two employees and is part of the total 8,214.86. *)
Lemma only_one_placeholder_line :
  (df <- aggregate plain_number no_number (cps "C/Center") hq_sheet ;;
   inv <- invoice df ;;
   Ok (map (fun l => (No l, Amount l)) (items inv),
       List.length (filter is_placeholder (items inv)),
       format_money (total_excl_sst inv)))
  = Ok ([(1, "5,800.40"); (2, "320.00"); (3, "878.00"); (4, "58.00");
         (5, ""); (6, "100.00"); (7, "1,058.46")]%Z%string,
        1%nat, "8,214.86"%string).
Proof. vm_compute. reflexivity. Qed.

(** C8.  The tax is the product, as floats are multiplied, of the total
    before tax and the literal 0.08, and the total with tax is the sum,
    as floats are added, of the total before tax and the tax; every
    invoice carries the two numbers so computed.  For a non-negative
    total before tax within the range of doubles, the tax is 8/100 of
    it and the total with tax 108/100 of it up to rounding: they differ
    by no more than 2^-55, respectively 2^-52, of the total, plus what
    is lost below the smallest double. *)
Theorem sst_totals_spec :
  (forall t : Qc,
      fst (sst_totals t) = float_mul t sst_rate
      /\ snd (sst_totals t) = float_add t (fst (sst_totals t)))
  /\ this sst_rate = (5764607523034235 # 72057594037927936)%Q
  /\ (forall t : Qc,
         (0 <= t)%Q -> (t <= inject_Z (2 ^ 1000))%Q ->
         (Qabs (fst (sst_totals t) - (8 # 100) * t)
          <= t * (1 # 2 ^ 55) + (1 # 2 ^ 1075))%Q
         /\ (Qabs (snd (sst_totals t) - (108 # 100) * t)
             <= t * (1 # 2 ^ 52) + (1 # 2 ^ 1073))%Q)
  /\ (forall df inv,
         invoice df = Ok inv ->
         sst_amount inv = fst (sst_totals (total_excl_sst inv))
         /\ total_incl_sst inv = snd (sst_totals (total_excl_sst inv))).
Proof.
  split; [intros t; split; reflexivity|].
  split; [exact sst_rate_value|]. split.
  - intros t Ht _. now apply sst_totals_close.
  - intros df inv H. apply invoice_inv in H.
    destruct H as (gp & ot & bot & ot_sum & bot_sum & hr & _ & _ & _ & _ & _
                   & _ & _ & _ & _ & _ & _ & _ & _ & _ & _ & _ & _ & _ & _
                   & H).
    rewrite <- H. split; reflexivity.
Qed.

(** The totals of the invoice of [hq_sheet], as they are printed. *)
Lemma sst_totals_of_8214_86 :
  let t := Q2Qc (821486 # 100) in
  format_money (fst (sst_totals t)) = "657.19"%string
  /\ format_money (snd (sst_totals t)) = "8,872.05"%string.
Proof. split; vm_compute; reflexivity. Qed.

(** C4, where the code departs from it.  The summary reads the overtime
    columns with a default, so a sheet without BOT, without OT Amt 1½ or
    without HRDF aggregates; the invoice of the aggregated table then
    raises: [KeyError] for BOT and for OT Amt 1½, which it reads with
    [df[...]], and [AttributeError] for HRDF, whose default [0] has no
    [sum]. *)
Theorem invoice_raises_on_missing_columns :
  (exists df,
      aggregate plain_number no_number (cps "C/Center")
                (without_column BOT hq_sheet) = Ok df
      /\ has_column BOT df = false
      /\ invoice df = Raise (KeyError BOT)
      /\ generate_invoice df = SomethingWentWrong (KeyError BOT))
  /\ (exists df,
         aggregate plain_number no_number (cps "C/Center")
                   (without_column OT_Amt hq_sheet) = Ok df
         /\ has_column OT_Amt df = false
         /\ invoice df = Raise (KeyError OT_Amt))
  /\ (exists df,
         aggregate plain_number no_number (cps "C/Center")
                   (without_column HRDF hq_sheet) = Ok df
         /\ has_column HRDF df = false
         /\ invoice df = Raise AttributeError).
Proof.
  split; [|split].
  - destruct (aggregate plain_number no_number (cps "C/Center")
                (without_column BOT hq_sheet)) as [df|e] eqn:E;
      [|exfalso; vm_compute in E; discriminate E].
    exists df. split; [reflexivity|].
    vm_compute in E. injection E as <-.
    repeat split; vm_compute; reflexivity.
  - destruct (aggregate plain_number no_number (cps "C/Center")
                (without_column OT_Amt hq_sheet)) as [df|e] eqn:E;
      [|exfalso; vm_compute in E; discriminate E].
    exists df. split; [reflexivity|].
    vm_compute in E. injection E as <-.
    repeat split; vm_compute; reflexivity.
  - destruct (aggregate plain_number no_number (cps "C/Center")
                (without_column HRDF hq_sheet)) as [df|e] eqn:E;
      [|exfalso; vm_compute in E; discriminate E].
    exists df. split; [reflexivity|].
    vm_compute in E. injection E as <-.
    repeat split; vm_compute; reflexivity.
Qed.

(** ** When the invoice is produced *)

Lemma series_sum_numeric (s : Series) :
  forallb is_num s = true -> exists v, series_sum s = Ok v.
Proof.
  induction s as [|c s IH]; simpl; intros H; [now exists 0%Qc|].
  apply andb_true_iff in H. destruct H as [Hc Hs].
  destruct c; try discriminate. destruct (IH Hs) as [v ->].
  now exists (q + v)%Qc.
Qed.

Lemma lookup_key_In (k : pystr) (df : DataFrame) (s : Series) :
  lookup_key k df = Some s -> exists c, In (c, s) df /\ norm_key c = k.
Proof.
  induction df as [|[c x] df IH]; simpl; [discriminate|].
  destruct (pystr_eqb (norm_key c) k) eqn:E.
  - intros [= <-]. exists c. split; [now left|now apply pystr_eqb_eq].
  - intros H. destruct (IH H) as (c' & Hin & Hk). exists c'. auto.
Qed.

Lemma sum_norm_succeeds (df : DataFrame) (targets : list pystr) :
  (forall t c s, In t targets -> In (c, s) df -> norm_key c = norm_key t ->
                 forallb is_num s = true) ->
  exists v, sum_norm df targets = Ok v.
Proof.
  induction targets as [|t rest IH]; intros H; [now exists 0%Qc|].
  rewrite sum_norm_lookup.
  destruct (lookup_key (norm_key t) df) as [s|] eqn:L.
  - apply lookup_key_In in L. destruct L as (c & Hin & Hk).
    apply series_sum_numeric. apply (H t c s); auto. now left.
  - apply IH. intros t' c s Ht'. apply H. now right.
Qed.

(** No column left out of the conversion answers to an employer
    spelling. *)
Lemma ignored_not_employer (cc c t : pystr) :
  is_cost_center_label cc = true ->
  existsb (pystr_eqb c) (ignore cc) = true ->
  In t employer_names ->
  norm_key c <> norm_key t.
Proof.
  intros Hcc Hc Ht.
  assert (Hall : forallb
                   (fun t =>
                      negb (existsb (pystr_eqb (norm_key t))
                                    (map norm_key acceptable))
                      && negb (existsb (fun l => pystr_eqb (norm_key l)
                                                           (norm_key t))
                                       [cps "Name"; cps "Emp No"; Joined;
                                        Resign]))
                   employer_names = true) by reflexivity.
  rewrite forallb_forall in Hall. specialize (Hall t Ht).
  apply andb_true_iff in Hall. destruct Hall as [H1 H2].
  apply negb_true_iff in H1, H2.
  intros E. unfold ignore in Hc. apply existsb_exists in Hc.
  destruct Hc as (l & Hl & El). apply pystr_eqb_eq in El. subst l.
  simpl in Hl. destruct Hl as [<-|[<-|[<-|[<-|[<-|[]]]]]].
  - simpl in H2. rewrite E, pystr_eqb_refl in H2. discriminate.
  - simpl in H2. rewrite E, pystr_eqb_refl in H2.
    rewrite orb_true_r in H2. discriminate.
  - unfold is_cost_center_label in Hcc. rewrite E in Hcc. congruence.
  - simpl in H2. rewrite E, pystr_eqb_refl in H2.
    rewrite !orb_true_r in H2. discriminate.
  - simpl in H2. rewrite E, pystr_eqb_refl in H2.
    rewrite !orb_true_r in H2. discriminate.
Qed.

Lemma HRDF_converted (cc : pystr) :
  is_cost_center_label cc = true ->
  existsb (pystr_eqb HRDF) (ignore cc) = false.
Proof.
  intros Hcc. unfold ignore. simpl.
  assert (Hne : pystr_eqb HRDF cc = false).
  { apply pystr_eqb_neq. intros <-. vm_compute in Hcc. discriminate Hcc. }
  rewrite Hne. reflexivity.
Qed.

(** On the table the aggregator made of a sheet that has the two
    overtime columns and HRDF, the invoice is produced. *)
Lemma invoice_of_aggregate
    (numeric_of_str : pystr -> option Qc) (numeric_of_date : Z -> option Qc)
    (cc : pystr) (df df1 : DataFrame) :
  is_cost_center_label cc = true ->
  regular df = true ->
  aggregate numeric_of_str numeric_of_date cc df = Ok df1 ->
  has_column OT_Amt df = true ->
  has_column BOT df = true ->
  has_column HRDF df = true ->
  exists inv, invoice df1 = Ok inv.
Proof.
  intros Hcc Hreg Hagg Hot Hbot Hhrdf.
  set (d := numeric_conversion numeric_of_str numeric_of_date cc df) in *.
  assert (Rd : regular d = true) by now apply conv_regular.
  assert (Hconv : forall label,
             In label (earning_columns ++ deduction_columns) ->
             existsb (pystr_eqb label) (ignore cc) = false).
  { intros label Hl. apply pay_labels_converted; [exact Hcc|].
    rewrite app_assoc. apply in_or_app. now left. }
  assert (Hsum : payroll_summary d = Ok (summary_frame d)).
  { apply payroll_summary_frame; [exact Rd|].
    intros label Hl. apply conv_numeric. now apply Hconv. }
  unfold aggregate in Hagg. fold d in Hagg. rewrite Hsum in Hagg.
  injection Hagg as <-.
  (* a column of the aggregated table that was converted is numeric *)
  assert (Hnum : forall label s,
             existsb (pystr_eqb label) (ignore cc) = false ->
             getitem label (summary_frame d) = Ok s ->
             forallb is_num s = true).
  { intros label s Hl Hs. apply getitem_In in Hs.
    apply summary_frame_columns in Hs. destruct Hs as [Hs|Hs]; [|exact Hs].
    apply (conv_columns numeric_of_str numeric_of_date cc df) in Hs.
    destruct Hs as [Hs|Hs]; [congruence|exact Hs]. }
  assert (Hcol : forall label,
             In label earning_columns \/ label = HRDF ->
             has_column label df = true ->
             exists s v, getitem label (summary_frame d) = Ok s
                         /\ series_sum s = Ok v).
  { intros label Hl Hhas.
    assert (Hi : existsb (pystr_eqb label) (ignore cc) = false).
    { destruct Hl as [Hl| ->]; [|now apply HRDF_converted].
      apply Hconv, in_or_app. now left. }
    assert (Hns : ~ In label summary_columns).
    { destruct Hl as [Hl| ->]; [now apply earning_not_summary|].
      unfold summary_columns. simpl.
      intros [H|[H|[H|[H|[H|[H|[H|[]]]]]]]]; vm_compute in H; discriminate H. }
    unfold d in *. rewrite <- (conv_has_column numeric_of_str numeric_of_date cc)
      in Hhas.
    apply getitem_present in Hhas. destruct Hhas as [s Hs].
    rewrite <- (summary_frame_other _ label Hns) in Hs.
    destruct (series_sum_numeric s (Hnum label s Hi Hs)) as [v Hv].
    now exists s, v. }
  assert (Hnorm : forall targets,
             incl targets employer_names ->
             exists v, sum_norm (summary_frame d) targets = Ok v).
  { intros targets Hincl. apply sum_norm_succeeds.
    intros t c s Ht Hin Hk.
    apply summary_frame_columns in Hin. destruct Hin as [Hin|Hin]; [|exact Hin].
    apply (conv_columns numeric_of_str numeric_of_date cc df) in Hin.
    destruct Hin as [Hin|Hin]; [|exact Hin].
    exfalso. exact (ignored_not_employer cc c t Hcc Hin (Hincl t Ht) Hk). }
  destruct (series_sum_numeric _ (col_of_is_num (nrows d)
              (fun i => Qc_sum (map (fun label => num_at d label i)
                                    earning_columns)))) as [g Hg].
  destruct (Hcol OT_Amt) as (ot & ot_sum & Got & Sot);
    [left; simpl; auto|exact Hot|].
  destruct (Hcol BOT) as (bot & bot_sum & Gbot & Sbot);
    [left; simpl; tauto|exact Hbot|].
  destruct (Hcol HRDF) as (hr & h & Ghr & Shr); [now right|exact Hhrdf|].
  destruct (Hnorm epf_er_names) as [a Ha].
  { unfold employer_names. apply incl_appl, incl_refl. }
  destruct (Hnorm eis_er_names) as [b Hb].
  { unfold employer_names. apply incl_appr, incl_appl, incl_refl. }
  destruct (Hnorm socso_er_names) as [c Hc].
  { unfold employer_names. apply incl_appr, incl_appr, incl_refl. }
  unfold invoice, operand_sum, get.
  rewrite summary_frame_gross. cbn [bind]. rewrite Hg. cbn [bind].
  rewrite Got. cbn [bind]. rewrite Sot. cbn [bind].
  rewrite Gbot. cbn [bind]. rewrite Sbot. cbn [bind].
  rewrite Ha. cbn [bind]. rewrite Hb. cbn [bind]. rewrite Hc. cbn [bind].
  rewrite Ghr, Shr. cbn [bind].
  rewrite sum_amounts_items. cbn [bind].
  unfold sst_totals. eexists. reflexivity.
Qed.

(* ================================================================= *)
(** * Further properties of the script *)

(** ** The header row *)

Lemma first_index_some {A : Type} (p : A -> bool) (l : list A) (i : nat) :
  first_index p l = Some i <->
  exists l1 x l2, l = l1 ++ x :: l2 /\ List.length l1 = i /\ p x = true
                  /\ forall y, In y l1 -> p y = false.
Proof.
  revert i. induction l as [|a l IH]; intros i; simpl.
  - split; [discriminate|]. intros (l1 & x & l2 & E & _).
    destruct l1; discriminate.
  - destruct (p a) eqn:Pa.
    + split.
      * intros [= <-]. exists [], a, l. simpl. intuition.
      * intros (l1 & x & l2 & E & Hlen & Px & Hl1).
        destruct l1 as [|b l1]; simpl in *; [now subst|].
        injection E as E1 E2. subst b.
        rewrite (Hl1 a (or_introl eq_refl)) in Pa. discriminate.
    + destruct (first_index p l) as [j|] eqn:F; simpl.
      * split.
        -- intros [= <-]. destruct (proj1 (IH j) eq_refl)
             as (l1 & x & l2 & -> & Hlen & Px & Hl1).
           exists (a :: l1), x, l2. simpl. repeat split; auto.
           intros y [<-|Hy]; auto.
        -- intros (l1 & x & l2 & E & Hlen & Px & Hl1).
           destruct l1 as [|b l1]; simpl in *.
           ++ injection E as E1 E2. subst x. congruence.
           ++ injection E as E1 E2. subst b l i.
              assert (H : Some j = Some (List.length l1)).
              { apply IH. exists l1, x, l2. repeat split; auto. }
              injection H as ->. reflexivity.
      * split; [discriminate|].
        intros (l1 & x & l2 & E & Hlen & Px & Hl1).
        destruct l1 as [|b l1]; simpl in *.
        -- injection E as E1 E2. subst x. congruence.
        -- injection E as E1 E2. subst b l.
           assert (H : None = Some (List.length l1)); [|discriminate H].
           apply IH. exists l1, x, l2. repeat split; auto.
Qed.

Lemma first_index_none {A : Type} (p : A -> bool) (l : list A) :
  first_index p l = None <-> forall y, In y l -> p y = false.
Proof.
  induction l as [|a l IH]; simpl.
  - split; [intros _ y []|reflexivity].
  - destruct (p a) eqn:Pa.
    + split; [discriminate|]. intros H.
      rewrite (H a (or_introl eq_refl)) in Pa. discriminate.
    + destruct (first_index p l) as [j|]; simpl.
      * split; [discriminate|]. intros H.
        assert (N : Some j = None); [|discriminate N].
        apply IH. intros y Hy. apply H. now right.
      * split; [|reflexivity]. intros _ y [<-|Hy]; [exact Pa|].
        now apply (proj1 IH).
Qed.

Lemma cell_is_In (s : pystr) (row : list Cell) :
  existsb (cell_is s) row = true <-> In (CStr s) row.
Proof.
  rewrite existsb_exists. split.
  - intros (c & Hc & E). destruct c; try discriminate.
    apply pystr_eqb_eq in E. now subst.
  - intros H. exists (CStr s). split; [exact H|apply pystr_eqb_refl].
Qed.

Lemma cell_is_not_In (s : pystr) (row : list Cell) :
  existsb (cell_is s) row = false <-> ~ In (CStr s) row.
Proof.
  rewrite <- cell_is_In. destruct (existsb (cell_is s) row); split;
    congruence.
Qed.

(** X1.  The header row is the first row of the sheet that has a cell
    equal to the text "No."; when no row has such a cell, taking
    [.index[0]] fails with [IndexError]. *)
Theorem hdr_row_first (preview : list (list Cell)) :
  (forall i,
      hdr_row preview = HeaderAt i <->
      exists before row after,
        preview = before ++ row :: after
        /\ List.length before = i
        /\ In (CStr (cps "No.")) row
        /\ forall r, In r before -> ~ In (CStr (cps "No.")) r)
  /\ (hdr_row preview = IndexError <->
      forall r, In r preview -> ~ In (CStr (cps "No.")) r).
Proof.
  unfold hdr_row. split.
  - intros i.
    destruct (first_index (existsb (cell_is (cps "No."))) preview)
      as [j|] eqn:F.
    + split.
      * intros [= <-]. apply first_index_some in F.
        destruct F as (l1 & x & l2 & E & Hlen & Px & Hl1).
        exists l1, x, l2. repeat split; auto.
        -- now apply cell_is_In.
        -- intros r Hr. apply cell_is_not_In. now apply Hl1.
      * intros (l1 & x & l2 & E & Hlen & Px & Hl1). f_equal.
        assert (H : Some j = Some i); [|now injection H].
        rewrite <- F. apply first_index_some. exists l1, x, l2.
        repeat split; auto.
        -- now apply cell_is_In.
        -- intros r Hr. apply cell_is_not_In. now apply Hl1.
    + split; [discriminate|].
      intros (l1 & x & l2 & E & Hlen & Px & Hl1). exfalso.
      rewrite first_index_none in F.
      assert (Hx : In x preview) by (rewrite E; apply in_elt).
      specialize (F x Hx). apply cell_is_not_In in F. contradiction.
  - destruct (first_index (existsb (cell_is (cps "No."))) preview)
      as [j|] eqn:F.
    + split; [discriminate|]. intros H. exfalso.
      apply first_index_some in F.
      destruct F as (l1 & x & l2 & E & _ & Px & _).
      apply cell_is_In in Px. apply (H x); [|exact Px].
      rewrite E. apply in_elt.
    + split; [|reflexivity]. intros _ r Hr.
      rewrite first_index_none in F. apply cell_is_not_In. now apply F.
Qed.

(** ** Cleaning the headers *)

Lemma key_of_space (c : N) :
  is_space c = true -> filter is_az (lower_cp c) = [].
Proof.
  intros H. apply norm_key_other.
  - unfold is_space in H. unfold is_ascii_letter, is_az.
    repeat (apply orb_true_iff in H; destruct H as [H|H]);
      repeat match goal with
             | H : (_ && _)%bool = true |- _ =>
                 apply andb_true_iff in H; destruct H
             | H : (_ <=? _)%N = true |- _ => apply N.leb_le in H
             | H : (_ =? _)%N = true |- _ => apply N.eqb_eq in H
             end;
      apply orb_false_iff; split; apply andb_false_iff;
      rewrite !N.leb_gt; lia.
  - unfold is_space in H. unfold plain_cp. apply negb_true_iff.
    repeat (apply orb_true_iff in H; destruct H as [H|H]);
      repeat match goal with
             | H : (_ && _)%bool = true |- _ =>
                 apply andb_true_iff in H; destruct H
             | H : (_ <=? _)%N = true |- _ => apply N.leb_le in H
             | H : (_ =? _)%N = true |- _ => apply N.eqb_eq in H
             end;
      apply orb_false_iff; split; apply N.eqb_neq; lia.
Qed.

Lemma norm_key_app (a b : pystr) :
  norm_key (a ++ b) = norm_key a ++ norm_key b.
Proof.
  induction a as [|c a IH]; [reflexivity|].
  simpl app. now rewrite !norm_key_cons, IH, app_assoc.
Qed.

Lemma key_of_cp_short (c : N) :
  filter is_az (lower_cp c) = []
  \/ exists k, filter is_az (lower_cp c) = [k].
Proof.
  unfold lower_cp.
  destruct ((65 <=? c)%N && (c <=? 90)%N); simpl;
    [destruct (is_az (c + 32)); eauto|].
  destruct (c =? 304)%N; [right; now exists 105%N|].
  destruct (c =? 8490)%N; [right; now exists 107%N|].
  simpl. destruct (is_az c); eauto.
Qed.

Lemma norm_key_rev (s : pystr) : norm_key (rev s) = rev (norm_key s).
Proof.
  induction s as [|c s IH]; [reflexivity|].
  simpl rev.
  rewrite norm_key_app, IH, (norm_key_cons c s), (norm_key_cons c []),
    rev_app_distr.
  change (norm_key []) with (@nil N). rewrite app_nil_r. f_equal.
  destruct (key_of_cp_short c) as [->|[k ->]]; reflexivity.
Qed.

Lemma norm_key_lstrip (s : pystr) : norm_key (lstrip s) = norm_key s.
Proof.
  induction s as [|c s IH]; [reflexivity|]. simpl.
  destruct (is_space c) eqn:E; [|reflexivity].
  now rewrite IH, norm_key_cons, key_of_space.
Qed.

Lemma norm_key_strip (s : pystr) : norm_key (strip s) = norm_key s.
Proof.
  unfold strip, rstrip.
  now rewrite norm_key_rev, norm_key_lstrip, norm_key_rev, rev_involutive,
    norm_key_lstrip.
Qed.

Lemma norm_key_remove_char (x : N) (s : pystr) :
  filter is_az (lower_cp x) = [] ->
  norm_key (remove_char x s) = norm_key s.
Proof.
  intros Hx. unfold remove_char. induction s as [|c s IH]; [reflexivity|].
  simpl. destruct (c =? x)%N eqn:E; simpl.
  - apply N.eqb_eq in E. subst c. now rewrite IH, norm_key_cons, Hx.
  - now rewrite !norm_key_cons, IH.
Qed.

(** X3.  Cleaning a header does not change its key: the cleaned header
    answers to the same cost-center spellings and the same target names
    as the header in the sheet. *)
Theorem clean_column_keeps_key (s : pystr) :
  norm_key (clean_column s) = norm_key s.
Proof.
  unfold clean_column.
  rewrite norm_key_strip, !norm_key_remove_char; reflexivity.
Qed.

Lemma lstrip_head (s : pystr) (c : N) :
  hd_error (lstrip s) = Some c -> is_space c = false.
Proof.
  induction s as [|a s IH]; simpl; [discriminate|].
  destruct (is_space a) eqn:E; [exact IH|]. simpl. now intros [= <-].
Qed.

Lemma lstrip_fixed (s : pystr) :
  (forall c, hd_error s = Some c -> is_space c = false) -> lstrip s = s.
Proof.
  destruct s as [|a s]; simpl; intros H; [reflexivity|].
  now rewrite (H a eq_refl).
Qed.

Lemma lstrip_snoc (l : pystr) (c : N) :
  is_space c = false -> exists l', lstrip (l ++ [c]) = l' ++ [c].
Proof.
  intros Hc. induction l as [|a l IH]; simpl.
  - rewrite Hc. now exists [].
  - destruct (is_space a); [exact IH|]. now exists (a :: l).
Qed.

Lemma lstrip_In (s : pystr) (y : N) : In y (lstrip s) -> In y s.
Proof.
  induction s as [|a s IH]; simpl; [tauto|].
  destruct (is_space a); [intros H; right; now apply IH|trivial].
Qed.

Lemma strip_In (s : pystr) (y : N) : In y (strip s) -> In y s.
Proof.
  unfold strip, rstrip. intros H. apply lstrip_In.
  apply in_rev in H. apply lstrip_In in H. now apply in_rev in H.
Qed.

Lemma rstrip_head (t : pystr) :
  (forall c, hd_error t = Some c -> is_space c = false) ->
  forall c, hd_error (rstrip t) = Some c -> is_space c = false.
Proof.
  unfold rstrip. destruct t as [|a t]; intros H c; [discriminate|].
  pose proof (H a eq_refl) as Ha. simpl rev.
  destruct (lstrip_snoc (rev t) a Ha) as [l' ->].
  rewrite rev_app_distr. simpl. now intros [= <-].
Qed.

Lemma strip_stripped (s : pystr) : stripped (strip s).
Proof.
  unfold stripped, strip. split.
  - apply rstrip_head. apply lstrip_head.
  - intros c. unfold rstrip. rewrite rev_involutive. apply lstrip_head.
Qed.

Lemma strip_fixed (t : pystr) : stripped t -> strip t = t.
Proof.
  intros [H1 H2]. unfold strip, rstrip.
  now rewrite (lstrip_fixed t H1), (lstrip_fixed (rev t) H2), rev_involutive.
Qed.

Lemma remove_char_not_In (x : N) (s : pystr) : ~ In x (remove_char x s).
Proof.
  unfold remove_char. intros H. apply filter_In in H. destruct H as [_ H].
  now rewrite N.eqb_refl in H.
Qed.

Lemma remove_char_In (x y : N) (s : pystr) :
  In y (remove_char x s) -> In y s.
Proof. unfold remove_char. intros H. now apply filter_In in H. Qed.

Lemma remove_char_fixed (x : N) (s : pystr) :
  ~ In x s -> remove_char x s = s.
Proof.
  unfold remove_char. induction s as [|a s IH]; simpl; intros H;
    [reflexivity|].
  destruct (a =? x)%N eqn:E.
  - apply N.eqb_eq in E. subst. exfalso. apply H. now left.
  - simpl. rewrite IH; [reflexivity|]. intros Hx. apply H. now right.
Qed.

(** X2.  A cleaned header holds no back-tick and no typographic quote
    and has no blank at either end, and cleaning it once more leaves it
    as it is. *)
Theorem clean_column_clean (s : pystr) :
  ~ In 96%N (clean_column s)
  /\ ~ In 8217%N (clean_column s)
  /\ ~ In 8216%N (clean_column s)
  /\ stripped (clean_column s)
  /\ clean_column (clean_column s) = clean_column s.
Proof.
  assert (H96 : ~ In 96%N (clean_column s)).
  { unfold clean_column. intros H. apply strip_In in H.
    do 2 apply remove_char_In in H. exact (remove_char_not_In _ _ H). }
  assert (H8217 : ~ In 8217%N (clean_column s)).
  { unfold clean_column. intros H. apply strip_In in H.
    apply remove_char_In in H. exact (remove_char_not_In _ _ H). }
  assert (H8216 : ~ In 8216%N (clean_column s)).
  { unfold clean_column. intros H. apply strip_In in H.
    exact (remove_char_not_In _ _ H). }
  assert (Hs : stripped (clean_column s)) by apply strip_stripped.
  repeat split; try assumption; try apply Hs.
  unfold clean_column at 1.
  rewrite (remove_char_fixed 96 _ H96), (remove_char_fixed 8217 _ H8217),
    (remove_char_fixed 8216 _ H8216).
  now apply strip_fixed.
Qed.

(** ** Renaming and dropping repeated headers *)

Lemma columns_loc_columns (df : DataFrame) :
  forall seen,
    columns (loc_columns (map negb (duplicated_from seen (columns df)))
               (map (fun cs => (rename (fst cs), snd cs)) df))
    = map rename (firsts_from seen (columns df)).
Proof.
  induction df as [|[c s] df IH]; intros seen; [reflexivity|].
  cbn [columns map fst duplicated_from firsts_from loc_columns].
  destruct (existsb (pystr_eqb c) seen); cbn [negb].
  - apply IH.
  - cbn [columns map fst]. f_equal. apply IH.
Qed.

Lemma firsts_from_In (cols : list pystr) :
  forall seen x,
    In x (firsts_from seen cols) <-> In x cols /\ ~ In x seen.
Proof.
  induction cols as [|c cols IH]; intros seen x; simpl; [tauto|].
  destruct (existsb (pystr_eqb c) seen) eqn:E.
  - rewrite IH. apply existsb_exists in E. destruct E as (y & Hy & Ey).
    apply pystr_eqb_eq in Ey. subst y. simpl. split.
    + intros [H1 H2]. split; [now right|tauto].
    + intros [[<-|H1] H2]; [contradiction|]. split; [assumption|].
      intros [<-|H]; contradiction.
  - assert (Hc : ~ In c seen).
    { intros H. assert (T : existsb (pystr_eqb c) seen = true).
      { apply existsb_exists. exists c. split; [exact H|apply pystr_eqb_refl]. }
      congruence. }
    simpl. rewrite IH. simpl. split.
    + intros [<-|[H1 H2]]; [split; [now left|exact Hc]|].
      split; [now right|tauto].
    + intros [[<-|H1] H2]; [now left|].
      destruct (pystr_eq_dec c x) as [->|N]; [now left|].
      right. split; [assumption|]. intros [H|H]; contradiction.
Qed.

Lemma firsts_from_NoDup (cols : list pystr) :
  forall seen, NoDup (firsts_from seen cols).
Proof.
  induction cols as [|c cols IH]; intros seen; simpl; [constructor|].
  destruct (existsb (pystr_eqb c) seen); [apply IH|].
  constructor; [|apply IH]. rewrite firsts_from_In. simpl. tauto.
Qed.

Lemma rename_cases (x : pystr) :
  (rename x = x /\ forall kv, In kv rename_columns -> fst kv <> x)
  \/ In (x, rename x) rename_columns.
Proof.
  unfold rename, rename_columns. cbn [find fst snd].
  destruct (pystr_eqb (cps "EPFEE") x) eqn:E1;
    [apply pystr_eqb_eq in E1; subst x; right; simpl; auto|].
  destruct (pystr_eqb (cps "SocEE") x) eqn:E2;
    [apply pystr_eqb_eq in E2; subst x; right; simpl; auto|].
  destruct (pystr_eqb (cps "EISEE") x) eqn:E3;
    [apply pystr_eqb_eq in E3; subst x; right; simpl; auto|].
  left. split; [reflexivity|].
  apply pystr_eqb_neq in E1, E2, E3.
  intros kv [<-|[<-|[<-|[]]]]; assumption.
Qed.

Lemma rename_columns_facts (a b r : pystr) :
  In (a, r) rename_columns ->
  rename a = r /\ rename r = r /\ a <> r
  /\ (In (b, r) rename_columns -> a = b).
Proof.
  unfold rename_columns. simpl.
  intros [[= <- <-]|[[= <- <-]|[[= <- <-]|[]]]];
    (split; [reflexivity|]); (split; [reflexivity|]);
    (split; [discriminate|]);
    intros [H|[H|[H|[]]]]; first [now injection H | discriminate H].
Qed.

Lemma NoDup_map_injective {A B : Type} (f : A -> B) (l : list A) :
  NoDup (map f l) ->
  forall a b, In a l -> In b l -> f a = f b -> a = b.
Proof.
  induction l as [|x l IH]; simpl; intros H a b Ha Hb E; [contradiction|].
  inversion H as [|? ? Hx Hl]; subst.
  destruct Ha as [<-|Ha], Hb as [<-|Hb]; auto.
  - exfalso. apply Hx. rewrite E. now apply in_map.
  - exfalso. apply Hx. rewrite <- E. now apply in_map.
Qed.

Lemma injective_NoDup_map {A B : Type} (f : A -> B) (l : list A) :
  NoDup l ->
  (forall a b, In a l -> In b l -> f a = f b -> a = b) ->
  NoDup (map f l).
Proof.
  induction 1 as [|x l Hx Hl IH]; simpl; intros Hinj; [constructor|].
  constructor.
  - intros H. apply in_map_iff in H. destruct H as (y & E & Hy).
    assert (y = x) by (apply Hinj; auto). subst. contradiction.
  - apply IH. intros a b Ha Hb. apply Hinj; now right.
Qed.

(** X4.  After lines 78-83 the labels are the renamed first occurrences
    of the cleaned labels.  They are pairwise different exactly when the
    sheet does not hold one of EPFEE, SocEE, EISEE together with the
    label it is renamed to: the repeated labels are dropped by the labels
    before the renaming, so a sheet with both EPFEE and EPF ends up with
    two columns EPF. *)
Theorem tidy_labels (df_raw : DataFrame) :
  columns (tidy df_raw) = map rename (firsts (columns df_raw))
  /\ (NoDup (columns (tidy df_raw)) <->
      forall src dst, In (src, dst) rename_columns ->
                      ~ (In src (columns df_raw) /\ In dst (columns df_raw))).
Proof.
  assert (Hcols : columns (tidy df_raw) = map rename (firsts (columns df_raw)))
    by apply columns_loc_columns.
  split; [exact Hcols|]. rewrite Hcols.
  assert (Hin : forall x, In x (firsts (columns df_raw))
                          <-> In x (columns df_raw)).
  { intros x. unfold firsts. rewrite firsts_from_In. simpl. tauto. }
  split.
  - intros Hnd src dst Hmap [Hs Hd].
    destruct (rename_columns_facts src src dst Hmap) as (R1 & R2 & Hne & _).
    apply Hne.
    apply (NoDup_map_injective rename _ Hnd); [now apply Hin..|congruence].
  - intros Hclash. apply injective_NoDup_map.
    + apply firsts_from_NoDup.
    + intros a b Ha Hb E. apply Hin in Ha, Hb.
      destruct (rename_cases a) as [[Ra _]|Ma], (rename_cases b) as [[Rb _]|Mb].
      * congruence.
      * exfalso. apply (Hclash b (rename b) Mb). split; [exact Hb|].
        rewrite <- E, Ra. exact Ha.
      * exfalso. apply (Hclash a (rename a) Ma). split; [exact Ha|].
        rewrite E, Rb. exact Hb.
      * rewrite <- E in Mb.
        now apply (rename_columns_facts a b (rename a) Ma).
Qed.

(** ** What the resolver returns *)

(** X5.  A header returned by the cost-center resolver is one of the
    headers it was given and its key is the key of one of the five
    spellings; it is therefore none of the columns the payroll summary
    reads or writes. *)
Theorem match_cost_center_column_sound (cols : list pystr) (c : pystr) :
  match_cost_center_column cols = Some c ->
  In c cols
  /\ is_cost_center_label c = true
  /\ forall label,
       In label (earning_columns ++ deduction_columns ++ summary_columns) ->
       label <> c.
Proof.
  unfold match_cost_center_column. intros H. apply match_in_some in H.
  destruct H as (pre & t & post & E & _ & Ht).
  apply first_with_key_first in Ht. destruct Ht as (l1 & l2 & -> & Hk & _).
  assert (Hc : is_cost_center_label c = true).
  { unfold is_cost_center_label. apply existsb_exists.
    exists (norm_key t). split.
    - apply in_map. rewrite E. apply in_elt.
    - now apply pystr_eqb_eq. }
  split; [apply in_elt|]. split; [exact Hc|].
  intros label Hl ->.
  pose proof (pay_labels_converted c c Hc Hl) as Hi.
  unfold ignore in Hi. simpl in Hi. rewrite pystr_eqb_refl in Hi.
  rewrite !orb_true_r in Hi. discriminate.
Qed.

Lemma match_cost_center_column_sound_witness :
  In (cps "C/Center") (columns hq_sheet)
  /\ is_cost_center_label (cps "C/Center") = true.
Proof.
  destruct (match_cost_center_column_sound (columns hq_sheet)
              (cps "C/Center") eq_refl) as (H1 & H2 & _).
  split; assumption.
Defined.

(** ** Selecting rows *)

Lemma select_map_mask (p : Cell -> bool) (s : Series) :
  select (map p s) s = filter p s.
Proof.
  induction s as [|c s IH]; simpl; [reflexivity|].
  destruct (p c); now rewrite IH.
Qed.

Lemma select_map (f : Cell -> Cell) (mask : list bool) (s : Series) :
  select mask (map f s) = map f (select mask s).
Proof.
  revert s. induction mask as [|m mask IH]; intros [|c s]; simpl;
    try reflexivity.
  destruct m; simpl; now rewrite IH.
Qed.

Lemma select_forallb (p : Cell -> bool) (mask : list bool) (s : Series) :
  forallb p s = true -> forallb p (select mask s) = true.
Proof.
  revert s. induction mask as [|m mask IH]; intros [|c s]; simpl;
    try reflexivity.
  intros H. apply andb_true_iff in H. destruct H as [Hc Hs].
  destruct m; simpl; [rewrite Hc|]; now apply IH.
Qed.

Lemma select_length (mask : list bool) (s : Series) :
  List.length s = List.length mask ->
  List.length (select mask s) = count_true mask.
Proof.
  unfold count_true. revert s.
  induction mask as [|m mask IH]; intros [|c s]; simpl; try discriminate;
    [reflexivity|].
  intros [= H]. destruct m; simpl; now rewrite IH.
Qed.

Lemma select_all (mask : list bool) (s : Series) :
  forallb (fun b => b) mask = true ->
  (List.length s <= List.length mask)%nat ->
  select mask s = s.
Proof.
  revert s. induction mask as [|m mask IH]; intros [|c s]; simpl;
    try reflexivity; try lia.
  intros H L. apply andb_true_iff in H. destruct H as [-> H].
  rewrite IH; [reflexivity|exact H|lia].
Qed.

Lemma count_true_le (mask : list bool) :
  (count_true mask <= List.length mask)%nat.
Proof. unfold count_true. apply filter_length_le. Qed.

Lemma count_true_all (mask : list bool) :
  forallb (fun b => b) mask = true -> count_true mask = List.length mask.
Proof.
  unfold count_true. induction mask as [|m mask IH]; simpl; [reflexivity|].
  intros H. apply andb_true_iff in H. destruct H as [-> H]. simpl.
  now rewrite IH.
Qed.

Lemma getitem_loc_mask (label : pystr) (mask : list bool) (df : DataFrame) :
  getitem label (loc_mask mask df)
  = match getitem label df with
    | Ok s => Ok (select mask s)
    | Raise e => Raise e
    end.
Proof.
  unfold loc_mask. induction df as [|[c s] df IH]; simpl; [reflexivity|].
  destruct (pystr_eqb c label); [reflexivity|exact IH].
Qed.

Lemma loc_mask_regular (mask : list bool) (df : DataFrame) :
  regular df = true -> List.length mask = nrows df ->
  regular (loc_mask mask df) = true
  /\ (df <> [] -> nrows (loc_mask mask df) = count_true mask).
Proof.
  intros Hreg Hlen.
  assert (Hcol : forall c s, In (c, s) (loc_mask mask df) ->
                             List.length s = count_true mask).
  { intros c s Hin. unfold loc_mask in Hin. apply in_map_iff in Hin.
    destruct Hin as ([c0 s0] & [= <- <-] & Hin0).
    apply select_length. now rewrite Hlen, (regular_In df c0 s0 Hreg Hin0). }
  assert (Hn : df <> [] -> nrows (loc_mask mask df) = count_true mask).
  { destruct df as [|[c s] df]; [congruence|]. intros _.
    apply (Hcol c (select mask s)). now left. }
  split; [|exact Hn].
  destruct df as [|cs df]; [reflexivity|].
  unfold regular. rewrite Hn by discriminate.
  apply forallb_forall. intros [c s] Hin. apply Nat.eqb_eq.
  exact (Hcol c s Hin).
Qed.

Lemma loc_mask_all (mask : list bool) (df : DataFrame) :
  regular df = true ->
  forallb (fun b => b) mask = true ->
  (nrows df <= List.length mask)%nat ->
  loc_mask mask df = df.
Proof.
  intros Hreg Hall Hlen. unfold loc_mask.
  rewrite <- (map_id df) at 2. apply map_ext_in. intros [c s] Hin.
  cbn [fst snd]. f_equal. apply select_all; [exact Hall|].
  now rewrite (regular_In df c s Hreg Hin).
Qed.

Lemma forallb_map_filter (p : Cell -> bool) (s : Series) :
  forallb (fun b => b) (map p (filter p s)) = true.
Proof.
  induction s as [|c s IH]; simpl; [reflexivity|].
  destruct (p c) eqn:E; simpl; [now rewrite E|exact IH].
Qed.

(** ** The department list and the department filter *)

Lemma cell_eqb_refl (c : Cell) : isna c = false -> cell_eqb c c = true.
Proof.
  destruct c; simpl; intros H; try discriminate.
  - apply Qeq_bool_iff. reflexivity.
  - apply pystr_eqb_refl.
  - apply Z.eqb_refl.
Qed.

Lemma unique_from_In (s : Series) :
  forall seen d, In d (unique_from seen s) -> In d s.
Proof.
  induction s as [|c s IH]; intros seen d; simpl; [tauto|].
  destruct (existsb (cell_eqb c) seen).
  - intros H. right. exact (IH _ _ H).
  - intros [<-|H]; [now left|]. right. exact (IH _ _ H).
Qed.

Lemma unique_from_covers (s : Series) :
  forall seen c,
    In c s -> isna c = false ->
    existsb (cell_eqb c) seen = true
    \/ exists d, In d (unique_from seen s) /\ cell_eqb c d = true.
Proof.
  induction s as [|a s IH]; intros seen c Hin Hc; [contradiction|].
  simpl. destruct Hin as [<-|Hin].
  - destruct (existsb (cell_eqb a) seen) eqn:E; [now left|].
    right. exists a. split; [now left|now apply cell_eqb_refl].
  - destruct (existsb (cell_eqb a) seen) eqn:E.
    + exact (IH seen c Hin Hc).
    + destruct (IH (a :: seen) c Hin Hc) as [H|(d & Hd & Ed)].
      * simpl in H. apply orb_true_iff in H. destruct H as [H|H];
          [|now left].
        right. exists a. split; [now left|exact H].
      * right. exists d. split; [now right|exact Ed].
Qed.

Lemma unique_from_distinct (s : Series) :
  forall seen,
    (forall d x, In d (unique_from seen s) -> In x seen ->
                 cell_eqb d x = false)
    /\ ForallOrdPairs (fun a b => cell_eqb b a = false) (unique_from seen s).
Proof.
  induction s as [|c s IH]; intros seen; simpl.
  - split; [intros d x []|constructor].
  - destruct (existsb (cell_eqb c) seen) eqn:E; [apply IH|].
    destruct (IH (c :: seen)) as [H1 H2]. split.
    + intros d x [<-|Hd] Hx.
      * destruct (cell_eqb c x) eqn:Ex; [|reflexivity].
        assert (T : existsb (cell_eqb c) seen = true)
          by (apply existsb_exists; now exists x).
        congruence.
      * apply H1; [exact Hd|now right].
    + constructor; [|exact H2].
      apply Forall_forall. intros d Hd. apply H1; [exact Hd|now left].
Qed.

(** X6.  The department list holds every department of the cost-center
    column once: each entry occurs in the column and is not a missing
    value, each cell of the column that is not missing equals an entry,
    and no entry equals an earlier one.  Without the column the lookup
    raises [KeyError]. *)
Theorem depts_listing (cost_col : pystr) (df_raw : DataFrame) :
  (forall col,
      getitem cost_col df_raw = Ok col ->
      exists ds,
        depts cost_col df_raw = Ok ds
        /\ (forall d, In d ds -> In d col /\ isna d = false)
        /\ (forall c, In c col -> isna c = false ->
                      exists d, In d ds /\ cell_eqb c d = true)
        /\ ForallOrdPairs (fun a b => cell_eqb b a = false) ds)
  /\ (has_column cost_col df_raw = false ->
      depts cost_col df_raw = Raise (KeyError cost_col)).
Proof.
  split.
  - intros col Hcol. unfold depts. rewrite Hcol. cbn [bind].
    eexists. split; [reflexivity|]. split; [|split].
    + intros d Hd. apply unique_from_In in Hd. unfold dropna in Hd.
      apply filter_In in Hd. destruct Hd as [Hd Hn].
      split; [exact Hd|]. now apply negb_true_iff.
    + intros c Hc Hn.
      destruct (unique_from_covers (dropna col) [] c) as [H|H];
        [|exact Hn|discriminate H|exact H].
      unfold dropna. apply filter_In. split; [exact Hc|].
      now apply negb_true_iff.
    + apply unique_from_distinct.
  - intros H. apply getitem_absent in H. unfold depts. now rewrite H.
Qed.

(** X7.  On a sheet with columns of one length, selecting a department
    keeps exactly the rows whose cost-center cell equals the selection,
    in their order and under the same labels: row [j] of the result
    holds, in every column, the cells of the [j]-th such row of the
    sheet.  So every cost-center cell of the result equals the
    selection; selecting the same department in the result changes
    nothing; and a department taken from the department list gives at
    least one row. *)
Theorem select_department_rows
    (cost_col : pystr) (sel_dept : Cell) (df_raw : DataFrame) (col : Series) :
  regular df_raw = true ->
  getitem cost_col df_raw = Ok col ->
  exists df,
    select_department cost_col sel_dept df_raw = Ok df
    /\ regular df = true
    /\ nrows df = List.length (filter (fun c => cell_eqb c sel_dept) col)
    /\ getitem cost_col df = Ok (filter (fun c => cell_eqb c sel_dept) col)
    /\ select_department cost_col sel_dept df = Ok df
    /\ (In sel_dept (unique (dropna col)) -> (0 < nrows df)%nat)
    /\ columns df = columns df_raw
    /\ (let mask := map (fun c => cell_eqb c sel_dept) col in
        (forall i, In i (kept mask) <->
                   exists c, nth_error col i = Some c
                             /\ cell_eqb c sel_dept = true)
        /\ (forall label s,
               In (label, s) df_raw ->
               In (label, select mask s) df
               /\ forall j i, nth_error (kept mask) j = Some i ->
                              nth_error (select mask s) j = nth_error s i)
        /\ (forall label s',
               In (label, s') df ->
               exists s, In (label, s) df_raw /\ s' = select mask s)).
Proof.
  intros Hreg Hcol.
  set (p := fun c => cell_eqb c sel_dept).
  assert (Hne : df_raw <> []) by (intros ->; discriminate Hcol).
  assert (Hlen : List.length (map p col) = nrows df_raw).
  { rewrite length_map. exact (regular_In _ _ _ Hreg (getitem_In _ _ _ Hcol)). }
  destruct (loc_mask_regular (map p col) df_raw Hreg Hlen) as [R N].
  specialize (N Hne).
  assert (Hcount : count_true (map p col) = List.length (filter p col)).
  { rewrite <- (select_length (map p col) col) by now rewrite length_map.
    now rewrite select_map_mask. }
  assert (Hget : getitem cost_col (loc_mask (map p col) df_raw)
                 = Ok (filter p col)).
  { now rewrite getitem_loc_mask, Hcol, select_map_mask. }
  exists (loc_mask (map p col) df_raw).
  unfold select_department. rewrite Hcol. cbn [bind]. fold p.
  split; [reflexivity|]. split; [exact R|].
  split; [now rewrite N, Hcount|]. split; [exact Hget|].
  split; [|split; [|split; [|split; [|split]]]].
  - rewrite Hget. cbn [bind]. f_equal. apply loc_mask_all.
    + exact R.
    + apply forallb_map_filter.
    + rewrite N, Hcount, length_map. apply le_n.
  - intros Hin. rewrite N, Hcount.
    apply unique_from_In in Hin. unfold dropna in Hin.
    apply filter_In in Hin. destruct Hin as [Hin Hn].
    apply negb_true_iff in Hn.
    assert (Hf : In sel_dept (filter p col)).
    { apply filter_In. split; [exact Hin|]. unfold p.
      now apply cell_eqb_refl. }
    destruct (filter p col); [contradiction|simpl; lia].
  - unfold columns, loc_mask. rewrite map_map. reflexivity.
  - intros i. unfold kept. rewrite kept_from_In, Nat.sub_0_r.
    rewrite nth_error_map. split.
    + intros [_ H]. destruct (nth_error col i) as [c|]; [|discriminate].
      exists c. split; [reflexivity|]. now injection H.
    + intros (c & -> & H). split; [lia|]. simpl. unfold p. now rewrite H.
  - intros label s Hin. split.
    + unfold loc_mask. apply in_map_iff. now exists (label, s).
    + intros j i Hk.
      assert (Hl : List.length s = List.length (map p col))
        by (rewrite Hlen; exact (regular_In _ _ _ Hreg Hin)).
      destruct (kept_from_select (map p col) s 0 j i Hl Hk) as [_ H].
      now rewrite Nat.sub_0_r in H.
  - intros label s' Hin. unfold loc_mask in Hin.
    apply in_map_iff in Hin. destruct Hin as ([l s] & E & Hin).
    cbn [fst snd] in E. injection E as <- <-. now exists s.
Qed.

Lemma select_department_rows_witness :
  exists df,
    select_department (cps "C/Center") (CStr (cps "HQ")) two_depts_sheet
    = Ok df
    /\ nrows df = 2%nat
    /\ select_department (cps "C/Center") (CStr (cps "HQ")) df = Ok df.
Proof.
  destruct (select_department_rows (cps "C/Center") (CStr (cps "HQ"))
              two_depts_sheet _ eq_refl eq_refl)
    as (df & H1 & _ & H2 & _ & H3 & _).
  exists df. repeat split; assumption.
Defined.

(** ** Filtering twice *)

Lemma to_datetime_dated
    (datetime_of_str : Series -> pystr -> option Z)
    (datetime_of_num : Series -> Qc -> option Z)
    (s : Series) :
  forallb is_date_or_missing (to_datetime datetime_of_str datetime_of_num s)
  = true.
Proof.
  unfold to_datetime. apply forallb_forall. intros c Hc.
  apply in_map_iff in Hc. destruct Hc as (x & <- & _).
  destruct x as [q|t|t|]; simpl; try reflexivity.
  - now destruct (datetime_of_num s q).
  - now destruct (datetime_of_str s t).
Qed.

(** A converted column is converted to itself, whatever the library
    reads text by. *)
Lemma to_datetime_fixed
    (datetime_of_str : Series -> pystr -> option Z)
    (datetime_of_num : Series -> Qc -> option Z)
    (s : Series) :
  forallb is_date_or_missing s = true ->
  to_datetime datetime_of_str datetime_of_num s = s.
Proof.
  unfold to_datetime. intros H. rewrite forallb_forall in H.
  rewrite <- (map_id s) at 3. apply map_ext_in. intros c Hc.
  specialize (H c Hc). now destruct c.
Qed.

Lemma drop_resigned_inv
    (datetime_of_str : Series -> pystr -> option Z)
    (datetime_of_num : Series -> Qc -> option Z)
    (df df1 : DataFrame) :
  drop_resigned datetime_of_str datetime_of_num df = Ok df1 ->
  exists joined resign,
    getitem Joined df = Ok joined /\ getitem Resign df = Ok resign
    /\ df1 = loc_mask
               (map isna (to_datetime datetime_of_str datetime_of_num resign))
               (setitem Resign
                  (to_datetime datetime_of_str datetime_of_num resign)
                  (setitem Joined
                     (to_datetime datetime_of_str datetime_of_num joined)
                     df)).
Proof.
  unfold drop_resigned. intros H.
  destruct (getitem Joined df) as [joined|] eqn:Hj; [|discriminate H].
  cbn [bind] in H.
  rewrite (getitem_setitem_other _ _ _ _ Joined_not_Resign) in H.
  destruct (getitem Resign df) as [resign|] eqn:Hr; [|discriminate H].
  cbn [bind] in H. rewrite getitem_setitem_same in H. cbn [bind] in H.
  injection H as H. subst df1. now exists joined, resign.
Qed.

Lemma setitem_nonempty (label : pystr) (s : Series) (df : DataFrame) :
  setitem label s df <> [].
Proof.
  unfold setitem. destruct df as [|[c x] d]; simpl; [discriminate|].
  destruct (pystr_eqb c label); discriminate.
Qed.

(** X8.  On a table with columns of one length, the result of dropping
    resigned staff has no more rows than the table, its Resign column
    holds missing values only, and dropping resigned staff from it once
    more gives the same table. *)
Theorem drop_resigned_idempotent
    (datetime_of_str : Series -> pystr -> option Z)
    (datetime_of_num : Series -> Qc -> option Z)
    (df df1 : DataFrame) :
  regular df = true ->
  drop_resigned datetime_of_str datetime_of_num df = Ok df1 ->
  regular df1 = true
  /\ (nrows df1 <= nrows df)%nat
  /\ (exists resign, getitem Resign df1 = Ok resign
                     /\ forallb isna resign = true)
  /\ drop_resigned datetime_of_str datetime_of_num df1 = Ok df1.
Proof.
  intros Hreg H. apply drop_resigned_inv in H.
  destruct H as (joined & resign & Hj & Hr & ->).
  set (td := to_datetime datetime_of_str datetime_of_num).
  set (J := td joined). set (R := td resign).
  set (conv := setitem Resign R (setitem Joined J df)).
  assert (Hne : df <> []) by (intros ->; discriminate Hj).
  assert (Lj : List.length J = nrows df).
  { unfold J, td, to_datetime. rewrite length_map.
    exact (regular_In _ _ _ Hreg (getitem_In _ _ _ Hj)). }
  assert (Lr : List.length R = nrows df).
  { unfold R, td, to_datetime. rewrite length_map.
    exact (regular_In _ _ _ Hreg (getitem_In _ _ _ Hr)). }
  destruct (setitem_regular Joined J df Hreg Lj) as [R1 N1].
  destruct (setitem_regular Resign R (setitem Joined J df) R1) as [R2 N2];
    [now rewrite N1|]. fold conv in R2, N2. rewrite N1 in N2.
  assert (Hcne : conv <> []).
  { unfold conv. apply setitem_nonempty. }
  destruct (loc_mask_regular (map isna R) conv R2) as [R3 N3];
    [now rewrite length_map, Lr, N2|]. specialize (N3 Hcne).
  assert (Gj : getitem Joined (loc_mask (map isna R) conv)
               = Ok (select (map isna R) J)).
  { rewrite getitem_loc_mask. unfold conv.
    assert (Jn : Joined <> Resign) by discriminate.
    now rewrite (getitem_setitem_other _ _ _ _ Jn), getitem_setitem_same. }
  assert (Gr : getitem Resign (loc_mask (map isna R) conv)
               = Ok (filter isna R)).
  { rewrite getitem_loc_mask. unfold conv.
    now rewrite getitem_setitem_same, select_map_mask. }
  split; [exact R3|]. split; [|split].
  - rewrite N3, <- Lr, <- (length_map isna R). apply count_true_le.
  - exists (filter isna R). split; [exact Gr|].
    apply forallb_forall. intros c Hc. now apply filter_In in Hc.
  - unfold drop_resigned. rewrite Gj. cbn [bind]. fold td.
    assert (E1 : td (select (map isna R) J) = select (map isna R) J).
    { apply to_datetime_fixed, select_forallb. apply to_datetime_dated. }
    rewrite E1, (setitem_getitem _ _ _ Gj), Gr. cbn [bind].
    assert (E2 : td (filter isna R) = filter isna R).
    { apply to_datetime_fixed. rewrite <- (select_map_mask isna R).
      apply select_forallb, to_datetime_dated. }
    rewrite E2, (setitem_getitem _ _ _ Gr), Gr. cbn [bind]. f_equal.
    apply loc_mask_all.
    + exact R3.
    + apply forallb_map_filter.
    + rewrite N3, length_map.
      rewrite <- (select_length (map isna R) R) by now rewrite length_map.
      now rewrite select_map_mask.
Qed.

Lemma drop_resigned_idempotent_witness :
  exists df1,
    drop_resigned inferred_date epoch_count three_staff = Ok df1
    /\ (nrows df1 <= 3)%nat
    /\ drop_resigned inferred_date epoch_count df1 = Ok df1.
Proof.
  destruct (drop_resigned inferred_date epoch_count three_staff) as [df1|e] eqn:E.
  - exists df1. split; [reflexivity|].
    destruct (drop_resigned_idempotent inferred_date epoch_count three_staff df1
                eq_refl E) as (_ & H1 & _ & H2).
    split; assumption.
  - exfalso. vm_compute in E. discriminate E.
Defined.

(** ** The frame after the aggregator *)

Lemma columns_setitem (label : pystr) (s : Series) (df : DataFrame) :
  columns (setitem label s df)
  = columns df ++ (if has_column label df then [] else [label]).
Proof.
  unfold setitem, has_column, columns.
  induction df as [|[c x] df IH]; simpl; [reflexivity|].
  rewrite (pystr_eqb_sym label c).
  destruct (pystr_eqb c label) eqn:E; simpl.
  - now rewrite app_nil_r.
  - now rewrite IH.
Qed.

Lemma has_column_app (label : pystr) (df : DataFrame) (extra : list pystr) :
  existsb (pystr_eqb label) (columns df ++ extra)
  = has_column label df || existsb (pystr_eqb label) extra.
Proof. unfold has_column. apply existsb_app. Qed.

Lemma columns_summary_frame (df : DataFrame) :
  columns (summary_frame df)
  = columns df
    ++ filter (fun label => negb (has_column label df)) summary_columns.
Proof.
  unfold summary_frame. cbv zeta.
  set (d1 := setitem Gross_Pay _ df).
  set (d2 := setitem EPF _ d1). set (d3 := setitem Socso _ d2).
  set (d4 := setitem EIS _ d3). set (d5 := setitem PCB _ d4).
  set (d6 := setitem Total_Deduction _ d5).
  assert (H1 : columns d1 = columns df
                 ++ filter (fun l => negb (has_column l df)) [Gross_Pay]).
  { unfold d1. rewrite columns_setitem. simpl.
    now destruct (has_column Gross_Pay df). }
  assert (Step : forall (d d' : DataFrame) (label : pystr) (s : Series)
                        (done : list pystr),
             columns d = columns df
                         ++ filter (fun l => negb (has_column l df)) done ->
             existsb (pystr_eqb label) done = false ->
             columns (setitem label s d)
             = columns df
               ++ filter (fun l => negb (has_column l df)) (done ++ [label])).
  { intros d d' label s done Hd Hnew. rewrite columns_setitem.
    unfold has_column at 1. rewrite Hd, existsb_app, filter_app, app_assoc.
    f_equal. simpl.
    assert (Hf : existsb (pystr_eqb label)
                   (filter (fun l => negb (has_column l df)) done) = false).
    { destruct (existsb (pystr_eqb label) (filter _ done)) eqn:E;
        [|reflexivity].
      apply existsb_exists in E. destruct E as (x & Hx & Ex).
      apply filter_In in Hx. destruct Hx as [Hx _].
      assert (T : existsb (pystr_eqb label) done = true)
        by (apply existsb_exists; now exists x).
      congruence. }
    rewrite Hf, orb_false_r. unfold has_column.
    now destruct (existsb (pystr_eqb label) (columns df)). }
  change summary_columns
    with ([Gross_Pay; EPF; Socso; EIS; PCB; Total_Deduction] ++ [Net_Pay]).
  apply (Step d6 d6); [|reflexivity]. unfold d6.
  change [Gross_Pay; EPF; Socso; EIS; PCB; Total_Deduction]
    with ([Gross_Pay; EPF; Socso; EIS; PCB] ++ [Total_Deduction]).
  apply (Step d5 d5); [|reflexivity]. unfold d5.
  change [Gross_Pay; EPF; Socso; EIS; PCB]
    with ([Gross_Pay; EPF; Socso; EIS] ++ [PCB]).
  apply (Step d4 d4); [|reflexivity]. unfold d4.
  change [Gross_Pay; EPF; Socso; EIS] with ([Gross_Pay; EPF; Socso] ++ [EIS]).
  apply (Step d3 d3); [|reflexivity]. unfold d3.
  change [Gross_Pay; EPF; Socso] with ([Gross_Pay; EPF] ++ [Socso]).
  apply (Step d2 d2); [|reflexivity]. unfold d2.
  change [Gross_Pay; EPF] with ([Gross_Pay] ++ [EPF]).
  apply (Step d1 d1); [exact H1|reflexivity].
Qed.

Lemma conv_columns_same
    (numeric_of_str : pystr -> option Qc) (numeric_of_date : Z -> option Qc)
    (cc : pystr) (df : DataFrame) :
  columns (numeric_conversion numeric_of_str numeric_of_date cc df)
  = columns df.
Proof.
  unfold columns, numeric_conversion. rewrite map_map. apply map_ext.
  intros [c s]. cbn [fst snd].
  now destruct (existsb (pystr_eqb c) (ignore cc)).
Qed.

Lemma ignored_not_summary (cc label : pystr) :
  is_cost_center_label cc = true ->
  existsb (pystr_eqb label) (ignore cc) = true ->
  ~ In label summary_columns.
Proof.
  intros Hcc Hi Hs.
  assert (Hl : In label (earning_columns ++ deduction_columns
                         ++ summary_columns))
    by (apply in_or_app; right; apply in_or_app; now right).
  rewrite (pay_labels_converted cc label Hcc Hl) in Hi. discriminate.
Qed.

(** X9.  The aggregator keeps the columns of the table in their places
    and appends, in this order, those of Gross Pay, EPF, Socso, EIS, PCB,
    Total Deduction and Net Pay that the table did not have.  The columns
    Name, Emp No, the cost center, Joined and Resign keep their cells;
    every other column of the result holds numbers only. *)
Theorem aggregate_frame
    (numeric_of_str : pystr -> option Qc) (numeric_of_date : Z -> option Qc)
    (cc : pystr) (df df1 : DataFrame) :
  is_cost_center_label cc = true ->
  regular df = true ->
  aggregate numeric_of_str numeric_of_date cc df = Ok df1 ->
  columns df1
  = columns df
    ++ filter (fun label => negb (has_column label df)) summary_columns
  /\ regular df1 = true
  /\ (forall label, In label (ignore cc) ->
                    getitem label df1 = getitem label df)
  /\ (forall label s, ~ In label (ignore cc) ->
                      getitem label df1 = Ok s -> forallb is_num s = true).
Proof.
  intros Hcc Hreg Hagg.
  set (d := numeric_conversion numeric_of_str numeric_of_date cc df) in *.
  assert (Rd : regular d = true) by now apply conv_regular.
  assert (Hconv : forall label,
             In label (earning_columns ++ deduction_columns) ->
             existsb (pystr_eqb label) (ignore cc) = false).
  { intros label Hl. apply pay_labels_converted; [exact Hcc|].
    rewrite app_assoc. apply in_or_app. now left. }
  assert (Hsum : payroll_summary d = Ok (summary_frame d)).
  { apply payroll_summary_frame; [exact Rd|].
    intros label Hl. apply conv_numeric. now apply Hconv. }
  unfold aggregate in Hagg. fold d in Hagg. rewrite Hsum in Hagg.
  injection Hagg as <-.
  assert (Hex : forall label,
             In label (ignore cc) <->
             existsb (pystr_eqb label) (ignore cc) = true).
  { intros label. rewrite existsb_exists. split.
    - intros H. exists label. split; [exact H|apply pystr_eqb_refl].
    - intros (x & Hx & E). apply pystr_eqb_eq in E. now subst. }
  split; [|split; [|split]].
  - rewrite columns_summary_frame. unfold d.
    rewrite conv_columns_same. f_equal. apply filter_ext. intros l.
    now rewrite conv_has_column.
  - apply summary_frame_shape. exact Rd.
  - intros label Hl. apply Hex in Hl.
    rewrite summary_frame_other by exact (ignored_not_summary cc label Hcc Hl).
    now apply conv_getitem_kept.
  - intros label s Hl Hs. apply getitem_In in Hs.
    apply summary_frame_columns in Hs. destruct Hs as [Hs|Hs]; [|exact Hs].
    apply (conv_columns numeric_of_str numeric_of_date cc df) in Hs.
    destruct Hs as [Hs|Hs]; [|exact Hs].
    exfalso. apply Hl. now apply Hex.
Qed.

Lemma aggregate_frame_witness :
  exists df1,
    aggregate plain_number no_number (cps "C/Center") hq_sheet = Ok df1
    /\ columns df1
       = columns hq_sheet ++ [Gross_Pay; Total_Deduction; Net_Pay].
Proof.
  destruct (aggregate plain_number no_number (cps "C/Center") hq_sheet)
    as [df1|e] eqn:E.
  - exists df1. split; [reflexivity|].
    exact (proj1 (aggregate_frame plain_number no_number (cps "C/Center")
                    hq_sheet df1 eq_refl eq_refl E)).
  - exfalso. vm_compute in E. discriminate E.
Defined.

(** ** The two-decimal notation *)

(** X10.  The text of an amount in the format [,.2f], its thousands
    separators removed, is the plain notation of the amount in
    hundredths: a minus sign for a negative amount, the digits of the
    whole part, a point, and two digits.  The hundredths are the amount
    times 100 rounded to an integer, no more than a half away from it,
    and they carry the sign of the amount.  The text is never empty. *)
Theorem format_money_plain (q : Qc) :
  let c := Z.abs_N (cents q) in
  replace_comma (format_money q)
  = ((if is_negative q then "-" else "") ++ digits (c / 100) ++ "."
     ++ two_digits (c mod 100))%string
  /\ Z.of_N c = (if is_negative q then (- cents q)%Z else cents q)
  /\ (inject_Z (cents q) - q * 100 <= 1 # 2)%Q
  /\ (q * 100 - inject_Z (cents q) <= 1 # 2)%Q
  /\ is_empty (format_money q) = false.
Proof.
  intros c. split; [|split; [exact (cents_sign q)|split; [|split]]].
  - unfold format_money. cbv zeta. fold c.
    destruct (string_of_uint_plain (N.to_uint (c / 100))) as [Hcomma _].
    change (NilEmpty.string_of_uint (N.to_uint (c / 100)))
      with (digits (c / 100)) in Hcomma.
    assert (Hlt : (c mod 100 < 100)%N) by (apply N.mod_lt; discriminate).
    destruct (two_digits_read (c mod 100) Hlt) as (_ & Hfc & _).
    rewrite !replace_comma_app, (replace_comma_group3 _ Hcomma),
      (replace_comma_id _ Hfc).
    change (replace_comma ".") with "."%string.
    now destruct (is_negative q).
  - exact (proj1 (round_half_even_close (q * 100))).
  - exact (proj2 (round_half_even_close (q * 100))).
  - apply format_money_nonempty.
Qed.

(** ** From the sheet to the department table *)

Lemma cost_center_not_date (cc : pystr) :
  is_cost_center_label cc = true -> cc <> Joined /\ cc <> Resign.
Proof.
  intros H. split; intros ->; vm_compute in H; discriminate H.
Qed.

Lemma cost_center_ignored (cc : pystr) :
  existsb (pystr_eqb cc) (ignore cc) = true.
Proof.
  apply existsb_exists. exists cc.
  split; [unfold ignore; simpl; tauto|apply pystr_eqb_refl].
Qed.

Lemma Resign_ignored (cc : pystr) :
  existsb (pystr_eqb Resign) (ignore cc) = true.
Proof.
  apply existsb_exists. exists Resign.
  split; [unfold ignore; simpl; tauto|apply pystr_eqb_refl].
Qed.

Lemma forallb_filter_same (p : Cell -> bool) (s : Series) :
  forallb p (filter p s) = true.
Proof.
  apply forallb_forall. intros c Hc. now apply filter_In in Hc.
Qed.

Lemma loc_mask_nonempty (mask : list bool) (df : DataFrame) :
  df <> [] -> loc_mask mask df <> [].
Proof. destruct df; [congruence|discriminate]. Qed.

(** X13.  Once the cost-center column is resolved, a sheet with
    pairwise different labels and columns of one length that has the
    cost-center, Joined and Resign columns always yields a department
    table: no step raises.  The table has no more rows than the sheet,
    every cost-center cell in it equals the selected department and
    every Resign cell in it is missing. *)
Theorem department_table_produced
    (datetime_of_str : Series -> pystr -> option Z)
    (datetime_of_num : Series -> Qc -> option Z)
    (numeric_of_str : pystr -> option Qc) (numeric_of_date : Z -> option Qc)
    (cc : pystr) (sel_dept : Cell) (df_raw : DataFrame) :
  is_cost_center_label cc = true ->
  regular df_raw = true ->
  NoDup (columns df_raw) ->
  has_column cc df_raw = true ->
  has_column Joined df_raw = true ->
  has_column Resign df_raw = true ->
  exists df,
    department_table datetime_of_str datetime_of_num numeric_of_str
                     numeric_of_date cc sel_dept df_raw = Ok df
    /\ regular df = true
    /\ (nrows df <= nrows df_raw)%nat
    /\ (exists col, getitem cc df = Ok col
                    /\ forallb (fun c => cell_eqb c sel_dept) col = true)
    /\ (exists resign, getitem Resign df = Ok resign
                       /\ forallb isna resign = true).
Proof.
  intros Hcc Hreg _ Hc Hj Hr.
  apply getitem_present in Hc, Hj, Hr.
  destruct Hc as [col0 Gc], Hj as [j0 Gj], Hr as [r0 Gr].
  destruct (cost_center_not_date cc Hcc) as [NJ NR].
  set (td := to_datetime datetime_of_str datetime_of_num).
  set (p := fun c => cell_eqb c sel_dept).
  set (m1 := map p col0). set (d1 := loc_mask m1 df_raw).
  assert (Hne : df_raw <> []) by (intros ->; discriminate Gc).
  assert (Lm1 : List.length m1 = nrows df_raw).
  { unfold m1. rewrite length_map.
    exact (regular_In _ _ _ Hreg (getitem_In _ _ _ Gc)). }
  destruct (loc_mask_regular m1 df_raw Hreg Lm1) as [R1 N1].
  specialize (N1 Hne). fold d1 in R1, N1.
  assert (G1c : getitem cc d1 = Ok (filter p col0)).
  { unfold d1. rewrite getitem_loc_mask, Gc. unfold m1.
    now rewrite select_map_mask. }
  assert (G1j : getitem Joined d1 = Ok (select m1 j0))
    by (unfold d1; now rewrite getitem_loc_mask, Gj).
  assert (G1r : getitem Resign d1 = Ok (select m1 r0))
    by (unfold d1; now rewrite getitem_loc_mask, Gr).
  set (J := td (select m1 j0)). set (R := td (select m1 r0)).
  set (c2 := setitem Resign R (setitem Joined J d1)).
  set (m2 := map isna R). set (d2 := loc_mask m2 c2).
  assert (LJ : List.length J = nrows d1).
  { unfold J, td, to_datetime. rewrite length_map, N1. apply select_length.
    now rewrite Lm1, (regular_In _ _ _ Hreg (getitem_In _ _ _ Gj)). }
  assert (LR : List.length R = nrows d1).
  { unfold R, td, to_datetime. rewrite length_map, N1. apply select_length.
    now rewrite Lm1, (regular_In _ _ _ Hreg (getitem_In _ _ _ Gr)). }
  destruct (setitem_regular Joined J d1 R1 LJ) as [Ra Na].
  destruct (setitem_regular Resign R (setitem Joined J d1) Ra) as [Rb Nb];
    [now rewrite Na|]. fold c2 in Rb, Nb. rewrite Na in Nb.
  assert (Lm2 : List.length m2 = nrows c2)
    by (unfold m2; now rewrite length_map, LR, Nb).
  destruct (loc_mask_regular m2 c2 Rb Lm2) as [R2 N2].
  specialize (N2 (setitem_nonempty _ _ _)). fold d2 in R2, N2.
  assert (Hdrop : drop_resigned datetime_of_str datetime_of_num d1 = Ok d2).
  { unfold drop_resigned. rewrite G1j. cbn [bind].
    rewrite (getitem_setitem_other _ _ _ _ Joined_not_Resign), G1r.
    cbn [bind]. now rewrite getitem_setitem_same. }
  assert (G2c : getitem cc d2 = Ok (select m2 (filter p col0))).
  { unfold d2, c2. rewrite getitem_loc_mask.
    now rewrite !getitem_setitem_other, G1c by assumption. }
  assert (G2r : getitem Resign d2 = Ok (filter isna R)).
  { unfold d2, c2, m2.
    now rewrite getitem_loc_mask, getitem_setitem_same, select_map_mask. }
  set (d := numeric_conversion numeric_of_str numeric_of_date cc d2).
  assert (Rd : regular d = true) by now apply conv_regular.
  assert (Hsum : payroll_summary d = Ok (summary_frame d)).
  { apply payroll_summary_frame; [exact Rd|].
    intros label Hl. apply conv_numeric.
    apply pay_labels_converted; [exact Hcc|].
    rewrite app_assoc. apply in_or_app. now left. }
  destruct (summary_frame_shape d Rd) as [R3 N3].
  exists (summary_frame d).
  split; [|split; [exact R3|split; [|split]]].
  - unfold department_table, select_department. rewrite Gc. cbn [bind].
    fold p m1 d1. rewrite Hdrop. cbn [bind]. exact Hsum.
  - rewrite N3. unfold d. rewrite conv_nrows, N2.
    pose proof (count_true_le m2) as L2. pose proof (count_true_le m1) as L1.
    rewrite Lm2, Nb, N1 in L2. rewrite Lm1 in L1. lia.
  - exists (select m2 (filter p col0)). split.
    + rewrite summary_frame_other
        by exact (ignored_not_summary cc cc Hcc (cost_center_ignored cc)).
      unfold d. rewrite conv_getitem_kept by apply cost_center_ignored.
      exact G2c.
    + apply select_forallb, forallb_filter_same.
  - exists (filter isna R). split.
    + rewrite summary_frame_other
        by exact (ignored_not_summary cc Resign Hcc (Resign_ignored cc)).
      unfold d. rewrite conv_getitem_kept by apply Resign_ignored.
      exact G2r.
    + apply forallb_filter_same.
Qed.

Lemma department_table_produced_witness :
  NoDup (columns two_depts_sheet)
  /\ exists df,
       department_table inferred_date epoch_count plain_number no_number
                        (cps "C/Center") (CStr (cps "HQ")) two_depts_sheet
       = Ok df
       /\ (nrows df <= 4)%nat.
Proof.
  assert (Hnd : NoDup (columns two_depts_sheet))
    by (apply duplicated_NoDup; reflexivity).
  split; [exact Hnd|].
  destruct (department_table_produced inferred_date epoch_count plain_number
              no_number (cps "C/Center") (CStr (cps "HQ")) two_depts_sheet
              eq_refl eq_refl Hnd eq_refl eq_refl eq_refl)
    as (df & H1 & _ & H2 & _).
  exists df. split; assumption.
Defined.

(** ** The invoice of a department table *)

Lemma aggregate_summary_frame
    (numeric_of_str : pystr -> option Qc) (numeric_of_date : Z -> option Qc)
    (cc : pystr) (df df1 : DataFrame) :
  is_cost_center_label cc = true ->
  regular df = true ->
  aggregate numeric_of_str numeric_of_date cc df = Ok df1 ->
  df1 = summary_frame (numeric_conversion numeric_of_str numeric_of_date cc df).
Proof.
  intros Hcc Hreg Hagg. unfold aggregate in Hagg.
  rewrite payroll_summary_frame in Hagg.
  - now injection Hagg.
  - now apply conv_regular.
  - intros label Hl. apply conv_numeric.
    apply pay_labels_converted; [exact Hcc|].
    rewrite app_assoc. apply in_or_app. now left.
Qed.

Lemma has_column_getitem (label : pystr) (df df' : DataFrame) :
  getitem label df = getitem label df' ->
  has_column label df = has_column label df'.
Proof.
  intros E. destruct (has_column label df') eqn:H.
  - apply getitem_present in H. destruct H as [s Hs].
    apply getitem_present. exists s. congruence.
  - apply getitem_absent in H. apply getitem_absent. congruence.
Qed.

Lemma invoice_columns_not_summary (label : pystr) :
  In label [OT_Amt; BOT; HRDF] -> ~ In label summary_columns.
Proof.
  intros H1 H2.
  assert (Hall : forallb (fun l => negb (existsb (pystr_eqb l) summary_columns))
                         [OT_Amt; BOT; HRDF] = true) by reflexivity.
  rewrite forallb_forall in Hall. specialize (Hall label H1).
  apply negb_true_iff in Hall.
  assert (T : existsb (pystr_eqb label) summary_columns = true).
  { apply existsb_exists. exists label. split; [exact H2|apply pystr_eqb_refl]. }
  congruence.
Qed.

(** X14.  For the table the aggregator made of a sheet, the invoice is
    shown exactly when the sheet has the three columns OT Amt 1½, BOT and
    HRDF; with one of them missing the exception is reported instead. *)
Theorem invoice_shown_iff
    (numeric_of_str : pystr -> option Qc) (numeric_of_date : Z -> option Qc)
    (cc : pystr) (df df1 : DataFrame) :
  is_cost_center_label cc = true ->
  regular df = true ->
  aggregate numeric_of_str numeric_of_date cc df = Ok df1 ->
  ((exists inv, generate_invoice df1 = Shown inv) <->
   has_column OT_Amt df = true /\ has_column BOT df = true
   /\ has_column HRDF df = true).
Proof.
  intros Hcc Hreg Hagg.
  assert (Hsame : forall label,
             In label [OT_Amt; BOT; HRDF] ->
             has_column label df1 = has_column label df).
  { intros label Hl.
    rewrite (aggregate_summary_frame _ _ _ _ _ Hcc Hreg Hagg).
    rewrite <- (conv_has_column numeric_of_str numeric_of_date cc label df).
    apply has_column_getitem, summary_frame_other.
    now apply invoice_columns_not_summary. }
  unfold generate_invoice. split.
  - intros [inv H].
    destruct (invoice df1) as [inv'|e] eqn:I; [|discriminate H].
    apply invoice_inv in I.
    destruct I as (gp & ot & bot & ot_sum & bot_sum & hr & _ & _ & Got & _
                   & Gbot & _ & _ & _ & _ & _ & _ & Ghr & _).
    rewrite <- !Hsame by (simpl; tauto).
    repeat split; apply getitem_present; eauto.
  - intros (Hot & Hbot & Hhrdf).
    destruct (invoice_of_aggregate numeric_of_str numeric_of_date cc df df1
                Hcc Hreg Hagg Hot Hbot Hhrdf) as [inv ->].
    now exists inv.
Qed.

Lemma invoice_shown_iff_witness :
  exists df1 inv,
    aggregate plain_number no_number (cps "C/Center") hq_sheet = Ok df1
    /\ generate_invoice df1 = Shown inv.
Proof.
  destruct (aggregate plain_number no_number (cps "C/Center") hq_sheet)
    as [df1|e] eqn:E; [|exfalso; vm_compute in E; discriminate E].
  destruct (proj2 (invoice_shown_iff plain_number no_number (cps "C/Center")
                     hq_sheet df1 eq_refl eq_refl E)) as [inv H].
  - repeat split.
  - exists df1, inv. split; [reflexivity|exact H].
Defined.

(** ** Spellings that share a key *)

Lemma sum_norm_skip_repeat (df : DataFrame) (t : pystr)
    (pre rest : list pystr) :
  existsb (fun t0 => pystr_eqb (norm_key t0) (norm_key t)) pre = true
  \/ lookup_key (norm_key t) df = None ->
  sum_norm df (pre ++ t :: rest) = sum_norm df (pre ++ rest).
Proof.
  induction pre as [|h pre IH]; intros H.
  - destruct H as [H|H]; [discriminate H|].
    simpl app. now rewrite sum_norm_lookup, H.
  - simpl app. rewrite !sum_norm_lookup.
    destruct (lookup_key (norm_key h) df) eqn:L; [reflexivity|].
    apply IH. destruct H as [H|H]; [|now right].
    simpl in H. apply orb_true_iff in H. destruct H as [H|H]; [|now left].
    apply pystr_eqb_eq in H. right. now rewrite <- H.
Qed.

(** X16.  The three EPF-ER spellings have one key, and so have the three
    EIS-ER spellings: on every table the result is that of the first
    spelling alone.  The five Socso spellings have three keys, and the
    result is that of "Socso ER", "SOC ER" and "Soc 'EE" in this order;
    "SOC'ER" and "SOCSOER" never decide anything. *)
Theorem employer_spellings_by_key (df : DataFrame) :
  sum_norm df epf_er_names = sum_norm df [cps "EPF ER"]
  /\ sum_norm df eis_er_names = sum_norm df [cps "EIS ER"]
  /\ sum_norm df socso_er_names
     = sum_norm df [cps "Socso ER"; cps "SOC ER"; cps "Soc 'EE"].
Proof.
  split; [|split].
  - transitivity (sum_norm df [cps "EPF ER"; cps "EPF'ER"]).
    + exact (sum_norm_skip_repeat df (cps "EPFER")
               [cps "EPF ER"; cps "EPF'ER"] [] (or_introl eq_refl)).
    + exact (sum_norm_skip_repeat df (cps "EPF'ER") [cps "EPF ER"] []
               (or_introl eq_refl)).
  - transitivity (sum_norm df [cps "EIS ER"; cps "EIS'ER"]).
    + exact (sum_norm_skip_repeat df (cps "EISER")
               [cps "EIS ER"; cps "EIS'ER"] [] (or_introl eq_refl)).
    + exact (sum_norm_skip_repeat df (cps "EIS'ER") [cps "EIS ER"] []
               (or_introl eq_refl)).
  - transitivity (sum_norm df [cps "Socso ER"; cps "SOC ER"; cps "SOC'ER";
                               cps "Soc 'EE"]).
    + exact (sum_norm_skip_repeat df (cps "SOCSOER")
               [cps "Socso ER"; cps "SOC ER"; cps "SOC'ER"]
               [cps "Soc 'EE"] (or_introl eq_refl)).
    + exact (sum_norm_skip_repeat df (cps "SOC'ER")
               [cps "Socso ER"; cps "SOC ER"] [cps "Soc 'EE"]
               (or_introl eq_refl)).
Qed.

(** ** Login *)

(** X17.  The login check passes exactly for a user name of the table
    together with the password listed for it: an unknown name is
    rejected whatever the password, and a known name with any other
    text, the empty one included. *)
Theorem login_ok_iff (username password : pystr) :
  login_ok username password = true <-> In (username, password) VALID_USERS.
Proof.
  assert (Hab : cps "alice" <> cps "bob") by discriminate.
  unfold login_ok, dict_get, VALID_USERS. cbn [find fst snd option_map].
  destruct (pystr_eqb (cps "alice") username) eqn:E1.
  - apply pystr_eqb_eq in E1. subst username. cbn [option_map snd].
    rewrite pystr_eqb_eq. split.
    + intros <-. now left.
    + intros [H|[H|[]]].
      * now injection H.
      * exfalso. apply Hab. now injection H.
  - apply pystr_eqb_neq in E1.
    destruct (pystr_eqb (cps "bob") username) eqn:E2.
    + apply pystr_eqb_eq in E2. subst username. cbn [option_map snd].
      rewrite pystr_eqb_eq. split.
      * intros <-. right. now left.
      * intros [H|[H|[]]].
        -- exfalso. apply Hab. now injection H.
        -- now injection H.
    + apply pystr_eqb_neq in E2. cbn [option_map]. split; [discriminate|].
      intros [H|[H|[]]]; exfalso; [apply E1|apply E2]; now injection H.
Qed.
